(** * Bresser 5-in-1 weather logger (CC1101): frame decoder, time-slot
      encoder and sampling state machine.

    Shallow embedding of [src/Bresser5in1_CC1101.cpp].  Machine integers are
    [Z] with the wrap-around of their C type written out, IEEE binary32
    values are [spec_float] at precision 24, and the sketch's calls into the
    radio, WiFi, clock, sheet and buffer modules read an environment of
    oracles and update an explicit world state. *)

From Stdlib Require Import ZArith List Bool Lia String.
From Stdlib Require Import Floats.SpecFloat.
From Equations Require Import Equations.
Import ListNotations.
Open Scope Z_scope.

(** ** Fixed-width integers *)

Module Machine.

Definition u8 (z : Z) : Z := z mod 2 ^ 8.
Definition u32 (z : Z) : Z := z mod 2 ^ 32.
Definition u64 (z : Z) : Z := z mod 2 ^ 64.

(** Conversion to a 32-bit [int] (two's complement). *)
Definition i32 (z : Z) : Z := (z + 2 ^ 31) mod 2 ^ 32 - 2 ^ 31.

Definition is_u8 (z : Z) : Prop := 0 <= z < 256.
Definition is_i32 (z : Z) : Prop := - 2 ^ 31 <= z < 2 ^ 31.

(** All values of a [uint8_t], for checking byte identities by
    enumeration. *)
Definition all_u8 : list Z := map Z.of_nat (seq 0 256).

End Machine.
Import Machine.

(** ** IEEE binary32 ([float] on the target) *)

Module Float32.

Definition float : Type := spec_float.
Definition prec : Z := 24.
Definition emax : Z := 128.

(** [int] to [float] conversion, round to nearest even. *)
Definition of_int (z : Z) : float := binary_normalize prec emax z 0 false.
Definition mul : float -> float -> float := SFmul prec emax.
Definition zero : float := S754_zero false.

(** The literal [0.1f]: 13421773 * 2^-27. *)
Definition lit_0_1 : float := S754_finite false 13421773 (-27).
(** The literal [22.5f]: 45 * 2^-1. *)
Definition lit_22_5 : float := S754_finite false 11796480 (-19).

(** [raw * 0.1f] for an [int] operand. *)
Definition tenths (raw : Z) : float := mul (of_int raw) lit_0_1.
(** [raw * 22.5f] for an [int] operand. *)
Definition compass (raw : Z) : float := mul (of_int raw) lit_22_5.

End Float32.

(** ** Data model *)

Inductive DecodeStatus := DECODE_OK | DECODE_PAR_ERR | DECODE_CHK_ERR.

Inductive SamplingState :=
| INITIAL_WIFI_CONNECTION
| REINIT_WIFI_CONNECTION
| AWAIT_TIME_SLOT
| CAPTURE_WEATHER_DATA
| SEND_WEATHER_DATA
| SLEEP_UNTIL_TIME_SLOT.

(** Modelled from the spec: the [WeatherData] struct is declared in
    [WeatherDataBuffer.h], which is not in the source tree; the fields are
    the ones the sketch reads and writes, with the types of the spec's
    Measurement record. *)
Record WeatherData := {
  sensor_id : Z;
  temp_c : Float32.float;
  humidity : Z;
  wind_direction_deg : Float32.float;
  wind_gust_meter_sec : Float32.float;
  wind_avg_meter_sec : Float32.float;
  rain_mm : Float32.float;
  battery_ok : bool;
  pressure : Float32.float
}.

(** [WeatherData weatherData = { 0 };] *)
Definition WeatherData_zero : WeatherData :=
  {| sensor_id := 0; temp_c := Float32.zero; humidity := 0;
     wind_direction_deg := Float32.zero; wind_gust_meter_sec := Float32.zero;
     wind_avg_meter_sec := Float32.zero; rain_mm := Float32.zero;
     battery_ok := false; pressure := Float32.zero |}.

(** Lines written to [Serial]. *)
Inductive SerialLine :=
| ParityWrongAt (col : Z)
| ChecksumWrong (actual expected : Z)
| WeatherReport (w : WeatherData)
| ReceiveFailed (code : Z)
| ItemsToUpload (n : Z)
| AwaitingSlot (want got : Z)
| AwaitingCapture (target : Z)
| SleepingFor (seconds : Z)
| Text (s : string).

(** ** FrameDecoder: [decodeBresser5In1Payload] *)

(** [msg[i]].  The sketch passes 26 bytes and the decoder reads indices
    0..25 only, so the default is never read there. *)
Definition at_ (msg : list Z) (i : Z) : Z := nth (Z.to_nat i) msg 0.

(** The parity loop, [n] iterations left from column [col]; [Some col] is
    the column at which it returns [DECODE_PAR_ERR]. *)
Fixpoint parity_loop (msg : list Z) (col : Z) (n : nat) : option Z :=
  match n with
  | O => None
  | S n' =>
      if negb (Z.lxor (at_ msg col) (at_ msg (col + 13)) =? 255)
      then Some col
      else parity_loop msg (col + 1) n'
  end.

(** [while (currentByte) { bitsSet += (currentByte & 1); currentByte >>= 1; }]
    Both variables are [uint8_t]; the guard of an unsigned variable is
    [0 < currentByte]. *)
Equations? count_bits (currentByte bitsSet : Z) : Z
  by wf (Z.to_nat currentByte) lt :=
  count_bits currentByte bitsSet with Z_lt_dec 0 currentByte => {
    | left _ := count_bits (Z.shiftr currentByte 1)
                           (u8 (bitsSet + Z.land currentByte 1));
    | right _ := bitsSet }.
Proof.
  rewrite Z.shiftr_div_pow2 by lia.
  change (2 ^ 1) with 2.
  assert (currentByte / 2 < currentByte) by (apply Z.div_lt; lia).
  assert (0 <= currentByte / 2) by (apply Z.div_pos; lia).
  lia.
Qed.

(** [for (uint8_t p = ... ; p < msgSize ; p++)], [n] iterations left;
    [p] stays below [msgSize <= 255], so [p++] does not wrap. *)
Fixpoint checksum_loop (msg : list Z) (p : Z) (n : nat) (bitsSet : Z) : Z :=
  match n with
  | O => bitsSet
  | S n' => checksum_loop msg (p + 1) n' (count_bits (at_ msg p) bitsSet)
  end.

(** The value of [bitsSet] after the checksum loop. *)
Definition bitsSet_of (msg : list Z) (msgSize : Z) : Z :=
  checksum_loop msg 14 (Z.to_nat (msgSize - 14)) 0.

(** The three BCD digits [ones + tens * 10 + hundreds * 100] as the source
    writes them. *)
Definition bcd3 (b0 b1 : Z) : Z :=
  Z.land b0 15 + Z.shiftr (Z.land b0 240) 4 * 10 + Z.land b1 15 * 100.

Definition decode_fields (msg : list Z) (pOut : WeatherData) : WeatherData :=
  let temp_raw := bcd3 (at_ msg 20) (at_ msg 21) in
  let temp_raw := if negb (Z.land (at_ msg 25) 15 =? 0)
                  then - temp_raw else temp_raw in
  let gust_raw := Z.shiftl (Z.land (at_ msg 17) 15) 8 + at_ msg 16 in
  let wind_raw := bcd3 (at_ msg 18) (at_ msg 19) in
  let rain_raw := bcd3 (at_ msg 23) (at_ msg 24) in
  {| sensor_id := at_ msg 14;
     temp_c := Float32.tenths temp_raw;
     humidity := Z.land (at_ msg 22) 15
                 + Z.shiftr (Z.land (at_ msg 22) 240) 4 * 10;
     wind_direction_deg :=
       Float32.compass (Z.shiftr (Z.land (at_ msg 17) 240) 4);
     wind_gust_meter_sec := Float32.tenths gust_raw;
     wind_avg_meter_sec := Float32.tenths wind_raw;
     rain_mm := Float32.tenths rain_raw;
     battery_ok := if negb (Z.land (at_ msg 25) 128 =? 0) then false else true;
     pressure := pressure pOut |}.

(** The result is the returned status, the record behind [pOut] after the
    call, and the lines printed. *)
Definition decodeBresser5In1Payload (msg : list Z) (msgSize : Z)
    (pOut : WeatherData) : DecodeStatus * WeatherData * list SerialLine :=
  match parity_loop msg 0 (Z.to_nat (msgSize / 2)) with
  | Some col => (DECODE_PAR_ERR, pOut, [ParityWrongAt col])
  | None =>
      let bitsSet := bitsSet_of msg msgSize in
      let expectedBitsSet := at_ msg 13 in
      if negb (bitsSet =? expectedBitsSet)
      then (DECODE_CHK_ERR, pOut, [ChecksumWrong bitsSet expectedBitsSet])
      else (DECODE_OK, decode_fields msg pOut, [])
  end.

(** The example frame of the source's header comment. *)
Definition example_frame : list Z :=
  [0xEA; 0xEC; 0x7F; 0xEB; 0x5F; 0xEE; 0xEF; 0xFA; 0xFE; 0x76; 0xBB; 0xFA; 0xFF;
   0x15; 0x13; 0x80; 0x14; 0xA0; 0x11; 0x10; 0x05; 0x01; 0x89; 0x44; 0x05; 0x00].


(** The example frame with columns 3 and 7 corrupted. *)
Definition frame_bad_parity : list Z :=
  [0xEA; 0xEC; 0x7F; 0xEA; 0x5F; 0xEE; 0xEF; 0x00; 0xFE; 0x76; 0xBB; 0xFA; 0xFF;
   0x15; 0x13; 0x80; 0x14; 0xA0; 0x11; 0x10; 0x05; 0x01; 0x89; 0x44; 0x05; 0x00].

(** The example frame announcing 22 set bits (and its complement in byte 0)
    where bytes 14..25 have 21. *)
Definition frame_bad_checksum : list Z :=
  [0xE9; 0xEC; 0x7F; 0xEB; 0x5F; 0xEE; 0xEF; 0xFA; 0xFE; 0x76; 0xBB; 0xFA; 0xFF;
   0x16; 0x13; 0x80; 0x14; 0xA0; 0x11; 0x10; 0x05; 0x01; 0x89; 0x44; 0x05; 0x00].

(** *** The decoder's contract, in the specification's words *)

Definition lo_nibble (b : Z) : Z := b mod 16.
Definition hi_nibble (b : Z) : Z := b / 16.

(** Number of set bits among the low [n] bits of [b]. *)
Definition bits_upto (n : nat) (b : Z) : Z :=
  fold_right Z.add 0
    (map (fun i => Z.b2z (Z.testbit b (Z.of_nat i))) (seq 0 n)).

(** Number of set bits of a byte. *)
Definition popcount (b : Z) : Z := bits_upto 8 b.

(** Total number of set bits in bytes [lo .. lo + n - 1] of [msg]. *)
Definition popcount_range (msg : list Z) (lo : Z) (n : nat) : Z :=
  fold_right Z.add 0
    (map (fun k => popcount (at_ msg (lo + Z.of_nat k))) (seq 0 n)).

(** A 26-byte payload. *)
Definition is_payload (msg : list Z) : bool :=
  (List.length msg =? 26)%nat
  && forallb (fun b => (0 <=? b) && (b <? 256)) msg.

(** [payload[i] XOR payload[i+13] = 0xFF]. *)
Definition inverted_at (msg : list Z) (i : Z) : bool :=
  Z.lxor (at_ msg i) (at_ msg (i + 13)) =? 255.

(** Parity-by-inversion holds at every offset 0..12. *)
Definition parity_holds (msg : list Z) : bool :=
  forallb (fun i => inverted_at msg (Z.of_nat i)) (seq 0 13).

(** The set bits of bytes 14..25 add up to byte 13. *)
Definition checksum_holds (msg : list Z) : bool :=
  popcount_range msg 14 12 =? at_ msg 13.

(** Three BCD digits: ones and tens in one byte, hundreds in the low nibble
    of the next. *)
Definition bcd_tenths (b0 b1 : Z) : Z :=
  lo_nibble b0 + 10 * hi_nibble b0 + 100 * lo_nibble b1.

(** The field map of section 4.1; [p] is the pressure, which the decoder
    does not touch. *)
Definition field_map (msg : list Z) (p : Float32.float) : WeatherData :=
  {| sensor_id := at_ msg 14;
     temp_c :=
       Float32.tenths
         (if lo_nibble (at_ msg 25) =? 0
          then bcd_tenths (at_ msg 20) (at_ msg 21)
          else - bcd_tenths (at_ msg 20) (at_ msg 21));
     humidity := lo_nibble (at_ msg 22) + 10 * hi_nibble (at_ msg 22);
     wind_direction_deg := Float32.compass (hi_nibble (at_ msg 17));
     wind_gust_meter_sec :=
       Float32.tenths
         (Z.lor (Z.shiftl (Z.land (at_ msg 17) 0x0F) 8) (at_ msg 16));
     wind_avg_meter_sec := Float32.tenths (bcd_tenths (at_ msg 18) (at_ msg 19));
     rain_mm := Float32.tenths (bcd_tenths (at_ msg 23) (at_ msg 24));
     battery_ok := negb (Z.testbit (at_ msg 25) 7);
     pressure := p |}.

(** ** CaptureTimeEncoder: [assembleTargetTime] *)

(** [struct tm], the components the sketch reads. *)
Record tm := {
  tm_sec : Z;
  tm_min : Z;
  tm_hour : Z;
  tm_mday : Z;
  tm_mon : Z;
  tm_year : Z
}.

Module Calendar.

(** Leap year test on a [tm_year] (years since 1900). *)
Definition is_leap (y : Z) : bool :=
  (Z.rem y 4 =? 0)
  && (negb (Z.rem y 100 =? 0) || (Z.rem (y + 1900) 400 =? 0)).

Definition days_in_month (y mon : Z) : Z :=
  if mon =? 1 then (if is_leap y then 29 else 28)
  else if (mon =? 3) || (mon =? 5) || (mon =? 8) || (mon =? 10) then 30
  else 31.

(** Carry of an out-of-range component into the next one:
    [div] truncates, a negative remainder borrows one unit. *)
Definition carry (v base : Z) : Z * Z :=
  if (v <? 0) || (base - 1 <? v) then
    let q := Z.quot v base in
    let r := Z.rem v base in
    if r <? 0 then (q - 1, r + base) else (q, r)
  else (0, v).

(** Days beyond the end of the month roll into the following months. *)
Equations? roll_forward (y mon mday : Z) : Z * Z * Z
  by wf (Z.to_nat mday) lt :=
  roll_forward y mon mday with Z_lt_dec (days_in_month y mon) mday => {
    | left _ :=
        let mday' := mday - days_in_month y mon in
        if mon + 1 =? 12 then roll_forward (y + 1) 0 mday'
        else roll_forward y (mon + 1) mday';
    | right _ := (y, mon, mday) }.
Proof.
  all: assert (28 <= days_in_month y mon)
    by (unfold days_in_month;
        repeat match goal with |- context [if ?b then _ else _] =>
                 destruct b end; lia);
    lia.
Qed.

(** Number of days by which [mday] lies before the first of a month. *)
Definition days_short (mday : Z) : nat := Z.to_nat (1 - mday).
Arguments days_short : simpl never.

(** Days before the first of the month borrow from the preceding months. *)
Equations? roll_backward (y mon mday : Z) : Z * Z * Z
  by wf (days_short mday) lt :=
  roll_backward y mon mday with Z_le_dec mday 0 => {
    | left _ :=
        if mon - 1 =? -1
        then roll_backward (y - 1) 11 (mday + days_in_month (y - 1) 11)
        else roll_backward y (mon - 1) (mday + days_in_month y (mon - 1));
    | right _ := (y, mon, mday) }.
Proof.
  - assert (28 <= days_in_month (y - 1) 11) by (vm_compute; discriminate).
    unfold days_short. lia.
  - assert (28 <= days_in_month y (mon - 1))
      by (unfold days_in_month;
          repeat match goal with |- context [if ?b then _ else _] =>
                   destruct b end; lia).
    unfold days_short. lia.
Qed.

(** Modelled from the spec: [mktime] is the C library's and not part of
    the source tree.  Section 4.2 has it normalize calendar overflow by the
    standard rules (minute, hour, day and month rollover); this is the
    carry chain seconds -> minutes -> hours -> days, months -> years, then
    the day-of-month roll.  It stands for the library in a zone without
    daylight-saving shifts and knows no limit on the year; [tm_isdst] and
    the library's failure on a year it cannot represent are not part of it.
    What is proved of the value [mktime] returns after minutes were added is
    therefore stated for any [mktime] that meets [normalizes_minutes]. *)
Definition mktime (t : tm) : tm :=
  let '(cmin, sec) := carry (tm_sec t) 60 in
  let '(chour, min) := carry (tm_min t + cmin) 60 in
  let '(cday, hour) := carry (tm_hour t + chour) 24 in
  let mday := tm_mday t + cday in
  let '(cyear, mon) := carry (tm_mon t) 12 in
  let y := tm_year t + cyear in
  let '(y', mon', mday') :=
    if mday <=? 0 then roll_backward y mon mday
    else roll_forward y mon mday in
  {| tm_sec := sec; tm_min := min; tm_hour := hour;
     tm_mday := mday'; tm_mon := mon'; tm_year := y' |}.

End Calendar.

(** [outputTime] as it is handed to [mktime]: the copy of [timeinfo] with the
    seconds cleared and [minutesToAdd] added to the minutes, an [int] that
    takes a [uint32_t]. *)
Definition outputTime_before (timeinfo : tm) (minutesToAdd : Z) : tm :=
  let outputTime := timeinfo in
  let outputTime :=
    {| tm_sec := 0; tm_min := tm_min outputTime; tm_hour := tm_hour outputTime;
       tm_mday := tm_mday outputTime; tm_mon := tm_mon outputTime;
       tm_year := tm_year outputTime |} in
  let outputTime :=
    {| tm_sec := tm_sec outputTime;
       tm_min := i32 (tm_min outputTime + minutesToAdd);
       tm_hour := tm_hour outputTime;
       tm_mday := tm_mday outputTime; tm_mon := tm_mon outputTime;
       tm_year := tm_year outputTime |} in
  outputTime.

(** [outputTime] after [mktime(&outputTime)], [mktime] being the C
    library's. *)
Definition outputTime_with (mktime : tm -> tm) (timeinfo : tm)
    (minutesToAdd : Z) : tm :=
  mktime (outputTime_before timeinfo minutesToAdd).

(** The packing [YYYMMDDHHMM] of [outputTime]: [tm_year - 100] and
    [tm_mon + 1] are computed in [int] (two's complement) and converted to
    [uint64_t]; the sums and products are 64-bit unsigned. *)
Definition outputTimeEncoded_of (outputTime : tm) : Z :=
  let outputTimeEncoded := u64 (i32 (tm_year outputTime - 100)) in
  let outputTimeEncoded := u64 (outputTimeEncoded * 100) in
  let outputTimeEncoded :=
    u64 (outputTimeEncoded + i32 (tm_mon outputTime + 1)) in
  let outputTimeEncoded := u64 (outputTimeEncoded * 100) in
  let outputTimeEncoded := u64 (outputTimeEncoded + tm_mday outputTime) in
  let outputTimeEncoded := u64 (outputTimeEncoded * 100) in
  let outputTimeEncoded := u64 (outputTimeEncoded + tm_hour outputTime) in
  let outputTimeEncoded := u64 (outputTimeEncoded * 100) in
  let outputTimeEncoded := u64 (outputTimeEncoded + tm_min outputTime) in
  outputTimeEncoded.

(** [assembleTargetTime] over the library's [mktime]. *)
Definition assembleTargetTime_with (mktime : tm -> tm) (timeinfo : tm)
    (minutesToAdd : Z) : Z :=
  outputTimeEncoded_of (outputTime_with mktime timeinfo minutesToAdd).

(** The encoder as the sketch runs it here, over [Calendar.mktime]. *)
Definition outputTime_of : tm -> Z -> tm := outputTime_with Calendar.mktime.

Definition assembleTargetTime : tm -> Z -> Z :=
  assembleTargetTime_with Calendar.mktime.

Definition mk_tm (y mon mday hour min sec : Z) : tm :=
  {| tm_sec := sec; tm_min := min; tm_hour := hour;
     tm_mday := mday; tm_mon := mon; tm_year := y |}.

(** *** Calendar times, in the specification's words *)

Definition between (lo v hi : Z) : bool := (lo <=? v) && (v <=? hi).

(** Every component within its calendar range (a leap second allowed). *)
Definition normalized (t : tm) : bool :=
  between 0 (tm_mon t) 11
  && between 1 (tm_mday t) (Calendar.days_in_month (tm_year t) (tm_mon t))
  && between 0 (tm_hour t) 23
  && between 0 (tm_min t) 59
  && between 0 (tm_sec t) 60.

(** A valid calendar time: normalized, with a year that fits [int]. *)
Definition valid_tm (t : tm) : bool :=
  normalized t && between (- 2 ^ 31) (tm_year t) (2 ^ 31 - 1).

(** The century of the calendar year. *)
Definition century (t : tm) : Z := (tm_year t + 1900) / 100.

(** Lexicographic order on equally long lists of components. *)
Fixpoint lex_ltb (a b : list Z) : bool :=
  match a, b with
  | x :: a', y :: b' => (x <? y) || ((x =? y) && lex_ltb a' b')
  | _, _ => false
  end.

Definition minute_key (t : tm) : list Z :=
  [tm_year t; tm_mon t; tm_mday t; tm_hour t; tm_min t].

(** [t1] lies in an earlier minute than [t2]. *)
Definition minute_ltb (t1 t2 : tm) : bool :=
  lex_ltb (minute_key t1) (minute_key t2).


(** The start of [t]'s minute. *)
Definition start_of_minute (t : tm) : tm :=
  mk_tm (tm_year t) (tm_mon t) (tm_mday t) (tm_hour t) (tm_min t) 0.

(** The calendar minute after [t]. *)
Definition next_minute (t : tm) : tm :=
  if tm_min t <? 59 then
    mk_tm (tm_year t) (tm_mon t) (tm_mday t) (tm_hour t) (tm_min t + 1)
          (tm_sec t)
  else if tm_hour t <? 23 then
    mk_tm (tm_year t) (tm_mon t) (tm_mday t) (tm_hour t + 1) 0 (tm_sec t)
  else if tm_mday t <? Calendar.days_in_month (tm_year t) (tm_mon t) then
    mk_tm (tm_year t) (tm_mon t) (tm_mday t + 1) 0 0 (tm_sec t)
  else if tm_mon t <? 11 then
    mk_tm (tm_year t) (tm_mon t + 1) 1 0 0 (tm_sec t)
  else mk_tm (tm_year t + 1) 0 1 0 0 (tm_sec t).

(** The calendar time [m] minutes after [t]. *)
Definition minutes_later (m : Z) (t : tm) : tm :=
  Nat.iter (Z.to_nat m) next_minute t.

(** What the C standard asks of [mktime] on a time [x] whose minutes,
    [0 <= tm_min x], may run past the hour: the result is the calendar time
    [tm_min x] minutes after the start of [x]'s hour.  The library meets it
    when no daylight-saving change lies between the two and it can represent
    the result. *)
Definition normalizes_minutes (mktime : tm -> tm) (x : tm) : Prop :=
  mktime x
  = minutes_later (tm_min x)
      (mk_tm (tm_year x) (tm_mon x) (tm_mday x) (tm_hour x) 0 (tm_sec x)).

(** The digit groups of a token, before reduction to 64 bits. *)
Definition digit_groups (t : tm) : Z :=
  ((((tm_year t - 100) * 100 + (tm_mon t + 1)) * 100 + tm_mday t) * 100
   + tm_hour t) * 100 + tm_min t.

(** ** The world the sketch runs in *)

(** Modelled from the spec: [WeatherDataEntry] and the history buffer live in
    [WeatherDataBuffer.h], which is not in the source tree.  Section 3 makes an
    entry a measurement plus its capture timestamp, section 6 gives the buffer
    [append], [peekNext], [confirm] and [count]; the buffer is a queue whose
    oldest entry is peeked and, once confirmed, removed. *)
Record WeatherDataEntry := {
  weatherData : WeatherData;
  captured_at : tm
}.

Inductive Event :=
| Serial (l : SerialLine)
| Delay (ms : Z)
| DisconnectWifi
| SleepEnableTimerWakeup (us : Z)
| LightSleepStart
| TokenAcquire (expirySeconds : Z)
| AppendRow (row : WeatherDataEntry) (accepted : bool).

(** What the collaborators answer, by the number of queries made so far. *)
Record Env := {
  wifi_up : nat -> bool;
  token_init : nat -> bool;
  token_ready : nat -> bool;
  sheet_accepts : nat -> bool;
  radio_receive : nat -> Z * list Z;
  local_time : nat -> bool * tm;
  epoch_time : nat -> Z;
  pressure_available : nat -> bool;
  pressure_hpa : nat -> Float32.float
}.

(** The sketch's globals, the buffer, what it did so far (oldest first) and
    the number of queries it made. *)
Record World := {
  samplingState : SamplingState;
  wifiReinitAttempts : Z;
  targetWakeTime : Z;
  lightSlept : bool;
  buffer : list WeatherDataEntry;
  trace : list Event;
  tick : nat
}.

Definition set_samplingState (v : SamplingState) (w : World) : World :=
  {| samplingState := v; wifiReinitAttempts := wifiReinitAttempts w;
     targetWakeTime := targetWakeTime w; lightSlept := lightSlept w;
     buffer := buffer w; trace := trace w; tick := tick w |}.
Definition set_wifiReinitAttempts (v : Z) (w : World) : World :=
  {| samplingState := samplingState w; wifiReinitAttempts := v;
     targetWakeTime := targetWakeTime w; lightSlept := lightSlept w;
     buffer := buffer w; trace := trace w; tick := tick w |}.
Definition set_targetWakeTime (v : Z) (w : World) : World :=
  {| samplingState := samplingState w;
     wifiReinitAttempts := wifiReinitAttempts w;
     targetWakeTime := v; lightSlept := lightSlept w;
     buffer := buffer w; trace := trace w; tick := tick w |}.
Definition set_lightSlept (v : bool) (w : World) : World :=
  {| samplingState := samplingState w;
     wifiReinitAttempts := wifiReinitAttempts w;
     targetWakeTime := targetWakeTime w; lightSlept := v;
     buffer := buffer w; trace := trace w; tick := tick w |}.
Definition set_buffer (v : list WeatherDataEntry) (w : World) : World :=
  {| samplingState := samplingState w;
     wifiReinitAttempts := wifiReinitAttempts w;
     targetWakeTime := targetWakeTime w; lightSlept := lightSlept w;
     buffer := v; trace := trace w; tick := tick w |}.
Definition set_trace (v : list Event) (w : World) : World :=
  {| samplingState := samplingState w;
     wifiReinitAttempts := wifiReinitAttempts w;
     targetWakeTime := targetWakeTime w; lightSlept := lightSlept w;
     buffer := buffer w; trace := v; tick := tick w |}.
Definition set_tick (v : nat) (w : World) : World :=
  {| samplingState := samplingState w;
     wifiReinitAttempts := wifiReinitAttempts w;
     targetWakeTime := targetWakeTime w; lightSlept := lightSlept w;
     buffer := buffer w; trace := trace w; tick := v |}.

(** State monad over [World]. *)
Definition M (A : Type) : Type := World -> A * World.
Definition ret {A} (a : A) : M A := fun w => (a, w).
Definition bind {A B} (c : M A) (k : A -> M B) : M B :=
  fun w => let '(a, w') := c w in k a w'.

Declare Scope sketch_scope.
Delimit Scope sketch_scope with sketch.
Notation "x <- c ;; k" := (bind c (fun x => k))
  (at level 61, c at next level, right associativity) : sketch_scope.
Notation "c ;; k" := (bind c (fun _ => k))
  (at level 61, right associativity) : sketch_scope.
Open Scope sketch_scope.

Definition emit (e : Event) : M unit :=
  fun w => (tt, set_trace (trace w ++ [e]) w).
Definition emit_all (es : list Event) : M unit :=
  fun w => (tt, set_trace (trace w ++ es) w).
Definition query {A} (oracle : nat -> A) : M A :=
  fun w => (oracle (tick w), set_tick (S (tick w)) w).
Definition modify (f : World -> World) : M unit := fun w => (tt, f w).
Definition gets {A} (f : World -> A) : M A := fun w => (f w, w).

Definition print (s : string) : M unit := emit (Serial (Text s)).
Definition delay (ms : Z) : M unit := emit (Delay ms).

(** RadioLib status codes. *)
Definition RADIOLIB_ERR_NONE : Z := 0.
Definition RADIOLIB_ERR_RX_TIMEOUT : Z := -6.

Definition sleepTimeMinutes : Z := 10.

Section Sketch.

Variable env : Env.

(** *** Collaborators *)

(** The WiFi, clock, sheet, pressure and radio calls are answered by the
    environment; what they do to the outside is recorded in the trace. *)
Definition handleWifiConnection : M bool := query (wifi_up env).
Definition disconnectWifi : M unit := emit DisconnectWifi.
Definition getTime : M Z := query (epoch_time env).
Definition getLocalTime : M (bool * tm) := query (local_time env).
Definition isGoogleAccessTokenInit : M bool := query (token_init env).
Definition checkGoogleAccessTokenReady : M bool := query (token_ready env).
Definition setupGoogleAccessTokenAcquire (expiry : Z) : M unit :=
  emit (TokenAcquire expiry).
Definition appendRowToSheet (row : WeatherDataEntry) : M bool :=
  ok <- query (sheet_accepts env) ;;
  emit (AppendRow row ok) ;;
  ret ok.
Definition pressureSensorAvailable : M bool := query (pressure_available env).
Definition readPressureSensorHpa : M Float32.float := query (pressure_hpa env).
Definition radio_receive_27 : M (Z * list Z) := query (radio_receive env).

(** Modelled from the spec: [count()] of the history buffer. *)
Definition getTotalWeatherDataEntries : M Z :=
  gets (fun w => Z.of_nat (List.length (buffer w))).
(** Modelled from the spec: [peekNext()], the oldest entry if there is one;
    the read token it hands out is the position of that entry. *)
Definition peekNextWeatherDataEntry : M (option WeatherDataEntry) :=
  gets (fun w => hd_error (buffer w)).
(** Modelled from the spec: [confirm(readToken)] removes the peeked entry. *)
Definition confirmPeekWeatherDataEntry : M unit :=
  modify (fun w => set_buffer (tl (buffer w)) w).
(** Modelled from the spec: [append(Measurement, timestamp)]; the sketch
    passes the measurement only, the buffer reads the clock itself. *)
Definition appendWeatherDataEntry (d : WeatherData) : M unit :=
  now <- getLocalTime ;;
  modify (fun w =>
    set_buffer (buffer w ++ [{| weatherData := d; captured_at := snd now |}]) w).

(** *** [emitBufferedDataEntry] *)

Definition emitBufferedDataEntry : M bool :=
  peeked <- peekNextWeatherDataEntry ;;
  match peeked with
  | Some dataEntry =>
      ok <- appendRowToSheet dataEntry ;;
      if ok then confirmPeekWeatherDataEntry ;; ret true
      else ret false
  | None => ret false
  end.

(** *** [send] *)

(** [for (i = 0 ; i < 20 && !handleWifiConnection() ; i++)],
    [n] iterations left. *)
Fixpoint wifi_wait_inner (n : nat) : M unit :=
  match n with
  | O => ret tt
  | S n' =>
      up <- handleWifiConnection ;;
      if up then ret tt
      else delay 250 ;; print "." ;; wifi_wait_inner n'
  end.

(** [for (retry = 0 ; retry < 6 && !handleWifiConnection() ; retry++)] *)
Fixpoint wifi_wait_outer (n : nat) : M unit :=
  match n with
  | O => ret tt
  | S n' =>
      up <- handleWifiConnection ;;
      if up then ret tt
      else print "WiFi connection pending - wait..." ;;
           wifi_wait_inner 20 ;;
           print "" ;;
           wifi_wait_outer n'
  end.

(** [for (i = 0 ; !checkGoogleAccessTokenReady() && i < 60 ; i++)] *)
Fixpoint token_wait (n : nat) : M unit :=
  ready <- checkGoogleAccessTokenReady ;;
  if ready then ret tt
  else match n with
       | O => ret tt
       | S n' => delay 500 ;; print "." ;; token_wait n'
       end.

(** [for (i = 0 ; i < 20 && getTotalWeatherDataEntries() > 0 ; i++)] *)
Fixpoint upload_loop (n : nat) (sent : bool) : M bool :=
  match n with
  | O => ret sent
  | S n' =>
      total <- getTotalWeatherDataEntries ;;
      if 0 <? total then
        s <- emitBufferedDataEntry ;;
        delay 250 ;;
        upload_loop n' (sent || s)
      else ret sent
  end.

Definition send : M bool :=
  print "Checking WiFi connection..." ;;
  delay 100 ;;
  wifi_wait_outer 6 ;;
  up <- handleWifiConnection ;;
  if negb up then
    print "Wifi connection not up - cannot upload..." ;;
    ret false
  else
    init <- isGoogleAccessTokenInit ;;
    (if negb init then
       print "Checking Token..." ;;
       delay 100 ;;
       setupGoogleAccessTokenAcquire (sleepTimeMinutes * 60 + 30)
     else ret tt) ;;
    print "Waiting for Token..." ;;
    delay 100 ;;
    token_wait 60 ;;
    print "Checking for Token Ready..." ;;
    delay 100 ;;
    ready <- checkGoogleAccessTokenReady ;;
    if ready then
      total <- getTotalWeatherDataEntries ;;
      emit (Serial (ItemsToUpload total)) ;;
      delay 100 ;;
      upload_loop 20 false
    else
      print "Can't upload items - token not ready." ;;
      ret false.

(** *** [capture] (the build without [_EMULATE_RECV_] and [_DEBUG_MODE_]) *)

Definition capture : M bool :=
  rx <- radio_receive_27 ;;
  let '(state, recvData) := rx in
  if state =? RADIOLIB_ERR_NONE then
    if at_ recvData 0 =? 0xD4 then
      let '(status, weatherData, lines) :=
        decodeBresser5In1Payload (tl recvData) (u8 (27 - 1)) WeatherData_zero in
      emit_all (map Serial lines) ;;
      match status with
      | DECODE_OK =>
          avail <- pressureSensorAvailable ;;
          weatherData <-
            (if avail then
               hpa <- readPressureSensorHpa ;;
               ret {| sensor_id := sensor_id weatherData;
                      temp_c := temp_c weatherData;
                      humidity := humidity weatherData;
                      wind_direction_deg := wind_direction_deg weatherData;
                      wind_gust_meter_sec := wind_gust_meter_sec weatherData;
                      wind_avg_meter_sec := wind_avg_meter_sec weatherData;
                      rain_mm := rain_mm weatherData;
                      battery_ok := battery_ok weatherData;
                      pressure := hpa |}
             else ret weatherData) ;;
          getLocalTime ;;
          emit (Serial (WeatherReport weatherData)) ;;
          appendWeatherDataEntry weatherData ;;
          ret true
      | _ => ret false
      end
    else ret false
  else if state =? RADIOLIB_ERR_RX_TIMEOUT then ret false
  else emit (Serial (ReceiveFailed state)) ;; ret false.

(** *** [loop]: one step of the sampling state machine *)

(** [for (int i = 0 ; i < 10 ; i++) { delay(1000); Serial.print("."); }] *)
Fixpoint time_sync_wait (n : nat) : M unit :=
  match n with
  | O => ret tt
  | S n' => delay 1000 ;; print "." ;; time_sync_wait n'
  end.

Definition loop : M unit :=
  st <- gets samplingState ;;
  match st with
  | INITIAL_WIFI_CONNECTION =>
      up <- handleWifiConnection ;;
      if up then
        modify (set_samplingState SLEEP_UNTIL_TIME_SLOT) ;;
        print "Connected to WiFi - OK"
      else ret tt
  | REINIT_WIFI_CONNECTION =>
      up <- handleWifiConnection ;;
      if up then
        modify (set_samplingState CAPTURE_WEATHER_DATA) ;;
        slept <- gets lightSlept ;;
        if slept then
          print "Connected to WiFi - OK - waiting a few seconds for time sync" ;;
          modify (set_lightSlept false) ;;
          time_sync_wait 10
        else ret tt
      else
        attempts <- gets wifiReinitAttempts ;;
        if attempts <? 40 then
          delay 500 ;;
          modify (set_wifiReinitAttempts (i32 (attempts + 1))) ;;
          print "."
        else
          now <- getTime ;;
          if 24 * 60 * 60 * 21 <=? now then
            modify (set_samplingState AWAIT_TIME_SLOT) ;;
            print "Cannot connect to WiFi but time synced - so continuing..."
          else
            modify (set_samplingState SLEEP_UNTIL_TIME_SLOT) ;;
            print "Cannot connect to WiFi but time not synced so waiting for WiFi as times would be wrong..."
  | AWAIT_TIME_SLOT =>
      lt <- getLocalTime ;;
      let '(valid, timeinfo) := lt in
      if valid then
        let currentTime := assembleTargetTime timeinfo 0 in
        target <- gets targetWakeTime ;;
        if target <=? currentTime then
          modify (set_samplingState CAPTURE_WEATHER_DATA) ;;
          print "Reached time to capture data."
        else
          emit (Serial (AwaitingSlot target currentTime)) ;;
          delay 2000
      else ret tt
  | CAPTURE_WEATHER_DATA =>
      captured <- capture ;;
      if captured then
        print "Captured data - signalling sending." ;;
        modify (set_samplingState SEND_WEATHER_DATA)
      else ret tt
  | SEND_WEATHER_DATA =>
      print "Attempting to send data..." ;;
      send ;;
      print "Attempted to send data - signalling sleep." ;;
      modify (set_samplingState SLEEP_UNTIL_TIME_SLOT)
  | SLEEP_UNTIL_TIME_SLOT =>
      lt <- getLocalTime ;;
      let '(valid, timeinfo) := lt in
      if valid then
        let minutesToWait :=
          u64 (sleepTimeMinutes - Z.rem (tm_min timeinfo) sleepTimeMinutes) in
        let secondsToWait := u64 (minutesToWait * 60) in
        let secondsToWait := u64 (secondsToWait - tm_sec timeinfo) in
        modify (set_targetWakeTime
                  (assembleTargetTime timeinfo (u32 minutesToWait))) ;;
        if 30 <=? secondsToWait then
          modify (set_samplingState REINIT_WIFI_CONNECTION) ;;
          modify (set_wifiReinitAttempts 0) ;;
          target <- gets targetWakeTime ;;
          emit (Serial (AwaitingCapture target)) ;;
          emit (Serial (SleepingFor secondsToWait)) ;;
          disconnectWifi ;;
          delay 1000 ;;
          modify (set_lightSlept true) ;;
          emit (SleepEnableTimerWakeup (u64 (secondsToWait * 1000000))) ;;
          emit LightSleepStart
        else
          modify (set_samplingState AWAIT_TIME_SLOT)
      else ret tt
  end.

(** [n] consecutive invocations of [loop]. *)
Fixpoint run (n : nat) (w : World) : World :=
  match n with
  | O => w
  | S n' => run n' (snd (loop w))
  end.

End Sketch.

(** *** The scheduler's contract, in the specification's words *)

(** Seconds from [t] to the next wall-clock multiple of the sampling
    interval. *)
Definition remaining_seconds (t : tm) : Z :=
  (sleepTimeMinutes - tm_min t mod sleepTimeMinutes) * 60 - tm_sec t.

(** Minutes from the start of [t]'s minute to that boundary. *)
Definition remaining_minutes (t : tm) : Z :=
  sleepTimeMinutes - tm_min t mod sleepTimeMinutes.

(** How a capture attempt ends, given what the radio hands over. *)
Inductive CaptureOutcome :=
| RadioTimeout
| RadioError (code : Z)
| SyncMismatch
| DecodeFailed (status : DecodeStatus)
| Decoded.

Definition capture_outcome (rx : Z * list Z) : CaptureOutcome :=
  let '(state, recvData) := rx in
  if state =? RADIOLIB_ERR_NONE then
    if at_ recvData 0 =? 0xD4 then
      match fst (fst (decodeBresser5In1Payload (tl recvData) 26
                        WeatherData_zero)) with
      | DECODE_OK => Decoded
      | status => DecodeFailed status
      end
    else SyncMismatch
  else if state =? RADIOLIB_ERR_RX_TIMEOUT then RadioTimeout
  else RadioError state.

Definition is_decoded (o : CaptureOutcome) : bool :=
  match o with Decoded => true | _ => false end.

(** The rows handed to the sheet, in order, each with the sheet's answer. *)
Fixpoint uploads (tr : list Event) : list (WeatherDataEntry * bool) :=
  match tr with
  | [] => []
  | AppendRow row accepted :: tr' => (row, accepted) :: uploads tr'
  | _ :: tr' => uploads tr'
  end.

(** The rows the sheet accepted. *)
Definition accepted_rows (ups : list (WeatherDataEntry * bool))
  : list WeatherDataEntry :=
  map fst (filter snd ups).

(** A world in the given state whose clock, radio and sheet have not been
    queried yet. *)
Definition world_in (st : SamplingState) (attempts : Z)
    (buf : list WeatherDataEntry) : World :=
  {| samplingState := st; wifiReinitAttempts := attempts;
     targetWakeTime := 0; lightSlept := false;
     buffer := buf; trace := []; tick := 0 |}.

(** Collaborators answering the same at every query. *)
Definition constant_env (wifi sheet : bool) (rx : Z * list Z)
    (now : bool * tm) (epoch : Z) : Env :=
  {| wifi_up := fun _ => wifi;
     token_init := fun _ => true;
     token_ready := fun _ => true;
     sheet_accepts := fun _ => sheet;
     radio_receive := fun _ => rx;
     local_time := fun _ => now;
     epoch_time := fun _ => epoch;
     pressure_available := fun _ => false;
     pressure_hpa := fun _ => Float32.zero |}.

(** A computation that leaves the buffer alone and hands no row to the
    sheet. *)
Definition quiet {A} (c : M A) : Prop :=
  forall w,
    buffer (snd (c w)) = buffer w
    /\ uploads (trace (snd (c w))) = uploads (trace w).

(** A computation that hands at most [bound] rows to the sheet, all taken
    from the buffer, and removes from the buffer exactly the rows the sheet
    accepted, oldest first. *)
Definition drains {A} (bound : nat) (c : M A) : Prop :=
  forall w,
    exists (k : nat) (ups : list (WeatherDataEntry * bool)),
      buffer (snd (c w)) = skipn k (buffer w)
      /\ uploads (trace (snd (c w))) = uploads (trace w) ++ ups
      /\ (List.length ups <= bound)%nat
      /\ accepted_rows ups = firstn k (buffer w)
      /\ Forall (fun u => In (fst u) (buffer w)) ups.


(** A computation that leaves the retry counter alone. *)
Definition keeps_attempts {A} (c : M A) : Prop :=
  forall w, wifiReinitAttempts (snd (c w)) = wifiReinitAttempts w.

(** A radio that times out, then delivers a frame with a parity error, then
    one with a checksum error, then the example frame, each after the sync
    byte; every other collaborator answers as in [constant_env]. *)
Definition scripted_radio_env : Env :=
  {| wifi_up := fun _ => true;
     token_init := fun _ => true;
     token_ready := fun _ => true;
     sheet_accepts := fun _ => true;
     radio_receive := fun n =>
       nth n [(RADIOLIB_ERR_RX_TIMEOUT, []);
              (RADIOLIB_ERR_NONE, 0xD4 :: frame_bad_parity);
              (RADIOLIB_ERR_NONE, 0xD4 :: frame_bad_checksum);
              (RADIOLIB_ERR_NONE, 0xD4 :: example_frame)]
             (RADIOLIB_ERR_RX_TIMEOUT, []);
     local_time := fun _ => (true, mk_tm 126 10 2 14 3 20);
     epoch_time := fun _ => 1800000000;
     pressure_available := fun _ => false;
     pressure_hpa := fun _ => Float32.zero |}.

(** Two buffered entries, sensor ids 1 and 2. *)
Definition two_entries : list WeatherDataEntry :=
  [ {| weatherData :=
         {| sensor_id := 1; temp_c := Float32.zero; humidity := 50;
            wind_direction_deg := Float32.zero;
            wind_gust_meter_sec := Float32.zero;
            wind_avg_meter_sec := Float32.zero; rain_mm := Float32.zero;
            battery_ok := true; pressure := Float32.zero |};
       captured_at := mk_tm 126 10 2 14 0 3 |};
    {| weatherData :=
         {| sensor_id := 2; temp_c := Float32.zero; humidity := 51;
            wind_direction_deg := Float32.zero;
            wind_gust_meter_sec := Float32.zero;
            wind_avg_meter_sec := Float32.zero; rain_mm := Float32.zero;
            battery_ok := true; pressure := Float32.zero |};
       captured_at := mk_tm 126 10 2 14 10 2 |} ].

(** Structural equality of binary32 values. *)
Definition same_float (a b : Float32.float) : bool :=
  match a, b with
  | S754_zero s, S754_zero s' => Bool.eqb s s'
  | S754_infinity s, S754_infinity s' => Bool.eqb s s'
  | S754_nan, S754_nan => true
  | S754_finite s m e, S754_finite s' m' e' =>
      Bool.eqb s s' && Pos.eqb m m' && Z.eqb e e'
  | _, _ => false
  end.

(** *** Frames, as the header comment of the decoder lays them out *)

(** [msg] with the byte at [idx] replaced by [v]. *)
Definition set_byte (msg : list Z) (idx : nat) (v : Z) : list Z :=
  firstn idx msg ++ v :: skipn (S idx) msg.

(** The 26 bytes for 12 data bytes: [CC .. CC uu II .. Bt], where [uu] is the
    number of set bits of the data bytes and each [C] is the complement of
    the byte 13 further. *)
Definition frame_of (data : list Z) : list Z :=
  let tail := fold_right Z.add 0 (map popcount data) :: data in
  map (Z.lxor 255) tail ++ tail.

(** *** Reading a trace *)

(** Milliseconds spent in [delay] calls. *)
Fixpoint total_delay (tr : list Event) : Z :=
  match tr with
  | [] => 0
  | Delay ms :: tr' => ms + total_delay tr'
  | _ :: tr' => total_delay tr'
  end.

(** The states [loop] can leave a state for, read off its [switch]. *)
Definition successors (st : SamplingState) : list SamplingState :=
  match st with
  | INITIAL_WIFI_CONNECTION => [INITIAL_WIFI_CONNECTION; SLEEP_UNTIL_TIME_SLOT]
  | REINIT_WIFI_CONNECTION =>
      [REINIT_WIFI_CONNECTION; CAPTURE_WEATHER_DATA; AWAIT_TIME_SLOT;
       SLEEP_UNTIL_TIME_SLOT]
  | AWAIT_TIME_SLOT => [AWAIT_TIME_SLOT; CAPTURE_WEATHER_DATA]
  | CAPTURE_WEATHER_DATA => [CAPTURE_WEATHER_DATA; SEND_WEATHER_DATA]
  | SEND_WEATHER_DATA => [SLEEP_UNTIL_TIME_SLOT]
  | SLEEP_UNTIL_TIME_SLOT =>
      [SLEEP_UNTIL_TIME_SLOT; REINIT_WIFI_CONNECTION; AWAIT_TIME_SLOT]
  end.

(** Every entry the sheet has accepted so far, followed by every entry still
    buffered. *)
Definition ledger (w : World) : list WeatherDataEntry :=
  accepted_rows (uploads (trace w)) ++ buffer w.

(** [w] after [k] more queries and the events [tr]. *)
Definition advance (tr : list Event) (k : nat) (w : World) : World :=
  set_trace (trace w ++ tr) (set_tick (k + tick w) w).

(** What [send] prints and waits for while WiFi stays down: six rounds of
    twenty quarter-second waits. *)
Definition send_offline_trace : list Event :=
  [Serial (Text "Checking WiFi connection..."); Delay 100]
  ++ List.concat
       (repeat
          (Serial (Text "WiFi connection pending - wait...")
           :: List.concat (repeat [Delay 250; Serial (Text ".")] 20)
           ++ [Serial (Text "")])
          6)
  ++ [Serial (Text "Wifi connection not up - cannot upload...")].

(** A computation whose result tells whether the sheet accepted one of the
    rows it handed over. *)
Definition reports (c : M bool) : Prop :=
  forall w,
    exists ups,
      uploads (trace (snd (c w))) = uploads (trace w) ++ ups
      /\ fst (c w) = existsb snd ups.

(** A computation that uploads the 20 oldest entries, all accepted. *)
Definition uploads_oldest {A} (c : M A) : Prop :=
  forall w,
    buffer (snd (c w)) = skipn 20 (buffer w)
    /\ uploads (trace (snd (c w)))
       = uploads (trace w)
         ++ map (fun e => (e, true)) (firstn 20 (buffer w)).

(** What [send] prints and waits for once connected while the token never
    becomes ready; [init] is what [isGoogleAccessTokenInit] answered. *)
Definition send_token_timeout_trace (init : bool) : list Event :=
  [Serial (Text "Checking WiFi connection..."); Delay 100]
  ++ (if negb init
      then [Serial (Text "Checking Token..."); Delay 100;
            TokenAcquire (sleepTimeMinutes * 60 + 30)]
      else [])
  ++ [Serial (Text "Waiting for Token..."); Delay 100]
  ++ List.concat (repeat [Delay 500; Serial (Text ".")] 60)
  ++ [Serial (Text "Checking for Token Ready..."); Delay 100;
      Serial (Text "Can't upload items - token not ready.")].

(** The sketch's globals as their initialisers leave them, over a buffer
    that may hold entries from before the restart. *)
Definition initial_world (buf : list WeatherDataEntry) : World :=
  {| samplingState := INITIAL_WIFI_CONNECTION;
     wifiReinitAttempts := 0;
     targetWakeTime := 0;
     lightSlept := false;
     buffer := buf; trace := []; tick := 0 |}.

(** ** Start-up: [initCC1101], [beginPressureSensor], [setup] *)

Module Boot.

(** What the radio and the pressure sensor answer during start-up. *)
Record BootEnv := {
  begin_status : Z;
  crc_status : Z;
  length_status : Z;
  sync_status : Z;
  bmp_available : bool;
  bmp_init_ok : bool
}.

Inductive BootEvent :=
| Println (s : string)
| ErrorCode (s : string) (code : Z)
| Wait (ms : Z)
| SerialBegin (baud : Z)
| RadioBegin (freq br freqDev rxBw : string) (power preambleLength : Z)
| RadioSetCrcFiltering (enable : bool)
| RadioFixedPacketLengthMode (len : Z)
| RadioSetSyncWord (syncH syncL maxErrBits : Z) (requireCarrierSense : bool)
| InitPressureSensor
| SetHostname (name : string)
| InitWeatherDataBuffer
| SetWifiConnectionDetails.

(** The events of the call and whether it returned; [false] stands for the
    [while (true);] it ends in otherwise. *)
Definition initCC1101 (b : BootEnv) : list BootEvent * bool :=
  let t0 := [RadioBegin "868.35" "8.22" "57.136417" "270.0" 10 32] in
  if begin_status b =? RADIOLIB_ERR_NONE then
    let t1 := t0 ++ [Println "success!"; RadioSetCrcFiltering false] in
    if negb (crc_status b =? RADIOLIB_ERR_NONE) then
      (t1 ++ [ErrorCode "[CC1101] Error disabling crc filtering"
                        (crc_status b)], false)
    else
      let t2 := t1 ++ [RadioFixedPacketLengthMode 27] in
      if negb (length_status b =? RADIOLIB_ERR_NONE) then
        (t2 ++ [ErrorCode "[CC1101] Error setting fixed packet length"
                          (length_status b)], false)
      else
        let t3 := t2 ++ [RadioSetSyncWord 0xAA 0x2D 0 false] in
        if negb (sync_status b =? RADIOLIB_ERR_NONE) then
          (t3 ++ [ErrorCode "[CC1101] Error setting sync words"
                            (sync_status b)], false)
        else
          (t3 ++ [Println "[CC1101] Setup complete - awaiting incoming messages..."],
           true)
  else
    (t0 ++ [ErrorCode "[CC1101] Error initialising" (begin_status b)], false).

Definition beginPressureSensor (b : BootEnv) : list BootEvent :=
  if bmp_available b then
    [Println "[BMP280] Unavailable - pressure will read as 0."]
  else
    InitPressureSensor
    :: (if bmp_init_ok b
        then [Println "[BMP280] Initialised OK."]
        else [Println "[BMP280] Failed initialising - pressure unavailable."]).

Definition setup (b : BootEnv) : list BootEvent * bool :=
  let t := [Wait 5000; SerialBegin 115200;
            Println "Bresser-5-in-1 logger initializing ... "] in
  let '(radio, returned) := initCC1101 b in
  if returned then
    (t ++ radio ++ beginPressureSensor b
       ++ [SetHostname "ESP32-WeatherMonitor"; InitWeatherDataBuffer;
           SetWifiConnectionDetails],
     true)
  else (t ++ radio, false).

(** Every radio call answered [RADIOLIB_ERR_NONE]. *)
Definition radio_ok (b : BootEnv) : bool :=
  (begin_status b =? RADIOLIB_ERR_NONE)
  && (crc_status b =? RADIOLIB_ERR_NONE)
  && (length_status b =? RADIOLIB_ERR_NONE)
  && (sync_status b =? RADIOLIB_ERR_NONE).

Definition is_radio_call (e : BootEvent) : bool :=
  match e with
  | RadioBegin _ _ _ _ _ _ | RadioSetCrcFiltering _
  | RadioFixedPacketLengthMode _ | RadioSetSyncWord _ _ _ _ => true
  | _ => false
  end.

Definition is_after_radio (e : BootEvent) : bool :=
  match e with
  | InitPressureSensor | SetHostname _ | InitWeatherDataBuffer
  | SetWifiConnectionDetails => true
  | _ => false
  end.

(** Radio calls made before the first one that fails, counting it. *)
Definition calls_until_failure (b : BootEnv) : nat :=
  if negb (begin_status b =? RADIOLIB_ERR_NONE) then 1
  else if negb (crc_status b =? RADIOLIB_ERR_NONE) then 2
  else if negb (length_status b =? RADIOLIB_ERR_NONE) then 3
  else 4.

End Boot.

(** * Properties *)

(** ** Bytes *)

Lemma all_u8_complete (b : Z) : is_u8 b -> In b all_u8.
Proof.
  intros Hb. unfold all_u8.
  replace b with (Z.of_nat (Z.to_nat b)) by (unfold is_u8 in Hb; lia).
  apply in_map, in_seq. unfold is_u8 in Hb. lia.
Qed.

(** A boolean property checked on all 256 bytes holds of every byte. *)
Lemma forall_u8 (P : Z -> bool) :
  forallb P all_u8 = true -> forall b, is_u8 b -> P b = true.
Proof.
  intros H b Hb. rewrite forallb_forall in H. apply H, all_u8_complete, Hb.
Qed.

Lemma forall_u8_2 (P : Z -> Z -> bool) :
  forallb (fun a => forallb (P a) all_u8) all_u8 = true ->
  forall a b, is_u8 a -> is_u8 b -> P a b = true.
Proof.
  intros H a b Ha Hb.
  apply (forall_u8 (P a)); [| exact Hb].
  apply (forall_u8 (fun a => forallb (P a) all_u8)); assumption.
Qed.

Lemma is_payload_spec (msg : list Z) :
  is_payload msg = true ->
  List.length msg = 26%nat /\ forall i, is_u8 (at_ msg i).
Proof.
  unfold is_payload. intros H. apply andb_prop in H. destruct H as [Hl Hb].
  apply Nat.eqb_eq in Hl. split; [exact Hl |].
  intros i. unfold at_.
  destruct (nth_in_or_default (Z.to_nat i) msg 0) as [Hin | Hd].
  - rewrite forallb_forall in Hb. apply Hb in Hin. unfold is_u8. lia.
  - rewrite Hd. unfold is_u8. lia.
Qed.

Lemma land_15_lo_nibble (b : Z) : Z.land b 15 = lo_nibble b.
Proof. exact (Z.land_ones b 4 ltac:(lia)). Qed.

Lemma shiftr_240_hi_nibble (b : Z) :
  is_u8 b -> Z.shiftr (Z.land b 240) 4 = hi_nibble b.
Proof.
  intros Hb. apply Z.eqb_eq.
  apply (forall_u8 (fun b => Z.shiftr (Z.land b 240) 4 =? hi_nibble b));
    [vm_compute; reflexivity | exact Hb].
Qed.

Lemma gust_add_is_lor (b17 b16 : Z) :
  is_u8 b17 -> is_u8 b16 ->
  Z.shiftl (Z.land b17 15) 8 + b16 = Z.lor (Z.shiftl (Z.land b17 15) 8) b16.
Proof.
  intros H17 H16. apply Z.eqb_eq.
  apply (forall_u8_2
           (fun a b => Z.shiftl (Z.land a 15) 8 + b
                       =? Z.lor (Z.shiftl (Z.land a 15) 8) b));
    [vm_compute; reflexivity | exact H17 | exact H16].
Qed.

Lemma battery_bit (b : Z) :
  is_u8 b ->
  (if negb (Z.land b 128 =? 0) then false else true) = negb (Z.testbit b 7).
Proof.
  intros Hb.
  apply (forall_u8
           (fun b => Bool.eqb (if negb (Z.land b 128 =? 0) then false else true)
                              (negb (Z.testbit b 7)))) in Hb;
    [apply Bool.eqb_prop; exact Hb | vm_compute; reflexivity].
Qed.

Lemma bcd3_bcd_tenths (b0 b1 : Z) :
  is_u8 b0 -> bcd3 b0 b1 = bcd_tenths b0 b1.
Proof.
  intros H0. unfold bcd3, bcd_tenths.
  rewrite !land_15_lo_nibble, shiftr_240_hi_nibble by exact H0. lia.
Qed.

(** ** The set-bit accumulator *)

Lemma bits_upto_succ (n : nat) (b : Z) :
  bits_upto (S n) b = Z.b2z (Z.testbit b 0) + bits_upto n (Z.shiftr b 1).
Proof.
  unfold bits_upto. rewrite <- cons_seq, <- seq_shift. simpl.
  rewrite map_map. f_equal. f_equal. apply map_ext. intros i.
  rewrite Z.shiftr_spec by lia. do 2 f_equal. lia.
Qed.

Lemma bits_upto_bounds (n : nat) (b : Z) : 0 <= bits_upto n b <= Z.of_nat n.
Proof.
  revert b. induction n as [| n IH]; intros b.
  - unfold bits_upto. simpl. lia.
  - rewrite bits_upto_succ. specialize (IH (Z.shiftr b 1)).
    destruct (Z.testbit b 0); simpl Z.b2z; lia.
Qed.

Lemma bits_upto_zero (n : nat) : bits_upto n 0 = 0.
Proof.
  induction n as [| n IH]; [reflexivity |].
  rewrite bits_upto_succ. simpl. exact IH.
Qed.

Lemma count_bits_done (b acc : Z) : b <= 0 -> count_bits b acc = acc.
Proof.
  intros Hb. rewrite count_bits_equation_1.
  destruct (Z_lt_dec 0 b); [lia | reflexivity].
Qed.

Lemma count_bits_step (b acc : Z) :
  0 < b ->
  count_bits b acc = count_bits (Z.shiftr b 1) (u8 (acc + Z.land b 1)).
Proof.
  intros Hb. rewrite count_bits_equation_1.
  destruct (Z_lt_dec 0 b); [reflexivity | lia].
Qed.

(** The inner loop on an [n]-bit value adds exactly its number of set bits,
    as long as the 8-bit accumulator has room for [n] more. *)
Lemma count_bits_exact (n : nat) :
  forall b acc,
    0 <= b < 2 ^ Z.of_nat n -> 0 <= acc -> acc + Z.of_nat n <= 255 ->
    count_bits b acc = acc + bits_upto n b.
Proof.
  induction n as [| n IH]; intros b acc Hb Hacc Hroom.
  - assert (b = 0) by (simpl in Hb; lia). subst b.
    rewrite count_bits_done by lia. rewrite bits_upto_zero. lia.
  - destruct (Z.eq_dec b 0) as [-> | Hnz].
    + rewrite count_bits_done by lia. rewrite bits_upto_zero. lia.
    + rewrite count_bits_step by lia.
      rewrite bits_upto_succ.
      assert (Hbit : Z.land b 1 = Z.b2z (Z.testbit b 0)).
      { change 1 with (Z.ones 1). rewrite Z.land_ones by lia.
        rewrite Z.bit0_mod. reflexivity. }
      rewrite Hbit.
      assert (H01 : 0 <= Z.b2z (Z.testbit b 0) <= 1)
        by (destruct (Z.testbit b 0); simpl; lia).
      replace (u8 (acc + Z.b2z (Z.testbit b 0)))
        with (acc + Z.b2z (Z.testbit b 0))
        by (unfold u8; rewrite Z.mod_small; lia).
      rewrite IH.
      * lia.
      * rewrite Z.shiftr_div_pow2 by lia. change (2 ^ 1) with 2.
        replace (2 ^ Z.of_nat (S n)) with (2 * 2 ^ Z.of_nat n) in Hb
          by (rewrite Nat2Z.inj_succ, Z.pow_succ_r; lia).
        split; [apply Z.div_pos; lia |].
        apply Z.div_lt_upper_bound; lia.
      * lia.
      * lia.
Qed.

Lemma count_bits_byte (b acc : Z) :
  is_u8 b -> 0 <= acc <= 247 -> count_bits b acc = acc + popcount b.
Proof.
  intros Hb Hacc. apply (count_bits_exact 8); unfold is_u8 in Hb; simpl; lia.
Qed.

Lemma popcount_bounds (b : Z) : 0 <= popcount b <= 8.
Proof. exact (bits_upto_bounds 8 b). Qed.

Lemma popcount_range_succ (msg : list Z) (lo : Z) (n : nat) :
  popcount_range msg lo (S n)
  = popcount (at_ msg lo) + popcount_range msg (lo + 1) n.
Proof.
  unfold popcount_range. rewrite <- cons_seq, <- seq_shift. simpl.
  rewrite map_map, Z.add_0_r. f_equal. f_equal. apply map_ext. intros k.
  do 2 f_equal. lia.
Qed.

Lemma popcount_range_bounds (msg : list Z) (n : nat) :
  forall lo, 0 <= popcount_range msg lo n <= 8 * Z.of_nat n.
Proof.
  induction n as [| n IH]; intros lo.
  - unfold popcount_range. simpl. lia.
  - rewrite popcount_range_succ.
    pose proof (popcount_bounds (at_ msg lo)). specialize (IH (lo + 1)). lia.
Qed.

(** The outer loop over [n] bytes from [p], entered with [acc] in the
    accumulator. *)
Lemma checksum_loop_exact (msg : list Z) (n : nat) :
  (forall i, is_u8 (at_ msg i)) ->
  forall p acc,
    0 <= acc -> acc + 8 * Z.of_nat n <= 255 ->
    checksum_loop msg p n acc = acc + popcount_range msg p n.
Proof.
  intros Hbytes. induction n as [| n IH]; intros p acc Hacc Hroom.
  - unfold popcount_range. simpl. lia.
  - simpl checksum_loop. rewrite popcount_range_succ.
    rewrite count_bits_byte by (auto; lia).
    pose proof (popcount_bounds (at_ msg p)).
    rewrite IH by lia. lia.
Qed.

Lemma bitsSet_of_payload (msg : list Z) :
  is_payload msg = true -> bitsSet_of msg 26 = popcount_range msg 14 12.
Proof.
  intros Hp. apply is_payload_spec in Hp. destruct Hp as [_ Hb].
  unfold bitsSet_of. change (Z.to_nat (26 - 14)) with 12%nat.
  rewrite checksum_loop_exact by (auto; simpl; lia). lia.
Qed.

(** ** The parity loop *)

Lemma parity_loop_none (msg : list Z) (n : nat) :
  forall col,
    (forall j, col <= j < col + Z.of_nat n -> inverted_at msg j = true) ->
    parity_loop msg col n = None.
Proof.
  induction n as [| n IH]; intros col H; [reflexivity |].
  simpl. fold (inverted_at msg col). rewrite H by lia. simpl.
  apply IH. intros j Hj. apply H. lia.
Qed.

(** The loop stops at the first column that is not inverted. *)
Lemma parity_loop_first (msg : list Z) (n : nat) :
  forall col k,
    col <= k < col + Z.of_nat n ->
    inverted_at msg k = false ->
    (forall j, col <= j < k -> inverted_at msg j = true) ->
    parity_loop msg col n = Some k.
Proof.
  induction n as [| n IH]; intros col k Hk Hbad Hgood; [lia |].
  simpl. fold (inverted_at msg col).
  destruct (Z.eq_dec col k) as [-> | Hne].
  - rewrite Hbad. reflexivity.
  - rewrite Hgood by lia. simpl. apply IH; [lia | exact Hbad |].
    intros j Hj. apply Hgood. lia.
Qed.

(** Scanning the first [n] offsets either finds them all inverted or finds
    a smallest one that is not. *)
Lemma scan_offsets (msg : list Z) (n : nat) :
  (forall j, 0 <= j < Z.of_nat n -> inverted_at msg j = true)
  \/ exists k, 0 <= k < Z.of_nat n /\ inverted_at msg k = false
               /\ forall j, 0 <= j < k -> inverted_at msg j = true.
Proof.
  induction n as [| n [IH | [k [Hk [Hbad Hgood]]]]].
  - left. intros j Hj. lia.
  - destruct (inverted_at msg (Z.of_nat n)) eqn:E.
    + left. intros j Hj.
      destruct (Z.eq_dec j (Z.of_nat n)) as [-> | Hne]; [exact E |].
      apply IH. lia.
    + right. exists (Z.of_nat n). repeat split; try lia; [exact E |].
      intros j Hj. apply IH. lia.
  - right. exists k. repeat split; try lia; assumption.
Qed.

(** Among the offsets up to a mismatch there is a smallest mismatch. *)
Lemma first_mismatch (msg : list Z) (i : Z) :
  0 <= i -> inverted_at msg i = false ->
  exists k, 0 <= k <= i /\ inverted_at msg k = false
            /\ forall j, 0 <= j < k -> inverted_at msg j = true.
Proof.
  intros Hi Hbad.
  destruct (scan_offsets msg (Z.to_nat (i + 1))) as [Hall | [k [Hk [Hkb Hkg]]]].
  - rewrite Hall in Hbad by lia. discriminate.
  - exists k. repeat split; try lia; assumption.
Qed.

Lemma parity_holds_spec (msg : list Z) :
  parity_holds msg = true ->
  forall j, 0 <= j < 13 -> inverted_at msg j = true.
Proof.
  unfold parity_holds. intros H j Hj. rewrite forallb_forall in H.
  specialize (H (Z.to_nat j)). rewrite Z2Nat.id in H by lia.
  apply H, in_seq. lia.
Qed.

(** ** C1: a valid frame decodes to the field map *)

Lemma decode_fields_field_map (msg : list Z) (pOut : WeatherData) :
  is_payload msg = true ->
  decode_fields msg pOut = field_map msg (pressure pOut).
Proof.
  intros Hp. apply is_payload_spec in Hp. destruct Hp as [_ Hb].
  unfold decode_fields, field_map.
  rewrite gust_add_is_lor by apply Hb.
  rewrite !bcd3_bcd_tenths by apply Hb.
  rewrite !land_15_lo_nibble, !shiftr_240_hi_nibble by apply Hb.
  rewrite battery_bit by apply Hb.
  replace (lo_nibble (at_ msg 22) + hi_nibble (at_ msg 22) * 10)
    with (lo_nibble (at_ msg 22) + 10 * hi_nibble (at_ msg 22)) by lia.
  destruct (lo_nibble (at_ msg 25) =? 0); reflexivity.
Qed.

(** Past the parity loop the outcome is decided by the checksum alone. *)
Lemma decode_parity_passed (msg : list Z) (pOut : WeatherData) :
  is_payload msg = true ->
  parity_holds msg = true ->
  decodeBresser5In1Payload msg 26 pOut
  = if checksum_holds msg
    then (DECODE_OK, field_map msg (pressure pOut), [])
    else (DECODE_CHK_ERR, pOut,
          [ChecksumWrong (popcount_range msg 14 12) (at_ msg 13)]).
Proof.
  intros Hp Hpar. unfold decodeBresser5In1Payload.
  change (Z.to_nat (26 / 2)) with 13%nat.
  rewrite parity_loop_none
    by (intros j Hj; apply parity_holds_spec; [exact Hpar | simpl in Hj; lia]).
  rewrite bitsSet_of_payload by exact Hp.
  unfold checksum_holds.
  destruct (popcount_range msg 14 12 =? at_ msg 13); simpl; [| reflexivity].
  rewrite decode_fields_field_map by exact Hp. reflexivity.
Qed.

(** C1.  For every 26-byte payload whose first 13 bytes are the complements
    of the last 13 and whose set bits over bytes 14..25 add up to byte 13,
    the decoder returns [DECODE_OK], prints nothing, and leaves in the output
    record exactly the fields of the section 4.1 map (sensor id, gust,
    direction, average wind, signed temperature, humidity, rainfall and the
    battery bit), the pressure being whatever it was before. *)
Theorem decode_valid_frame (msg : list Z) (pOut : WeatherData) :
  is_payload msg = true ->
  parity_holds msg = true ->
  checksum_holds msg = true ->
  decodeBresser5In1Payload msg 26 pOut
  = (DECODE_OK, field_map msg (pressure pOut), []).
Proof.
  intros Hp Hpar Hchk.
  rewrite decode_parity_passed by assumption. rewrite Hchk. reflexivity.
Qed.

Lemma decode_valid_frame_witness :
  decodeBresser5In1Payload example_frame 26 WeatherData_zero
  = (DECODE_OK, field_map example_frame (pressure WeatherData_zero), []).
Proof.
  apply (decode_valid_frame example_frame WeatherData_zero); reflexivity.
Defined.

(** ** C2: validation order and diagnostics *)

(** C2.  For every 26-byte payload: if some offset [i] in 0..12 has
    [payload[i] XOR payload[i+13] <> 0xFF], the decoder returns
    [DECODE_PAR_ERR] and its diagnostic carries the smallest such offset,
    whatever the checksum bytes are; if parity holds and the number of set
    bits in bytes 14..25 differs from byte 13, it returns [DECODE_CHK_ERR]
    and its diagnostic carries the counted value and byte 13. *)
Theorem decode_fails_fast (msg : list Z) (pOut : WeatherData) :
  is_payload msg = true ->
  (forall i, 0 <= i <= 12 -> inverted_at msg i = false ->
     exists k, 0 <= k <= i /\ inverted_at msg k = false
               /\ (forall j, 0 <= j < k -> inverted_at msg j = true)
               /\ decodeBresser5In1Payload msg 26 pOut
                  = (DECODE_PAR_ERR, pOut, [ParityWrongAt k]))
  /\ (parity_holds msg = true -> checksum_holds msg = false ->
      decodeBresser5In1Payload msg 26 pOut
      = (DECODE_CHK_ERR, pOut,
         [ChecksumWrong (popcount_range msg 14 12) (at_ msg 13)])).
Proof.
  intros Hp. split.
  - intros i Hi Hbad.
    destruct (first_mismatch msg i ltac:(lia) Hbad) as [k [Hk [Hkb Hkg]]].
    exists k. repeat split; try lia; try assumption.
    unfold decodeBresser5In1Payload. change (Z.to_nat (26 / 2)) with 13%nat.
    rewrite (parity_loop_first msg 13 0 k) by (try assumption; simpl; lia).
    reflexivity.
  - intros Hpar Hchk.
    rewrite decode_parity_passed by assumption. rewrite Hchk. reflexivity.
Qed.

Lemma decode_fails_fast_witness :
  (exists k, 0 <= k <= 7 /\ inverted_at frame_bad_parity k = false
             /\ (forall j, 0 <= j < k -> inverted_at frame_bad_parity j = true)
             /\ decodeBresser5In1Payload frame_bad_parity 26 WeatherData_zero
                = (DECODE_PAR_ERR, WeatherData_zero, [ParityWrongAt k]))
  /\ decodeBresser5In1Payload frame_bad_checksum 26 WeatherData_zero
     = (DECODE_CHK_ERR, WeatherData_zero, [ChecksumWrong 21 22]).
Proof.
  split.
  - apply (proj1 (decode_fails_fast frame_bad_parity WeatherData_zero eq_refl) 7);
      [lia | reflexivity].
  - apply (proj2 (decode_fails_fast frame_bad_checksum WeatherData_zero eq_refl));
      reflexivity.
Defined.

(** ** C3: what the decoder writes *)

(** C3.  Whenever the decoder returns [DECODE_PAR_ERR] or [DECODE_CHK_ERR]
    the record behind [pOut] is exactly what it was before the call, and on
    every outcome, [DECODE_OK] included, its pressure field is what it was
    before the call. *)
Theorem decode_frame_effect (msg : list Z) (pOut : WeatherData) :
  (fst (fst (decodeBresser5In1Payload msg 26 pOut)) <> DECODE_OK ->
   snd (fst (decodeBresser5In1Payload msg 26 pOut)) = pOut)
  /\ pressure (snd (fst (decodeBresser5In1Payload msg 26 pOut)))
     = pressure pOut.
Proof.
  unfold decodeBresser5In1Payload.
  destruct (parity_loop msg 0 (Z.to_nat (26 / 2))) as [col |].
  - split; reflexivity.
  - destruct (negb (bitsSet_of msg 26 =? at_ msg 13)); simpl.
    + split; reflexivity.
    + split; [intros H; exfalso; apply H; reflexivity | reflexivity].
Qed.

Lemma decode_frame_effect_witness :
  snd (fst (decodeBresser5In1Payload frame_bad_checksum 26 WeatherData_zero))
  = WeatherData_zero.
Proof.
  apply (proj1 (decode_frame_effect frame_bad_checksum WeatherData_zero)).
  vm_compute. discriminate.
Defined.

(** ** C9: the 8-bit accumulator does not wrap *)

(** C9.  For every 26-byte payload the [uint8_t] accumulator ends at the
    mathematical number of set bits of bytes 14..25, which is at most 96, so
    no addition wrapped modulo 256; hence, once parity holds, the decoder
    reports a checksum error exactly when that number differs from
    byte 13. *)
Theorem checksum_accumulator_exact (msg : list Z) (pOut : WeatherData) :
  is_payload msg = true ->
  bitsSet_of msg 26 = popcount_range msg 14 12
  /\ 0 <= popcount_range msg 14 12 <= 96
  /\ (parity_holds msg = true ->
      (fst (fst (decodeBresser5In1Payload msg 26 pOut)) = DECODE_CHK_ERR
       <-> popcount_range msg 14 12 <> at_ msg 13)
      /\ (fst (fst (decodeBresser5In1Payload msg 26 pOut)) = DECODE_OK
          <-> popcount_range msg 14 12 = at_ msg 13)).
Proof.
  intros Hp. split; [apply bitsSet_of_payload, Hp |].
  split; [exact (popcount_range_bounds msg 12 14) |].
  intros Hpar. rewrite decode_parity_passed by assumption.
  destruct (checksum_holds msg) eqn:Hchk; simpl;
    unfold checksum_holds in Hchk;
    [apply Z.eqb_eq in Hchk | apply Z.eqb_neq in Hchk];
    (split; split; intros H; try discriminate; try reflexivity;
     try assumption; contradiction).
Qed.

Lemma checksum_accumulator_exact_witness :
  bitsSet_of example_frame 26 = popcount_range example_frame 14 12
  /\ 0 <= popcount_range example_frame 14 12 <= 96.
Proof.
  destruct (checksum_accumulator_exact example_frame WeatherData_zero eq_refl)
    as [H1 [H2 _]].
  split; [exact H1 | exact H2].
Defined.

(** ** The time-slot token *)

Lemma between_spec (lo v hi : Z) : between lo v hi = true <-> lo <= v <= hi.
Proof. unfold between. rewrite andb_true_iff, !Z.leb_le. tauto. Qed.

Lemma normalized_spec (t : tm) :
  normalized t = true <->
  0 <= tm_mon t <= 11
  /\ 1 <= tm_mday t <= Calendar.days_in_month (tm_year t) (tm_mon t)
  /\ 0 <= tm_hour t <= 23 /\ 0 <= tm_min t <= 59 /\ 0 <= tm_sec t <= 60.
Proof.
  unfold normalized. rewrite !andb_true_iff, !between_spec. tauto.
Qed.

Lemma valid_tm_spec (t : tm) :
  valid_tm t = true <->
  normalized t = true /\ - 2 ^ 31 <= tm_year t <= 2 ^ 31 - 1.
Proof. unfold valid_tm. rewrite andb_true_iff, between_spec. tauto. Qed.

Lemma days_in_month_bounds (y mon : Z) :
  28 <= Calendar.days_in_month y mon <= 31.
Proof.
  unfold Calendar.days_in_month.
  repeat match goal with |- context [if ?b then _ else _] => destruct b end;
    lia.
Qed.

Lemma u64_add_l (a b : Z) : u64 (u64 a + b) = u64 (a + b).
Proof. unfold u64. apply Zplus_mod_idemp_l. Qed.

Lemma u64_mul_l (a b : Z) : u64 (u64 a * b) = u64 (a * b).
Proof. unfold u64. apply Zmult_mod_idemp_l. Qed.

Lemma i32_small (z : Z) : - 2 ^ 31 <= z < 2 ^ 31 -> i32 z = z.
Proof. intros H. unfold i32. rewrite Z.mod_small; lia. Qed.

(** Just below [INT_MIN] the [int] result is [2^32] higher. *)
Lemma i32_below (z : Z) : - 2 ^ 32 <= z < - 2 ^ 31 -> i32 z = z + 2 ^ 32.
Proof.
  intros H. unfold i32.
  change (2 ^ 31) with 2147483648 in *. change (2 ^ 32) with 4294967296 in *.
  assert (E : (z + 2147483648) mod 4294967296 = z + 2147483648 + 4294967296)
    by (symmetry; apply Z.mod_unique with (q := -1); lia).
  rewrite E. lia.
Qed.

(** The 64-bit arithmetic computes the digit groups modulo 2^64, with the
    year group as the [int] subtraction left it. *)
Lemma outputTimeEncoded_of_groups (o : tm) :
  - 2 ^ 31 <= tm_mon o + 1 < 2 ^ 31 ->
  outputTimeEncoded_of o
  = u64 (digit_groups o
         + (i32 (tm_year o - 100) - (tm_year o - 100)) * 100000000).
Proof.
  intros Hmon. unfold outputTimeEncoded_of, digit_groups. cbv zeta.
  rewrite (i32_small (tm_mon o + 1)) by exact Hmon.
  set (g1 := i32 (tm_year o - 100)).
  rewrite (u64_mul_l g1 100).
  set (g2 := g1 * 100). rewrite (u64_add_l g2 (tm_mon o + 1)).
  set (g3 := g2 + (tm_mon o + 1)). rewrite (u64_mul_l g3 100).
  set (g4 := g3 * 100). rewrite (u64_add_l g4 (tm_mday o)).
  set (g5 := g4 + tm_mday o). rewrite (u64_mul_l g5 100).
  set (g6 := g5 * 100). rewrite (u64_add_l g6 (tm_hour o)).
  set (g7 := g6 + tm_hour o). rewrite (u64_mul_l g7 100).
  set (g8 := g7 * 100). rewrite (u64_add_l g8 (tm_min o)).
  f_equal. subst g8 g7 g6 g5 g4 g3 g2. ring.
Qed.

(** The token of a normalized time: its digit groups, raised by 2^64 where
    the year group is negative (a year before 2000), and by 2^32 in the year
    group where [tm_year - 100] falls below [INT_MIN]. *)
Lemma outputTimeEncoded_of_value (o : tm) :
  normalized o = true -> - 2 ^ 31 <= tm_year o < 2 ^ 31 + 100 ->
  outputTimeEncoded_of o
  = digit_groups o
    + (if tm_year o <? - 2 ^ 31 + 100 then 2 ^ 32 * 100000000
       else if tm_year o <? 100 then 2 ^ 64 else 0).
Proof.
  intros Hn Hy. apply normalized_spec in Hn.
  pose proof (days_in_month_bounds (tm_year o) (tm_mon o)).
  rewrite outputTimeEncoded_of_groups
    by (change (2 ^ 31) with 2147483648; lia).
  unfold u64.
  change (2 ^ 31) with 2147483648 in *. change (2 ^ 32) with 4294967296.
  change (2 ^ 64) with 18446744073709551616.
  destruct (Z.ltb_spec (tm_year o) (Z.opp 2147483648 + 100)) as [Hw | Hw];
    cbv iota.
  - rewrite i32_below
      by (change (2 ^ 31) with 2147483648; change (2 ^ 32) with 4294967296;
          lia).
    change (2 ^ 32) with 4294967296.
    replace (tm_year o - 100 + 4294967296 - (tm_year o - 100))
      with 4294967296 by ring.
    apply Z.mod_small. unfold digit_groups. lia.
  - rewrite i32_small by (change (2 ^ 31) with 2147483648; lia).
    replace (tm_year o - 100 - (tm_year o - 100)) with 0 by ring.
    destruct (Z.ltb_spec (tm_year o) 100) as [Hb | Hb]; cbv iota.
    + symmetry. apply Z.mod_unique with (q := -1); unfold digit_groups; lia.
    + rewrite Z.mul_0_l, !Z.add_0_r. apply Z.mod_small.
      unfold digit_groups. lia.
Qed.

Lemma lex_ltb_minute (a b : tm) :
  minute_ltb a b = true <->
  tm_year a < tm_year b
  \/ tm_year a = tm_year b /\
     (tm_mon a < tm_mon b
      \/ tm_mon a = tm_mon b /\
         (tm_mday a < tm_mday b
          \/ tm_mday a = tm_mday b /\
             (tm_hour a < tm_hour b
              \/ tm_hour a = tm_hour b /\ tm_min a < tm_min b))).
Proof.
  unfold minute_ltb, minute_key, lex_ltb.
  rewrite andb_false_r, orb_false_r.
  repeat (rewrite orb_true_iff || rewrite andb_true_iff
          || rewrite Z.ltb_lt || rewrite Z.eqb_eq).
  tauto.
Qed.

Lemma minute_ltb_trans (a b c : tm) :
  minute_ltb a b = true -> minute_ltb b c = true -> minute_ltb a c = true.
Proof. rewrite !lex_ltb_minute. lia. Qed.

Lemma century_near (a b : tm) :
  century a = century b -> tm_year b - 100 < tm_year a < tm_year b + 100.
Proof.
  unfold century. intros H.
  pose proof (Z.div_mod (tm_year a + 1900) 100 ltac:(lia)).
  pose proof (Z.mod_pos_bound (tm_year a + 1900) 100 ltac:(lia)).
  pose proof (Z.div_mod (tm_year b + 1900) 100 ltac:(lia)).
  pose proof (Z.mod_pos_bound (tm_year b + 1900) 100 ltac:(lia)).
  lia.
Qed.

(** Years of one century lie on the same side of 2000. *)
Lemma century_side (a b : tm) :
  century a = century b -> (tm_year a < 100 <-> tm_year b < 100).
Proof.
  unfold century. intros Hc.
  assert (A : forall y, (y + 1900) / 100 < 20 <-> y < 100).
  { intros y. split; intros H.
    - destruct (Z_lt_dec y 100) as [L | L]; [exact L |].
      assert (20 <= (y + 1900) / 100) by (apply Z.div_le_lower_bound; lia).
      lia.
    - apply Z.div_lt_upper_bound; lia. }
  rewrite <- (A (tm_year a)), <- (A (tm_year b)), Hc. tauto.
Qed.

(** Tokens of normalized times of one century are ordered like the times. *)
Lemma outputTimeEncoded_of_order (a b : tm) :
  normalized a = true -> normalized b = true ->
  - 2 ^ 31 <= tm_year a < 2 ^ 31 + 100 ->
  - 2 ^ 31 <= tm_year b < 2 ^ 31 + 100 ->
  century a = century b ->
  minute_ltb a b = true ->
  outputTimeEncoded_of a < outputTimeEncoded_of b.
Proof.
  intros Ha Hb Hya Hyb Hc Hlt.
  rewrite !outputTimeEncoded_of_value by assumption.
  apply normalized_spec in Ha, Hb. apply lex_ltb_minute in Hlt.
  pose proof (days_in_month_bounds (tm_year a) (tm_mon a)).
  pose proof (days_in_month_bounds (tm_year b) (tm_mon b)).
  pose proof (century_near _ _ Hc) as Hnear.
  pose proof (century_side _ _ Hc) as Hside.
  assert (Hlin : digit_groups a < digit_groups b)
    by (unfold digit_groups; lia).
  change (2 ^ 31) with 2147483648 in *. change (2 ^ 32) with 4294967296.
  change (2 ^ 64) with 18446744073709551616.
  destruct (Z.ltb_spec (tm_year a) (Z.opp 2147483648 + 100));
    destruct (Z.ltb_spec (tm_year b) (Z.opp 2147483648 + 100));
    destruct (Z.ltb_spec (tm_year a) 100);
    destruct (Z.ltb_spec (tm_year b) 100); lia.
Qed.

(** The token holds nothing but the minute. *)
Lemma outputTimeEncoded_of_minute (a b : tm) :
  minute_key a = minute_key b ->
  outputTimeEncoded_of a = outputTimeEncoded_of b.
Proof.
  unfold minute_key, outputTimeEncoded_of. intros E.
  injection E as -> -> -> -> ->. reflexivity.
Qed.

(** ** Calendar normalization *)

Lemma carry_nonneg (v base : Z) :
  0 <= v -> 0 < base -> Calendar.carry v base = (v / base, v mod base).
Proof.
  intros Hv Hb. unfold Calendar.carry.
  destruct ((v <? 0) || (base - 1 <? v)) eqn:E.
  - rewrite Z.quot_div_nonneg, Z.rem_mod_nonneg by lia.
    pose proof (Z.mod_pos_bound v base Hb).
    destruct (v mod base <? 0) eqn:E'; [apply Z.ltb_lt in E'; lia | reflexivity].
  - apply orb_false_elim in E. destruct E as [_ E]. apply Z.ltb_ge in E.
    rewrite Z.div_small, Z.mod_small by lia. reflexivity.
Qed.

Lemma roll_forward_in_month (y mon mday : Z) :
  mday <= Calendar.days_in_month y mon ->
  Calendar.roll_forward y mon mday = (y, mon, mday).
Proof.
  intros H. rewrite Calendar.roll_forward_equation_1.
  destruct (Z_lt_dec (Calendar.days_in_month y mon) mday); [lia | reflexivity].
Qed.

(** One day past the end of month [mon] is the first of the next month. *)
Lemma roll_forward_next_month (y mon : Z) :
  0 <= mon <= 11 ->
  Calendar.roll_forward y mon (Calendar.days_in_month y mon + 1)
  = if mon =? 11 then (y + 1, 0, 1) else (y, mon + 1, 1).
Proof.
  intros Hmon. rewrite Calendar.roll_forward_equation_1.
  destruct (Z_lt_dec (Calendar.days_in_month y mon)
                     (Calendar.days_in_month y mon + 1)); [| lia].
  simpl.
  replace (Calendar.days_in_month y mon + 1 - Calendar.days_in_month y mon)
    with 1 by lia.
  destruct (Z.eqb_spec mon 11) as [-> | Hne].
  - simpl. apply roll_forward_in_month.
    pose proof (days_in_month_bounds (y + 1) 0). lia.
  - destruct (Z.eqb_spec (mon + 1) 12); [lia |].
    apply roll_forward_in_month.
    pose proof (days_in_month_bounds y (mon + 1)). lia.
Qed.

(** What [Calendar.mktime] returns when minutes are added to a normalized
    time. *)
Lemma outputTime_of_carries (t : tm) (m : Z) :
  normalized t = true -> 0 <= m -> tm_min t + m < 2 ^ 31 ->
  let q1 := (tm_min t + m) / 60 in
  let q2 := (tm_hour t + q1) / 24 in
  outputTime_of t m
  = let '(y', mon', mday') :=
      Calendar.roll_forward (tm_year t) (tm_mon t) (tm_mday t + q2) in
    {| tm_sec := 0; tm_min := (tm_min t + m) mod 60;
       tm_hour := (tm_hour t + q1) mod 24;
       tm_mday := mday'; tm_mon := mon'; tm_year := y' |}.
Proof.
  intros Hn Hm Hb q1 q2. apply normalized_spec in Hn.
  unfold outputTime_of, outputTime_with, outputTime_before, Calendar.mktime.
  cbv zeta. cbn [tm_sec tm_min tm_hour tm_mday tm_mon tm_year].
  rewrite i32_small by lia.
  rewrite (carry_nonneg 0 60) by lia.
  change (0 / 60) with 0. change (0 mod 60) with 0. cbv iota beta.
  rewrite Z.add_0_r.
  rewrite (carry_nonneg (tm_min t + m) 60) by lia. cbv iota beta.
  assert (0 <= q1) by (apply Z.div_pos; lia).
  rewrite (carry_nonneg (tm_hour t + (tm_min t + m) / 60) 24) by (fold q1; lia).
  cbv iota beta.
  assert (0 <= q2) by (apply Z.div_pos; lia).
  rewrite (carry_nonneg (tm_mon t) 12) by lia.
  rewrite (Z.div_small (tm_mon t) 12), (Z.mod_small (tm_mon t) 12) by lia.
  cbv iota beta. rewrite Z.add_0_r. fold q1. fold q2.
  destruct (Z.leb_spec (tm_mday t + q2) 0); [lia |].
  reflexivity.
Qed.

Lemma outputTime_of_zero (t : tm) :
  normalized t = true ->
  outputTime_of t 0
  = mk_tm (tm_year t) (tm_mon t) (tm_mday t) (tm_hour t) (tm_min t) 0.
Proof.
  intros Hn. rewrite outputTime_of_carries by (try assumption; apply normalized_spec in Hn; lia).
  apply normalized_spec in Hn. cbv zeta.
  rewrite Z.add_0_r.
  rewrite (Z.div_small (tm_min t) 60), (Z.mod_small (tm_min t) 60) by lia.
  rewrite Z.add_0_r.
  rewrite (Z.div_small (tm_hour t) 24), (Z.mod_small (tm_hour t) 24) by lia.
  rewrite Z.add_0_r, roll_forward_in_month by lia.
  reflexivity.
Qed.

Lemma normalized_zero_sec (t : tm) :
  normalized t = true ->
  normalized
    (mk_tm (tm_year t) (tm_mon t) (tm_mday t) (tm_hour t) (tm_min t) 0) = true.
Proof.
  intros Hn. apply normalized_spec in Hn. apply normalized_spec. simpl. lia.
Qed.

(** The token of a time, no minutes added. *)
Lemma assembleTargetTime_zero (t : tm) :
  normalized t = true ->
  assembleTargetTime t 0 = outputTimeEncoded_of (start_of_minute t).
Proof.
  intros Hn. unfold assembleTargetTime, assembleTargetTime_with.
  change (outputTime_with Calendar.mktime t 0) with (outputTime_of t 0).
  rewrite outputTime_of_zero by exact Hn. reflexivity.
Qed.

(** Tokens of valid times with no minutes added. *)
Lemma token_order_minutes (t1 t2 : tm) :
  valid_tm t1 = true -> valid_tm t2 = true ->
  century t1 = century t2 ->
  minute_ltb t1 t2 = true ->
  assembleTargetTime t1 0 < assembleTargetTime t2 0.
Proof.
  intros H1 H2 Hc Hlt.
  apply valid_tm_spec in H1, H2. destruct H1 as [N1 Y1], H2 as [N2 Y2].
  rewrite !assembleTargetTime_zero by assumption.
  apply outputTimeEncoded_of_order;
    try (apply normalized_zero_sec; assumption);
    try (unfold start_of_minute, mk_tm; cbn [tm_year]; lia);
    assumption.
Qed.

(** The digit groups of a token from the year 2000 on. *)
Lemma assembleTargetTime_digit_groups (t : tm) (m : Z) :
  normalized (outputTime_of t m) = true ->
  100 <= tm_year (outputTime_of t m) < 2 ^ 31 + 100 ->
  assembleTargetTime t m = digit_groups (outputTime_of t m).
Proof.
  intros Hn Hy. unfold assembleTargetTime, assembleTargetTime_with.
  change (outputTime_with Calendar.mktime t m) with (outputTime_of t m).
  rewrite outputTimeEncoded_of_value by (try assumption; lia).
  destruct (Z.ltb_spec (tm_year (outputTime_of t m)) (- 2 ^ 31 + 100));
    [change (2 ^ 31) with 2147483648 in *; lia |].
  destruct (Z.ltb_spec (tm_year (outputTime_of t m)) 100); lia.
Qed.

(** ** The calendar, minute by minute *)

Lemma minutes_later_add (a b : Z) (s : tm) :
  0 <= a -> 0 <= b ->
  minutes_later (a + b) s = minutes_later b (minutes_later a s).
Proof.
  intros Ha Hb. unfold minutes_later.
  rewrite Z2Nat.inj_add, Nat.add_comm, Nat.iter_add by assumption.
  reflexivity.
Qed.

Lemma next_minute_spec (s : tm) :
  normalized s = true ->
  normalized (next_minute s) = true
  /\ minute_ltb s (next_minute s) = true
  /\ tm_sec (next_minute s) = tm_sec s
  /\ tm_min (next_minute s) = (tm_min s + 1) mod 60.
Proof.
  intros Hn. apply normalized_spec in Hn.
  pose proof (days_in_month_bounds (tm_year s) (tm_mon s)).
  pose proof (days_in_month_bounds (tm_year s) (tm_mon s + 1)).
  pose proof (days_in_month_bounds (tm_year s + 1) 0).
  rewrite normalized_spec, lex_ltb_minute. unfold next_minute.
  destruct (Z.ltb_spec (tm_min s) 59);
    [| destruct (Z.ltb_spec (tm_hour s) 23);
       [| destruct (Z.ltb_spec (tm_mday s)
                      (Calendar.days_in_month (tm_year s) (tm_mon s)));
          [| destruct (Z.ltb_spec (tm_mon s) 11)]]];
    unfold mk_tm; cbn [tm_sec tm_min tm_hour tm_mday tm_mon tm_year];
    Z.div_mod_to_equations; lia.
Qed.

Lemma minutes_later_spec (s : tm) (m : Z) :
  normalized s = true -> 0 < m ->
  normalized (minutes_later m s) = true
  /\ minute_ltb s (minutes_later m s) = true
  /\ tm_sec (minutes_later m s) = tm_sec s
  /\ tm_min (minutes_later m s) = (tm_min s + m) mod 60.
Proof.
  intros Hn Hm. unfold minutes_later.
  replace m with (Z.of_nat (S (Nat.pred (Z.to_nat m)))) by lia.
  rewrite Nat2Z.id. generalize (Nat.pred (Z.to_nat m)). clear m Hm.
  induction n as [| n IH].
  - apply (next_minute_spec s Hn).
  - destruct IH as (N & L & S0 & M).
    destruct (next_minute_spec _ N) as (N' & L' & S' & M').
    change (Nat.iter (S (S n)) next_minute s)
      with (next_minute (Nat.iter (S n) next_minute s)).
    split; [exact N' |]. split; [exact (minute_ltb_trans _ _ _ L L') |].
    split; [rewrite S'; exact S0 |].
    rewrite M', M, Zplus_mod_idemp_l. f_equal. lia.
Qed.

(** Within the hour only the minute moves. *)
Lemma minutes_later_same_hour (y mon mday hour min sec k : Z) :
  0 <= min -> 0 <= k -> min + k <= 59 ->
  minutes_later k (mk_tm y mon mday hour min sec)
  = mk_tm y mon mday hour (min + k) sec.
Proof.
  intros Hmin Hk Hb. unfold minutes_later.
  replace k with (Z.of_nat (Z.to_nat k)) in Hb |- * by lia.
  rewrite Nat2Z.id. generalize dependent (Z.to_nat k). clear k Hk.
  induction n as [| n IH]; intros Hb.
  - simpl. rewrite Z.add_0_r. reflexivity.
  - change (Nat.iter (S n) next_minute (mk_tm y mon mday hour min sec))
      with (next_minute (Nat.iter n next_minute
                           (mk_tm y mon mday hour min sec))).
    rewrite IH by lia. unfold next_minute, mk_tm.
    cbn [tm_sec tm_min tm_hour tm_mday tm_mon tm_year].
    destruct (Z.ltb_spec (min + Z.of_nat n) 59); [| lia].
    f_equal. lia.
Qed.

(** A library that meets its contract hands back the calendar time
    [minutesToAdd] minutes after the start of [timeinfo]'s minute. *)
Lemma outputTime_with_later (mktime : tm -> tm) (t : tm) (m : Z) :
  normalized t = true -> 0 <= m -> tm_min t + m < 2 ^ 31 ->
  normalizes_minutes mktime (outputTime_before t m) ->
  outputTime_with mktime t m = minutes_later m (start_of_minute t).
Proof.
  intros Hn Hm Hb Hlib. apply normalized_spec in Hn.
  unfold outputTime_with. rewrite Hlib.
  unfold outputTime_before. cbv zeta.
  cbn [tm_sec tm_min tm_hour tm_mday tm_mon tm_year].
  rewrite i32_small by lia.
  rewrite minutes_later_add by lia.
  rewrite (minutes_later_same_hour _ _ _ _ 0 0 (tm_min t)) by lia.
  reflexivity.
Qed.


(** [Calendar.mktime] meets the library's contract on whatever the sketch
    hands it: a normalized time with up to an hour added. *)
Lemma calendar_normalizes_minutes (t : tm) (m : Z) :
  normalized t = true -> 0 <= m <= 60 ->
  normalizes_minutes Calendar.mktime (outputTime_before t m).
Proof.
  intros Hn Hm. unfold normalizes_minutes.
  change (Calendar.mktime (outputTime_before t m)) with (outputTime_of t m).
  pose proof Hn as Hn'. apply normalized_spec in Hn'.
  rewrite outputTime_of_carries
    by (try assumption; change (2 ^ 31) with 2147483648; lia).
  cbv zeta. unfold outputTime_before. cbv zeta.
  cbn [tm_sec tm_min tm_hour tm_mday tm_mon tm_year].
  rewrite i32_small by (change (2 ^ 31) with 2147483648; lia).
  destruct (Z_le_dec (tm_min t + m) 59) as [Hin | Hout].
  - rewrite (Z.div_small (tm_min t + m) 60),
            (Z.mod_small (tm_min t + m) 60) by lia.
    rewrite Z.add_0_r.
    rewrite (Z.div_small (tm_hour t) 24), (Z.mod_small (tm_hour t) 24) by lia.
    rewrite Z.add_0_r, roll_forward_in_month by lia.
    rewrite minutes_later_same_hour by lia. reflexivity.
  - remember (tm_min t + m - 60) as k eqn:Ek.
    assert (Esum : tm_min t + m = 59 + (1 + k)) by lia.
    rewrite Esum.
    assert (Eq : (59 + (1 + k)) / 60 = 1)
      by (symmetry; apply Z.div_unique with (r := k); lia).
    assert (Er : (59 + (1 + k)) mod 60 = k)
      by (symmetry; apply Z.mod_unique with (q := 1); lia).
    rewrite Eq, Er.
    rewrite !minutes_later_add by lia.
    rewrite minutes_later_same_hour by lia.
    change (minutes_later 1 ?x) with (next_minute x).
    unfold next_minute.
    cbn [tm_sec tm_min tm_hour tm_mday tm_mon tm_year mk_tm].
    change (0 + 59 <? 59) with false. cbv iota.
    destruct (Z.ltb_spec (tm_hour t) 23) as [Hh | Hh].
    + rewrite (Z.div_small (tm_hour t + 1) 24),
              (Z.mod_small (tm_hour t + 1) 24) by lia.
      rewrite Z.add_0_r, roll_forward_in_month by lia.
      rewrite (minutes_later_same_hour _ _ _ _ 0 _ k) by lia.
      reflexivity.
    + assert (tm_hour t = 23) as -> by lia.
      change ((23 + 1) / 24) with 1. change ((23 + 1) mod 24) with 0.
      destruct (Z.ltb_spec (tm_mday t)
                  (Calendar.days_in_month (tm_year t) (tm_mon t))) as [Hd | Hd].
      * rewrite roll_forward_in_month by lia.
        rewrite (minutes_later_same_hour _ _ _ _ 0 _ k) by lia.
        reflexivity.
      * replace (tm_mday t + 1)
          with (Calendar.days_in_month (tm_year t) (tm_mon t) + 1) by lia.
        rewrite roll_forward_next_month by lia.
        destruct (Z.ltb_spec (tm_mon t) 11), (Z.eqb_spec (tm_mon t) 11);
          try lia;
          rewrite (minutes_later_same_hour _ _ _ _ 0 _ k) by lia;
          reflexivity.
Qed.

(** ** C4: ordering of time-slot tokens *)




(** ** The sampling state machine *)

Arguments assembleTargetTime : simpl never.
Arguments u64 : simpl never.
Arguments u32 : simpl never.
Arguments i32 : simpl never.

Ltac unfold_step :=
  unfold loop, bind, gets, modify, ret, emit, emit_all, print, delay,
    handleWifiConnection, disconnectWifi, getTime, getLocalTime, query.

(** The 64-bit arithmetic of the sleeping state computes the remaining
    minutes and seconds exactly. *)
Lemma sleep_arithmetic (t : tm) :
  normalized t = true ->
  let minutesToWait :=
    u64 (sleepTimeMinutes - Z.rem (tm_min t) sleepTimeMinutes) in
  minutesToWait = remaining_minutes t
  /\ u32 minutesToWait = remaining_minutes t
  /\ u64 (u64 (minutesToWait * 60) - tm_sec t) = remaining_seconds t
  /\ 1 <= remaining_minutes t <= 10
  /\ 0 <= remaining_seconds t <= 600.
Proof.
  intros Hn. apply normalized_spec in Hn. cbv zeta.
  unfold remaining_minutes, remaining_seconds, sleepTimeMinutes.
  rewrite Z.rem_mod_nonneg by lia.
  pose proof (Z.mod_pos_bound (tm_min t) 10 ltac:(lia)) as B.
  unfold u64, u32.
  rewrite (Z.mod_small (10 - tm_min t mod 10)) by lia.
  rewrite (Z.mod_small (10 - tm_min t mod 10)) by lia.
  rewrite (Z.mod_small ((10 - tm_min t mod 10) * 60)) by lia.
  rewrite (Z.mod_small ((10 - tm_min t mod 10) * 60 - tm_sec t)) by lia.
  repeat split; lia.
Qed.

(** ** C5: the Sleeping state *)

(** C5.  One step from the sleeping state with a valid local time [t]: the
    target token is that of the next interval boundary; if fewer than 30
    seconds remain to it the next state is [AWAIT_TIME_SLOT] and nothing is
    requested or printed; if at least 30 remain the step disconnects WiFi,
    sets the just-woke flag, resets the retry counter, requests a timed
    light sleep of exactly the remaining seconds (in microseconds) and
    leaves the state at [REINIT_WIFI_CONNECTION]. *)
Theorem sleeping_step (env : Env) (w : World) (t : tm) :
  samplingState w = SLEEP_UNTIL_TIME_SLOT ->
  local_time env (tick w) = (true, t) ->
  valid_tm t = true ->
  let w' := snd (loop env w) in
  targetWakeTime w' = assembleTargetTime t (remaining_minutes t)
  /\ (remaining_seconds t < 30 ->
      samplingState w' = AWAIT_TIME_SLOT
      /\ trace w' = trace w
      /\ lightSlept w' = lightSlept w
      /\ wifiReinitAttempts w' = wifiReinitAttempts w)
  /\ (30 <= remaining_seconds t ->
      samplingState w' = REINIT_WIFI_CONNECTION
      /\ wifiReinitAttempts w' = 0
      /\ lightSlept w' = true
      /\ trace w'
         = trace w
           ++ [Serial (AwaitingCapture
                         (assembleTargetTime t (remaining_minutes t)));
               Serial (SleepingFor (remaining_seconds t));
               DisconnectWifi;
               Delay 1000;
               SleepEnableTimerWakeup (remaining_seconds t * 1000000);
               LightSleepStart]).
Proof.
  intros Hst Ht Hv. apply valid_tm_spec in Hv. destruct Hv as [Hn _].
  destruct (sleep_arithmetic t Hn) as (Em & Em32 & Es & Bm & Bs).
  cbv zeta in Em, Em32, Es.
  unfold_step. rewrite Hst. cbv beta iota. rewrite Ht. cbv beta iota.
  rewrite Em32, Es. simpl.
  destruct (Z.leb_spec 30 (remaining_seconds t)) as [Hge | Hlt]; simpl.
  - split; [reflexivity |]. split; [intros; lia |]. intros _.
    repeat split.
    rewrite <- !app_assoc. simpl.
    replace (u64 (remaining_seconds t * 1000000))
      with (remaining_seconds t * 1000000)
      by (unfold u64; rewrite Z.mod_small; lia).
    reflexivity.
  - split; [reflexivity |]. split; [| intros; lia]. intros _.
    repeat split.
Qed.

Lemma sleeping_step_witness :
  samplingState
    (snd (loop (constant_env true true (0, []) (true, mk_tm 126 10 2 14 3 20) 0)
               (world_in SLEEP_UNTIL_TIME_SLOT 7 [])))
  = REINIT_WIFI_CONNECTION
  /\ samplingState
       (snd (loop (constant_env true true (0, [])
                                (true, mk_tm 126 10 2 14 9 45) 0)
                  (world_in SLEEP_UNTIL_TIME_SLOT 7 [])))
     = AWAIT_TIME_SLOT.
Proof.
  split.
  - apply (sleeping_step
             (constant_env true true (0, []) (true, mk_tm 126 10 2 14 3 20) 0)
             (world_in SLEEP_UNTIL_TIME_SLOT 7 [])
             (mk_tm 126 10 2 14 3 20) eq_refl eq_refl eq_refl).
    vm_compute. discriminate.
  - apply (sleeping_step
             (constant_env true true (0, []) (true, mk_tm 126 10 2 14 9 45) 0)
             (world_in SLEEP_UNTIL_TIME_SLOT 7 [])
             (mk_tm 126 10 2 14 9 45) eq_refl eq_refl eq_refl).
    vm_compute. reflexivity.
Defined.

(** ** C6: the ReinitializingConnection state *)

(** C6.  One step from [REINIT_WIFI_CONNECTION] with WiFi not connected:
    while the retry counter is below 40 the state stays and the counter
    grows by one; with the counter at 40 (or above) the next state is
    [AWAIT_TIME_SLOT] if the epoch time read in this step is at least
    21 days, and [SLEEP_UNTIL_TIME_SLOT] if it is below; the counter is then
    left as it was. *)
Theorem reinit_step_offline (env : Env) (w : World) :
  samplingState w = REINIT_WIFI_CONNECTION ->
  wifi_up env (tick w) = false ->
  is_i32 (wifiReinitAttempts w) ->
  let w' := snd (loop env w) in
  (wifiReinitAttempts w < 40 ->
   samplingState w' = REINIT_WIFI_CONNECTION
   /\ wifiReinitAttempts w' = wifiReinitAttempts w + 1)
  /\ (40 <= wifiReinitAttempts w ->
      wifiReinitAttempts w' = wifiReinitAttempts w
      /\ (24 * 60 * 60 * 21 <= epoch_time env (S (tick w)) ->
          samplingState w' = AWAIT_TIME_SLOT)
      /\ (epoch_time env (S (tick w)) < 24 * 60 * 60 * 21 ->
          samplingState w' = SLEEP_UNTIL_TIME_SLOT)).
Proof.
  intros Hst Hwifi Hrange. unfold is_i32 in Hrange.
  unfold_step. rewrite Hst. cbv beta iota. rewrite Hwifi. cbv beta iota.
  cbn [wifiReinitAttempts set_tick].
  destruct (Z.ltb_spec (wifiReinitAttempts w) 40) as [Hlt | Hge].
  - split; [| intros; lia]. intros _. simpl.
    rewrite i32_small by lia. split; [exact Hst | reflexivity].
  - split; [intros; lia |]. intros _.
    cbn [tick set_tick].
    destruct (Z.leb_spec (24 * 60 * 60 * 21) (epoch_time env (S (tick w))))
      as [Hsync | Hnot]; simpl.
    + repeat split. intros. lia.
    + repeat split. intros. lia.
Qed.

Lemma reinit_step_offline_witness :
  samplingState
    (snd (loop (constant_env false true (0, []) (false, mk_tm 0 0 0 0 0 0) 5)
               (world_in REINIT_WIFI_CONNECTION 40 [])))
  = SLEEP_UNTIL_TIME_SLOT
  /\ samplingState
       (snd (loop (constant_env false true (0, []) (false, mk_tm 0 0 0 0 0 0)
                                1800000000)
                  (world_in REINIT_WIFI_CONNECTION 40 [])))
     = AWAIT_TIME_SLOT
  /\ wifiReinitAttempts
       (snd (loop (constant_env false true (0, []) (false, mk_tm 0 0 0 0 0 0) 5)
                  (world_in REINIT_WIFI_CONNECTION 39 [])))
     = 40.
Proof.
  split; [| split].
  - apply (reinit_step_offline
             (constant_env false true (0, []) (false, mk_tm 0 0 0 0 0 0) 5)
             (world_in REINIT_WIFI_CONNECTION 40 [])
             eq_refl eq_refl ltac:(unfold is_i32; simpl; lia)).
    + simpl. lia.
    + simpl. lia.
  - apply (reinit_step_offline
             (constant_env false true (0, []) (false, mk_tm 0 0 0 0 0 0)
                           1800000000)
             (world_in REINIT_WIFI_CONNECTION 40 [])
             eq_refl eq_refl ltac:(unfold is_i32; simpl; lia)).
    + simpl. lia.
    + simpl. lia.
  - apply (reinit_step_offline
             (constant_env false true (0, []) (false, mk_tm 0 0 0 0 0 0) 5)
             (world_in REINIT_WIFI_CONNECTION 39 [])
             eq_refl eq_refl ltac:(unfold is_i32; simpl; lia)).
    simpl. lia.
Defined.

(** ** Capture *)

Lemma capture_returns (env : Env) (w : World) :
  fst (capture env w)
  = is_decoded (capture_outcome (radio_receive env (tick w))).
Proof.
  unfold capture, capture_outcome, bind, radio_receive_27, query.
  destruct (radio_receive env (tick w)) as [state recvData].
  destruct (state =? RADIOLIB_ERR_NONE).
  - destruct (at_ recvData 0 =? 212); [| reflexivity].
    change (u8 (27 - 1)) with 26.
    destruct (decodeBresser5In1Payload (tl recvData) 26 WeatherData_zero)
      as [[status weatherData] lines].
    destruct status; cbn [fst]; try reflexivity.
    unfold emit_all, pressureSensorAvailable, readPressureSensorHpa, getLocalTime,
      appendWeatherDataEntry, emit, modify, query, bind, ret.
    cbn [tick set_trace set_tick].
    destruct (pressure_available env (S (tick w))); reflexivity.
  - destruct (state =? RADIOLIB_ERR_RX_TIMEOUT); reflexivity.
Qed.

Lemma capture_keeps_state (env : Env) (w : World) :
  samplingState (snd (capture env w)) = samplingState w.
Proof.
  unfold capture, bind, radio_receive_27, query.
  destruct (radio_receive env (tick w)) as [state recvData].
  destruct (state =? RADIOLIB_ERR_NONE).
  - destruct (at_ recvData 0 =? 212); [| reflexivity].
    destruct (decodeBresser5In1Payload (tl recvData) (u8 (27 - 1))
                WeatherData_zero) as [[status weatherData] lines].
    destruct status; try reflexivity.
    unfold emit_all, pressureSensorAvailable, readPressureSensorHpa, getLocalTime,
      appendWeatherDataEntry, emit, modify, query, bind, ret.
    cbn [tick set_trace set_tick].
    destruct (pressure_available env (S (tick w))); reflexivity.
  - destruct (state =? RADIOLIB_ERR_RX_TIMEOUT); reflexivity.
Qed.

(** One step in the capturing state moves on exactly when the frame
    decoded. *)
Lemma capturing_step (env : Env) (w : World) :
  samplingState w = CAPTURE_WEATHER_DATA ->
  samplingState (snd (loop env w))
  = if is_decoded (capture_outcome (radio_receive env (tick w)))
    then SEND_WEATHER_DATA else CAPTURE_WEATHER_DATA.
Proof.
  intros Hst. unfold loop, bind, gets. rewrite Hst. cbv beta iota.
  pose proof (capture_returns env w) as Hr.
  pose proof (capture_keeps_state env w) as Hk.
  destruct (capture env w) as [captured w1]. cbn [fst snd] in Hr, Hk.
  rewrite <- Hr. destruct captured.
  - reflexivity.
  - cbn. rewrite Hk. exact Hst.
Qed.

Lemma run_succ (env : Env) (n : nat) :
  forall w, run env (S n) w = snd (loop env (run env n w)).
Proof.
  induction n as [| n IH]; intros w; [reflexivity |].
  change (run env (S (S n)) w) with (run env (S n) (snd (loop env w))).
  rewrite IH. reflexivity.
Qed.

(** ** C7: Capturing waits for a decoded frame *)

(** C7.  From the capturing state, as long as every capture attempt ends
    without a decoded frame (parity error, checksum error, radio timeout,
    radio error or a wrong sync byte) the state stays [CAPTURE_WEATHER_DATA],
    for any number of steps; and the step in which the decoder first returns
    [DECODE_OK] leads to [SEND_WEATHER_DATA]. *)
Theorem capturing_until_decoded (env : Env) (n : nat) (w : World) :
  samplingState w = CAPTURE_WEATHER_DATA ->
  (forall k, (k < n)%nat ->
     is_decoded (capture_outcome
                   (radio_receive env (tick (run env k w)))) = false) ->
  (forall k, (k <= n)%nat ->
     samplingState (run env k w) = CAPTURE_WEATHER_DATA)
  /\ (is_decoded (capture_outcome
                    (radio_receive env (tick (run env n w)))) = true ->
      samplingState (run env (S n) w) = SEND_WEATHER_DATA).
Proof.
  intros Hst Hfail.
  assert (Hstay : forall k, (k <= n)%nat ->
                    samplingState (run env k w) = CAPTURE_WEATHER_DATA).
  { induction k as [| k IH]; intros Hk; [exact Hst |].
    rewrite run_succ, capturing_step by (apply IH; lia).
    rewrite Hfail by lia. reflexivity. }
  split; [exact Hstay |].
  intros Hok. rewrite run_succ, capturing_step by (apply Hstay; lia).
  rewrite Hok. reflexivity.
Qed.

Lemma capturing_until_decoded_witness :
  samplingState
    (run scripted_radio_env 3 (world_in CAPTURE_WEATHER_DATA 0 []))
  = CAPTURE_WEATHER_DATA
  /\ samplingState
       (run scripted_radio_env 4 (world_in CAPTURE_WEATHER_DATA 0 []))
     = SEND_WEATHER_DATA.
Proof.
  assert (Hfail : forall k, (k < 3)%nat ->
            is_decoded
              (capture_outcome
                 (radio_receive scripted_radio_env
                    (tick (run scripted_radio_env k
                             (world_in CAPTURE_WEATHER_DATA 0 []))))) = false).
  { intros k Hk. destruct k as [| [| [| k]]]; [vm_compute; reflexivity .. | lia]. }
  destruct (capturing_until_decoded scripted_radio_env 3
              (world_in CAPTURE_WEATHER_DATA 0 []) eq_refl Hfail)
    as [Hstay Hgo].
  split.
  - apply Hstay. lia.
  - apply Hgo. vm_compute. reflexivity.
Defined.

(** ** C10: the sync byte gates the decoder *)

(** C10.  When the radio hands over a frame without error and its byte 0 is
    not 0xD4, [capture] returns false having done nothing but the receive:
    nothing is printed, so the decoder has not run on the payload, and the
    history buffer is as before, whatever the other 26 bytes are. *)
Theorem capture_sync_gate (env : Env) (w : World) (recvData : list Z) :
  radio_receive env (tick w) = (RADIOLIB_ERR_NONE, recvData) ->
  at_ recvData 0 <> 0xD4 ->
  capture env w = (false, set_tick (S (tick w)) w)
  /\ buffer (snd (capture env w)) = buffer w
  /\ trace (snd (capture env w)) = trace w
  /\ capture_outcome (radio_receive env (tick w)) = SyncMismatch.
Proof.
  intros Hrx Hsync.
  assert (E : capture env w = (false, set_tick (S (tick w)) w)).
  { unfold capture, bind, radio_receive_27, query. rewrite Hrx.
    cbv beta iota. change (RADIOLIB_ERR_NONE =? RADIOLIB_ERR_NONE) with true.
    cbv iota.
    destruct (Z.eqb_spec (at_ recvData 0) 212) as [E | _]; [contradiction |].
    reflexivity. }
  rewrite E. repeat split.
  unfold capture_outcome. rewrite Hrx.
  change (RADIOLIB_ERR_NONE =? RADIOLIB_ERR_NONE) with true. cbv iota.
  destruct (Z.eqb_spec (at_ recvData 0) 212) as [E' | _]; [contradiction |].
  reflexivity.
Qed.

(** The example payload behind a wrong sync byte is dropped, although it
    would decode. *)
Lemma capture_sync_gate_witness :
  capture (constant_env true true (RADIOLIB_ERR_NONE, 0x2D :: example_frame)
                        (true, mk_tm 126 10 2 14 3 20) 0)
          (world_in CAPTURE_WEATHER_DATA 0 [])
  = (false, set_tick 1 (world_in CAPTURE_WEATHER_DATA 0 [])).
Proof.
  apply (capture_sync_gate
           (constant_env true true (RADIOLIB_ERR_NONE, 0x2D :: example_frame)
                         (true, mk_tm 126 10 2 14 3 20) 0)
           (world_in CAPTURE_WEATHER_DATA 0 [])
           (0x2D :: example_frame) eq_refl).
  vm_compute. discriminate.
Defined.

(** ** Sending *)

Lemma uploads_app (a b : list Event) :
  uploads (a ++ b) = uploads a ++ uploads b.
Proof.
  induction a as [| e a IH]; [reflexivity |].
  destruct e; simpl; rewrite IH; reflexivity.
Qed.

Lemma bind_run {A B} (c : M A) (k : A -> M B) (w : World) :
  bind c k w = k (fst (c w)) (snd (c w)).
Proof. unfold bind. destruct (c w). reflexivity. Qed.

Lemma quiet_ret {A} (a : A) : quiet (ret a).
Proof. intros w. split; reflexivity. Qed.

Lemma quiet_bind {A B} (c : M A) (k : A -> M B) :
  quiet c -> (forall a, quiet (k a)) -> quiet (bind c k).
Proof.
  intros Hc Hk w. rewrite bind_run.
  destruct (Hc w) as [Hb Hu]. destruct (Hk (fst (c w)) (snd (c w))) as [Hb' Hu'].
  split; congruence.
Qed.

Lemma quiet_emit (e : Event) : uploads [e] = [] -> quiet (emit e).
Proof.
  intros He w. unfold emit. simpl. split; [reflexivity |].
  rewrite uploads_app, He, app_nil_r. reflexivity.
Qed.

Lemma quiet_query {A} (oracle : nat -> A) : quiet (query oracle).
Proof. intros w. split; reflexivity. Qed.

Lemma quiet_gets {A} (f : World -> A) : quiet (gets f).
Proof. intros w. split; reflexivity. Qed.

Lemma quiet_set_samplingState (st : SamplingState) :
  quiet (modify (set_samplingState st)).
Proof. intros w. split; reflexivity. Qed.

Lemma quiet_print (s : string) : quiet (print s).
Proof. apply quiet_emit. reflexivity. Qed.

Lemma quiet_delay (ms : Z) : quiet (delay ms).
Proof. apply quiet_emit. reflexivity. Qed.

Create HintDb quiet.
#[local] Hint Resolve quiet_ret quiet_query quiet_gets quiet_print quiet_delay
  quiet_set_samplingState : quiet.

(** Solves [quiet] goals on straight-line code by following its binds and
    branches. *)
Ltac quiet_step :=
  repeat first
    [ solve [auto with quiet]
    | apply quiet_bind; [| intros ?]
    | apply quiet_emit; reflexivity
    | match goal with |- quiet (if ?b then _ else _) => destruct b end
    | match goal with |- quiet (match ?n with O => _ | S _ => _ end) =>
        destruct n
      end ].

Lemma quiet_wifi_wait_inner (env : Env) (n : nat) :
  quiet (wifi_wait_inner env n).
Proof.
  induction n as [| n IH]; simpl; [apply quiet_ret |].
  unfold handleWifiConnection. quiet_step.
Qed.

Lemma quiet_wifi_wait_outer (env : Env) (n : nat) :
  quiet (wifi_wait_outer env n).
Proof.
  induction n as [| n IH]; simpl; [apply quiet_ret |].
  pose proof (quiet_wifi_wait_inner env 20).
  unfold handleWifiConnection. quiet_step.
Qed.

Lemma quiet_token_wait (env : Env) (n : nat) : quiet (token_wait env n).
Proof.
  induction n as [| n IH]; simpl;
    unfold checkGoogleAccessTokenReady; quiet_step.
Qed.

Lemma quiet_drains {A} (bound : nat) (c : M A) : quiet c -> drains bound c.
Proof.
  intros Hc w. destruct (Hc w) as [Hb Hu].
  exists 0%nat, []. rewrite app_nil_r. repeat split; auto. simpl. lia.
Qed.

Lemma drains_after_quiet {A B} (bound : nat) (c : M A) (k : A -> M B) :
  quiet c -> (forall a, drains bound (k a)) -> drains bound (bind c k).
Proof.
  intros Hc Hk w. rewrite bind_run.
  destruct (Hc w) as [Hb Hu].
  destruct (Hk (fst (c w)) (snd (c w))) as (n & ups & H).
  rewrite Hb, Hu in H. exists n, ups. exact H.
Qed.

Lemma drains_then_quiet {A B} (bound : nat) (c : M A) (k : A -> M B) :
  drains bound c -> (forall a, quiet (k a)) -> drains bound (bind c k).
Proof.
  intros Hc Hk w. rewrite bind_run.
  destruct (Hc w) as (n & ups & H).
  destruct (Hk (fst (c w)) (snd (c w))) as [Hb Hu].
  rewrite Hb, Hu. exists n, ups. exact H.
Qed.

(** One buffered entry: the oldest row goes to the sheet and leaves the
    buffer if the sheet accepts it. *)
Lemma emitBufferedDataEntry_run (env : Env) (w : World)
    (e : WeatherDataEntry) (rest : list WeatherDataEntry) :
  buffer w = e :: rest ->
  let ok := sheet_accepts env (tick w) in
  fst (emitBufferedDataEntry env w) = ok
  /\ buffer (snd (emitBufferedDataEntry env w))
     = (if ok then rest else e :: rest)
  /\ trace (snd (emitBufferedDataEntry env w)) = trace w ++ [AppendRow e ok].
Proof.
  intros Ebuf ok.
  unfold emitBufferedDataEntry, peekNextWeatherDataEntry, gets.
  rewrite bind_run. cbn [fst snd]. rewrite Ebuf. cbn [hd_error].
  unfold appendRowToSheet, confirmPeekWeatherDataEntry, modify, emit, query,
    ret, bind.
  cbn [fst snd tick set_tick set_trace trace]. fold ok.
  destruct ok; cbn; rewrite ?Ebuf; repeat split.
Qed.

(** The upload loop, [n] iterations left. *)
Lemma drains_upload_loop (env : Env) (n : nat) :
  forall sent, drains n (upload_loop env n sent).
Proof.
  induction n as [| n IH]; intros sent w.
  - exists 0%nat, []. simpl. rewrite app_nil_r. repeat split; auto.
  - simpl upload_loop. rewrite bind_run.
    unfold getTotalWeatherDataEntries, gets. cbn [fst snd].
    destruct (buffer w) as [| e rest] eqn:Ebuf.
    + simpl. exists 0%nat, []. rewrite app_nil_r, Ebuf.
      repeat split; auto. simpl. lia.
    + change (0 <? Z.of_nat (List.length (e :: rest))) with true. cbv iota.
      destruct (emitBufferedDataEntry_run env w e rest Ebuf) as (Hs & Hb1 & Ht1).
      cbv zeta in Hs, Hb1, Ht1.
      rewrite !bind_run.
      set (w1 := snd (emitBufferedDataEntry env w)) in *.
      set (w2 := snd (delay 250 w1)).
      assert (Hb2 : buffer w2 = buffer w1) by reflexivity.
      assert (Ht2 : uploads (trace w2)
                    = uploads (trace w)
                      ++ [(e, sheet_accepts env (tick w))]).
      { unfold w2, delay, emit. cbn [snd trace set_trace].
        rewrite uploads_app, Ht1, uploads_app. simpl.
        rewrite app_nil_r. reflexivity. }
      destruct (IH (sent || fst (emitBufferedDataEntry env w))%bool w2)
        as (k & ups & Hb & Hu & Hl & Ha & Hin).
      rewrite Hb2, Hb1 in Hb, Ha, Hin. rewrite Ht2 in Hu.
      destruct (sheet_accepts env (tick w)).
      * exists (S k), ((e, true) :: ups). repeat split.
        -- exact Hb.
        -- rewrite Hu, <- app_assoc. reflexivity.
        -- simpl. lia.
        -- unfold accepted_rows in *. simpl. rewrite Ha. reflexivity.
        -- constructor; [left; reflexivity |].
           eapply Forall_impl; [| exact Hin]. intros u Hu'. right. exact Hu'.
      * exists k, ((e, false) :: ups). repeat split.
        -- exact Hb.
        -- rewrite Hu, <- app_assoc. reflexivity.
        -- simpl. lia.
        -- unfold accepted_rows in *. simpl. exact Ha.
        -- constructor; [left; reflexivity | exact Hin].
Qed.

Ltac drains_prefix :=
  repeat (apply drains_after_quiet; [solve [quiet_step] | intros ?]).

Lemma drains_send (env : Env) : drains 20 (send env).
Proof.
  unfold send.
  pose proof (quiet_wifi_wait_outer env 6).
  pose proof (quiet_token_wait env 60).
  unfold handleWifiConnection, isGoogleAccessTokenInit,
    checkGoogleAccessTokenReady, setupGoogleAccessTokenAcquire.
  drains_prefix.
  match goal with |- drains _ (if ?b then _ else _) => destruct b end.
  - apply quiet_drains. quiet_step.
  - drains_prefix.
    match goal with |- drains _ (if ?b then _ else _) => destruct b end.
    + unfold getTotalWeatherDataEntries. drains_prefix.
      apply drains_upload_loop.
    + apply quiet_drains. quiet_step.
Qed.

(** ** The upload loop runs to its end *)






(** ** C8: the Sending state *)


(** ** The retry counter stays within its cap *)

Lemma keeps_ret {A} (a : A) : keeps_attempts (ret a).
Proof. intros w. reflexivity. Qed.

Lemma keeps_bind {A B} (c : M A) (k : A -> M B) :
  keeps_attempts c -> (forall a, keeps_attempts (k a)) ->
  keeps_attempts (bind c k).
Proof.
  intros Hc Hk w. rewrite bind_run, Hk, Hc. reflexivity.
Qed.

Lemma keeps_emit (e : Event) : keeps_attempts (emit e).
Proof. intros w. reflexivity. Qed.

Lemma keeps_emit_all (es : list Event) : keeps_attempts (emit_all es).
Proof. intros w. reflexivity. Qed.

Lemma keeps_query {A} (oracle : nat -> A) : keeps_attempts (query oracle).
Proof. intros w. reflexivity. Qed.

Lemma keeps_gets {A} (f : World -> A) : keeps_attempts (gets f).
Proof. intros w. reflexivity. Qed.

Lemma keeps_modify (f : World -> World) :
  (forall w, wifiReinitAttempts (f w) = wifiReinitAttempts w) ->
  keeps_attempts (modify f).
Proof. intros Hf w. apply Hf. Qed.

Create HintDb keeps.
#[local] Hint Resolve keeps_ret keeps_emit keeps_emit_all keeps_query
  keeps_gets : keeps.

(** Follows binds, branches and pattern-matching lets down to the
    primitives. *)
Ltac keeps_step :=
  repeat first
    [ solve [auto with keeps]
    | apply keeps_bind; [| intros ?]
    | apply keeps_modify; intros ?; reflexivity
    | match goal with
      | |- keeps_attempts (if ?b then _ else _) => destruct b
      | |- keeps_attempts (match ?n with O => _ | S _ => _ end) => destruct n
      | |- keeps_attempts (match ?o with Some _ => _ | None => _ end) =>
          destruct o
      | |- keeps_attempts (let '(_, _) := ?p in _) => destruct p
      | |- keeps_attempts (match ?s with DECODE_OK => _ | _ => _ end) =>
          destruct s
      end ].

Lemma keeps_wifi_wait_inner (env : Env) (n : nat) :
  keeps_attempts (wifi_wait_inner env n).
Proof.
  induction n as [| n IH]; simpl; [apply keeps_ret |].
  unfold handleWifiConnection, delay, print. keeps_step.
Qed.

Lemma keeps_wifi_wait_outer (env : Env) (n : nat) :
  keeps_attempts (wifi_wait_outer env n).
Proof.
  induction n as [| n IH]; simpl; [apply keeps_ret |].
  pose proof (keeps_wifi_wait_inner env 20).
  unfold handleWifiConnection, delay, print. keeps_step.
Qed.

Lemma keeps_token_wait (env : Env) (n : nat) :
  keeps_attempts (token_wait env n).
Proof.
  induction n as [| n IH]; simpl;
    unfold checkGoogleAccessTokenReady, delay, print; keeps_step.
Qed.

Lemma keeps_time_sync_wait (n : nat) : keeps_attempts (time_sync_wait n).
Proof.
  induction n as [| n IH]; simpl; unfold delay, print; keeps_step.
Qed.

Lemma keeps_upload_loop (env : Env) (n : nat) :
  forall sent, keeps_attempts (upload_loop env n sent).
Proof.
  induction n as [| n IH]; intros sent; simpl; [apply keeps_ret |].
  unfold getTotalWeatherDataEntries, emitBufferedDataEntry,
    peekNextWeatherDataEntry, appendRowToSheet, confirmPeekWeatherDataEntry,
    delay.
  keeps_step.
Qed.

Lemma keeps_send (env : Env) : keeps_attempts (send env).
Proof.
  unfold send.
  pose proof (keeps_wifi_wait_outer env 6).
  pose proof (keeps_token_wait env 60).
  pose proof (keeps_upload_loop env 20 false).
  unfold handleWifiConnection, isGoogleAccessTokenInit,
    checkGoogleAccessTokenReady, setupGoogleAccessTokenAcquire,
    getTotalWeatherDataEntries, delay, print.
  keeps_step.
Qed.

Lemma keeps_capture (env : Env) : keeps_attempts (capture env).
Proof.
  unfold capture, radio_receive_27.
  apply keeps_bind; [apply keeps_query | intros [state recvData]].
  destruct (decodeBresser5In1Payload (tl recvData) (u8 (27 - 1))
              WeatherData_zero) as [[status weatherData] lines].
  unfold pressureSensorAvailable, readPressureSensorHpa, getLocalTime,
    appendWeatherDataEntry.
  keeps_step.
Qed.

Lemma keeps_bounded {A} (c : M A) (w : World) :
  keeps_attempts c ->
  0 <= wifiReinitAttempts w <= 40 ->
  0 <= wifiReinitAttempts (snd (c w)) <= 40.
Proof. intros Hc Hb. rewrite Hc. exact Hb. Qed.

(** Every step keeps the retry counter between 0 and its cap of 40. *)
Lemma loop_attempts_bounded (env : Env) (w : World) :
  0 <= wifiReinitAttempts w <= 40 ->
  0 <= wifiReinitAttempts (snd (loop env w)) <= 40.
Proof.
  intros Hb. unfold loop. rewrite bind_run.
  change (gets samplingState w) with (samplingState w, w). cbn [fst snd].
  pose proof (keeps_send env). pose proof (keeps_capture env).
  pose proof (keeps_time_sync_wait 10).
  destruct (samplingState w).
  - apply keeps_bounded; [| exact Hb].
    unfold handleWifiConnection, print. keeps_step.
  - unfold handleWifiConnection. rewrite bind_run.
    cbn [query fst snd].
    destruct (wifi_up env (tick w)).
    + apply keeps_bounded; [| exact Hb].
      unfold print. keeps_step.
    + rewrite bind_run. cbn [gets fst snd wifiReinitAttempts set_tick].
      destruct (Z.ltb_spec (wifiReinitAttempts w) 40).
      * unfold delay, print, emit, modify, bind. cbn.
        rewrite i32_small by lia. lia.
      * apply keeps_bounded; [| exact Hb].
        unfold getTime, print. keeps_step.
  - apply keeps_bounded; [| exact Hb].
    unfold getLocalTime, print, delay. keeps_step.
  - apply keeps_bounded; [| exact Hb].
    unfold print. keeps_step.
  - apply keeps_bounded; [| exact Hb].
    unfold print. keeps_step.
  - unfold getLocalTime. rewrite bind_run. cbn [query fst snd].
    destruct (local_time env (tick w)) as [valid timeinfo].
    destruct valid; [| exact Hb].
    rewrite bind_run. cbn [modify fst snd].
    match goal with |- context [if ?b then _ else _] => destruct b end.
    + unfold disconnectWifi, delay, emit, modify, gets, bind. cbn. lia.
    + cbn. exact Hb.
Qed.

(** From the counter's initial value 0 on, every reachable retry counter is
    between 0 and 40, so a counter that is not below 40 is at 40. *)
Lemma run_attempts_bounded (env : Env) (n : nat) :
  forall w,
    0 <= wifiReinitAttempts w <= 40 ->
    0 <= wifiReinitAttempts (run env n w) <= 40.
Proof.
  induction n as [| n IH]; intros w Hb; [exact Hb |].
  simpl. apply IH, loop_attempts_bounded, Hb.
Qed.


(** A sheet that refuses every row is tried 20 times with the oldest entry
    and the buffer keeps both entries. *)
Example send_all_refused :
  let w' := snd (loop (constant_env true false (0, [])
                                    (true, mk_tm 126 10 2 14 3 20) 0)
                      (world_in SEND_WEATHER_DATA 0 two_entries)) in
  buffer w' = two_entries
  /\ List.length (uploads (trace w')) = 20%nat
  /\ accepted_rows (uploads (trace w')) = []
  /\ samplingState w' = SLEEP_UNTIL_TIME_SLOT.
Proof. vm_compute. repeat split. Qed.

(** A sheet that accepts every row empties the buffer in two uploads. *)
Example send_all_accepted :
  let w' := snd (loop (constant_env true true (0, [])
                                    (true, mk_tm 126 10 2 14 3 20) 0)
                      (world_in SEND_WEATHER_DATA 0 two_entries)) in
  buffer w' = []
  /\ accepted_rows (uploads (trace w')) = two_entries
  /\ samplingState w' = SLEEP_UNTIL_TIME_SLOT.
Proof. vm_compute. repeat split. Qed.

(** Without WiFi nothing is uploaded and the step still ends in the sleeping
    state. *)
Example send_offline :
  let w' := snd (loop (constant_env false true (0, [])
                                    (true, mk_tm 126 10 2 14 3 20) 0)
                      (world_in SEND_WEATHER_DATA 0 two_entries)) in
  buffer w' = two_entries
  /\ uploads (trace w') = []
  /\ samplingState w' = SLEEP_UNTIL_TIME_SLOT.
Proof. vm_compute. repeat split. Qed.

(** ** Remarks on the binary32 fields *)

Lemma same_float_eq (a b : Float32.float) : same_float a b = true -> a = b.
Proof.
  destruct a, b; simpl; intros H; try discriminate; try reflexivity.
  - apply Bool.eqb_prop in H. subst. reflexivity.
  - apply Bool.eqb_prop in H. subst. reflexivity.
  - apply andb_prop in H. destruct H as [H He].
    apply andb_prop in H. destruct H as [Hs Hm].
    apply Bool.eqb_prop in Hs. apply Pos.eqb_eq in Hm. apply Z.eqb_eq in He.
    subst. reflexivity.
Qed.

(** The header comment's readings: 312 tenths are 31.2f and 374 tenths are
    37.4f, the binary32 values nearest to 31.2 and 37.4. *)
Example tenths_312 : Float32.tenths 312 = S754_finite false 16357786 (-19).
Proof. reflexivity. Qed.

Example tenths_374 : Float32.tenths 374 = S754_finite false 9804186 (-18).
Proof. reflexivity. Qed.

(** For every non-zero BCD reading, scaling the negated integer is the same
    as negating the scaled value; at zero the decoder yields +0. *)
Lemma tenths_opp (raw : Z) :
  1 <= raw <= 1665 ->
  Float32.tenths (- raw) = SFopp (Float32.tenths raw).
Proof.
  intros H. apply same_float_eq.
  assert (A : forallb (fun n => same_float
                                  (Float32.tenths (- Z.of_nat n))
                                  (SFopp (Float32.tenths (Z.of_nat n))))
                      (seq 1 1665) = true) by (vm_compute; reflexivity).
  rewrite forallb_forall in A. specialize (A (Z.to_nat raw)).
  rewrite Z2Nat.id in A by lia. apply A, in_seq. lia.
Qed.

Example tenths_zero : Float32.tenths (- 0) = S754_zero false.
Proof. reflexivity. Qed.


(** * Further properties of the sketch *)

(** ** Which payloads the decoder accepts *)

Lemma parity_holds_iff (msg : list Z) :
  parity_holds msg = true
  <-> forall j, 0 <= j < 13 -> inverted_at msg j = true.
Proof.
  split; [apply parity_holds_spec |].
  intros H. unfold parity_holds. apply forallb_forall. intros n Hn.
  apply in_seq in Hn. apply H. lia.
Qed.

Lemma parity_fails_somewhere (msg : list Z) :
  parity_holds msg = false ->
  exists k, 0 <= k <= 12 /\ inverted_at msg k = false
            /\ forall j, 0 <= j < k -> inverted_at msg j = true.
Proof.
  intros Hf.
  destruct (scan_offsets msg 13) as [Hall | (k & Hk & Hbad & Hgood)].
  - apply parity_holds_iff in Hall. congruence.
  - exists k. repeat split; try lia; assumption.
Qed.

(** The status is decided by parity first and the checksum second. *)
Lemma decode_status (msg : list Z) (pOut : WeatherData) :
  is_payload msg = true ->
  fst (fst (decodeBresser5In1Payload msg 26 pOut))
  = if parity_holds msg
    then if checksum_holds msg then DECODE_OK else DECODE_CHK_ERR
    else DECODE_PAR_ERR.
Proof.
  intros Hp. destruct (parity_holds msg) eqn:Hpar.
  - rewrite decode_parity_passed by assumption.
    destruct (checksum_holds msg); reflexivity.
  - destruct (parity_fails_somewhere msg Hpar) as (k & Hk & Hbad & Hgood).
    unfold decodeBresser5In1Payload. change (Z.to_nat (26 / 2)) with 13%nat.
    rewrite (parity_loop_first msg 13 0 k) by (try assumption; simpl; lia).
    reflexivity.
Qed.

Lemma lxor_255_complement (a b : Z) :
  Z.lxor a b = 255 <-> a = Z.lxor 255 b.
Proof.
  split; intros H.
  - rewrite <- H, Z.lxor_assoc, Z.lxor_nilpotent, Z.lxor_0_r. reflexivity.
  - rewrite H, Z.lxor_assoc, Z.lxor_nilpotent, Z.lxor_0_r. reflexivity.
Qed.

Lemma lxor_255_u8 (b : Z) : is_u8 b -> is_u8 (Z.lxor 255 b).
Proof.
  intros Hb.
  assert (H : ((0 <=? Z.lxor 255 b) && (Z.lxor 255 b <? 256))%bool = true).
  { apply (forall_u8 (fun b => (0 <=? Z.lxor 255 b) && (Z.lxor 255 b <? 256))%bool);
      [vm_compute; reflexivity | exact Hb]. }
  unfold is_u8. lia.
Qed.

Lemma lxor_complement_twice (b : Z) : Z.lxor (Z.lxor 255 b) b = 255.
Proof. apply lxor_255_complement. reflexivity. Qed.

#[local] Arguments popcount : simpl never.
#[local] Arguments Z.lxor : simpl never.

(** X1.  A 26-byte payload is accepted ([DECODE_OK]) exactly when it is the
    frame of its own last 12 bytes: byte 13 counts their set bits and bytes
    0..12 are the complements of bytes 13..25. *)
Theorem decode_accepts_iff (msg : list Z) (pOut : WeatherData) :
  is_payload msg = true ->
  fst (fst (decodeBresser5In1Payload msg 26 pOut)) = DECODE_OK
  <-> msg = frame_of (skipn 14 msg).
Proof.
  intros Hp. rewrite decode_status by assumption.
  destruct (is_payload_spec msg Hp) as [Hlen _]. clear Hp.
  do 26 (destruct msg as [| ? msg]; [discriminate Hlen |]).
  destruct msg; [| discriminate Hlen]. clear Hlen.
  unfold parity_holds, checksum_holds, frame_of, inverted_at, popcount_range,
    at_.
  simpl.
  split.
  - intros H.
    match type of H with (if ?b then _ else _) = _ =>
      destruct b eqn:E; [| discriminate] end.
    match type of H with (if ?b then _ else _) = _ =>
      destruct b eqn:C; [| discriminate] end.
    clear H. apply Z.eqb_eq in C.
    repeat (apply andb_prop in E; destruct E as [?E E]).
    repeat match goal with
           | H : (Z.lxor _ _ =? 255) = true |- _ =>
               apply Z.eqb_eq, lxor_255_complement in H
           end.
    subst. reflexivity.
  - intros H. injection H. intros. subst.
    rewrite !lxor_complement_twice. simpl.
    rewrite Z.eqb_refl. reflexivity.
Qed.

Lemma decode_accepts_iff_witness :
  fst (fst (decodeBresser5In1Payload example_frame 26 WeatherData_zero))
  = DECODE_OK.
Proof.
  apply (proj2 (decode_accepts_iff example_frame WeatherData_zero eq_refl)).
  vm_compute. reflexivity.
Defined.

Lemma is_payload_intro (msg : list Z) :
  List.length msg = 26%nat -> Forall is_u8 msg -> is_payload msg = true.
Proof.
  intros Hl Hb. unfold is_payload. rewrite Hl. simpl.
  apply forallb_forall. intros b Hin.
  rewrite Forall_forall in Hb. specialize (Hb b Hin). unfold is_u8 in Hb.
  apply andb_true_intro. split; [apply Z.leb_le | apply Z.ltb_lt]; lia.
Qed.

Lemma popcount_sum_bounds (data : list Z) :
  0 <= fold_right Z.add 0 (map popcount data)
  <= 8 * Z.of_nat (List.length data).
Proof.
  induction data as [| d data IH]; simpl; [lia |].
  pose proof (popcount_bounds d). lia.
Qed.

Lemma frame_of_payload (data : list Z) :
  List.length data = 12%nat -> Forall is_u8 data ->
  is_payload (frame_of data) = true.
Proof.
  intros Hl Hb. apply is_payload_intro.
  - unfold frame_of. cbv zeta. rewrite length_app, length_map. simpl.
    rewrite Hl. reflexivity.
  - assert (Ht : Forall is_u8
                   (fold_right Z.add 0 (map popcount data) :: data)).
    { constructor; [| exact Hb].
      pose proof (popcount_sum_bounds data) as B. rewrite Hl in B.
      unfold is_u8. simpl in B. lia. }
    unfold frame_of. cbv zeta. apply Forall_app. split; [| exact Ht].
    apply Forall_map. eapply Forall_impl; [| exact Ht].
    intros b. apply lxor_255_u8.
Qed.

(** X2.  Round trip: any 12 data bytes, framed as the header comment
    describes, decode with [DECODE_OK]; the frame carries the data bytes at
    positions 14..25, so the fields are read from them: the sensor id is data
    byte 0, the battery bit is bit 7 of data byte 11, and so on through the
    field map. *)
Theorem decode_frame_of (data : list Z) (pOut : WeatherData) :
  List.length data = 12%nat -> Forall is_u8 data ->
  decodeBresser5In1Payload (frame_of data) 26 pOut
  = (DECODE_OK, field_map (frame_of data) (pressure pOut), [])
  /\ skipn 14 (frame_of data) = data
  /\ (forall k, (k < 12)%nat ->
        at_ (frame_of data) (14 + Z.of_nat k) = nth k data 0).
Proof.
  intros Hl Hb. pose proof (frame_of_payload data Hl Hb) as Hp.
  do 12 (destruct data as [| ? data]; [discriminate Hl |]).
  destruct data; [| discriminate Hl]. clear Hl Hb.
  split; [| split].
  - rewrite decode_parity_passed; [| exact Hp |].
    + unfold checksum_holds, frame_of, popcount_range, at_. simpl.
      rewrite Z.eqb_refl. reflexivity.
    + unfold parity_holds, frame_of, inverted_at, at_. simpl.
      rewrite !lxor_complement_twice. reflexivity.
  - reflexivity.
  - intros k Hk. unfold at_. rewrite Z2Nat.inj_add, Nat2Z.id by lia.
    do 12 (destruct k as [| k]; [reflexivity |]). lia.
Qed.

Lemma decode_frame_of_witness :
  decodeBresser5In1Payload
    (frame_of [0x13; 0x80; 0x14; 0xA0; 0x11; 0x10; 0x05; 0x01; 0x89; 0x44;
               0x05; 0x00]) 26 WeatherData_zero
  = decodeBresser5In1Payload example_frame 26 WeatherData_zero.
Proof.
  rewrite (proj1 (decode_frame_of
                    [0x13; 0x80; 0x14; 0xA0; 0x11; 0x10; 0x05; 0x01; 0x89;
                     0x44; 0x05; 0x00] WeatherData_zero eq_refl
                    ltac:(repeat constructor; unfold is_u8; lia))).
  vm_compute. reflexivity.
Defined.

(** ** Corruption of a single byte *)

Lemma set_byte_cons (a : Z) (msg : list Z) (i : nat) (v : Z) :
  set_byte (a :: msg) (S i) v = a :: set_byte msg i v.
Proof. reflexivity. Qed.

Lemma nth_set_byte (msg : list Z) :
  forall idx j v,
    (idx < List.length msg)%nat ->
    nth j (set_byte msg idx v) 0
    = if (j =? idx)%nat then v else nth j msg 0.
Proof.
  induction msg as [| a msg IH]; intros idx j v Hidx; [simpl in Hidx; lia |].
  destruct idx as [| idx].
  - destruct j; reflexivity.
  - rewrite set_byte_cons. destruct j as [| j]; [reflexivity |].
    simpl nth. rewrite IH by (simpl in Hidx; lia). reflexivity.
Qed.

Lemma at_set_byte (msg : list Z) (idx : nat) (v j : Z) :
  (idx < List.length msg)%nat -> 0 <= j ->
  at_ (set_byte msg idx v) j
  = if j =? Z.of_nat idx then v else at_ msg j.
Proof.
  intros Hidx Hj. unfold at_. rewrite nth_set_byte by exact Hidx.
  destruct (Nat.eqb_spec (Z.to_nat j) idx) as [E | E];
    destruct (Z.eqb_spec j (Z.of_nat idx)) as [E' | E'];
    try reflexivity; lia.
Qed.

(** X3.  Changing any one byte of a frame that passes the parity check makes
    the decoder return [DECODE_PAR_ERR], reporting the column of the changed
    byte (its index modulo 13), and leaves the output record untouched. *)
Theorem single_byte_corruption_detected (msg : list Z) (idx : nat) (v : Z)
    (pOut : WeatherData) :
  List.length msg = 26%nat ->
  parity_holds msg = true ->
  (idx < 26)%nat ->
  v <> nth idx msg 0 ->
  decodeBresser5In1Payload (set_byte msg idx v) 26 pOut
  = (DECODE_PAR_ERR, pOut, [ParityWrongAt (Z.of_nat (idx mod 13))]).
Proof.
  intros Hl Hpar Hidx Hv.
  pose proof (parity_holds_spec msg Hpar) as Hinv.
  assert (Hk : (idx mod 13 < 13)%nat) by (apply Nat.mod_upper_bound; lia).
  assert (Hcase : (idx = idx mod 13 \/ idx = idx mod 13 + 13)%nat).
  { pose proof (Nat.div_mod_eq idx 13).
    assert (idx / 13 < 2)%nat by (apply Nat.Div0.div_lt_upper_bound; lia).
    destruct (idx / 13)%nat as [| [| q]]; lia. }
  set (k := (idx mod 13)%nat) in *.
  unfold decodeBresser5In1Payload. change (Z.to_nat (26 / 2)) with 13%nat.
  rewrite (parity_loop_first _ 13 0 (Z.of_nat k)); [reflexivity | simpl; lia | |].
  - specialize (Hinv (Z.of_nat k) ltac:(lia)).
    unfold inverted_at in *. apply Z.eqb_eq in Hinv. apply Z.eqb_neq.
    rewrite !at_set_byte by lia.
    destruct Hcase as [E | E].
    + destruct (Z.eqb_spec (Z.of_nat k) (Z.of_nat idx)); [| lia].
      destruct (Z.eqb_spec (Z.of_nat k + 13) (Z.of_nat idx)); [lia |].
      intros Hx. apply lxor_255_complement in Hx, Hinv.
      apply Hv. rewrite Hx, <- Hinv. unfold at_. rewrite Nat2Z.id, E.
      reflexivity.
    + destruct (Z.eqb_spec (Z.of_nat k) (Z.of_nat idx)); [lia |].
      destruct (Z.eqb_spec (Z.of_nat k + 13) (Z.of_nat idx)); [| lia].
      intros Hx. rewrite Z.lxor_comm in Hx, Hinv.
      apply lxor_255_complement in Hx, Hinv.
      apply Hv. rewrite Hx, <- Hinv. unfold at_.
      replace (Z.to_nat (Z.of_nat k + 13)) with idx by lia. reflexivity.
  - intros j Hj. specialize (Hinv j ltac:(lia)).
    unfold inverted_at in *. rewrite !at_set_byte by lia.
    destruct (Z.eqb_spec j (Z.of_nat idx)); [lia |].
    destruct (Z.eqb_spec (j + 13) (Z.of_nat idx)); [lia |].
    exact Hinv.
Qed.

Lemma single_byte_corruption_detected_witness :
  decodeBresser5In1Payload (set_byte example_frame 20 0x06) 26 WeatherData_zero
  = (DECODE_PAR_ERR, WeatherData_zero, [ParityWrongAt 7]).
Proof.
  apply (single_byte_corruption_detected example_frame 20 0x06 WeatherData_zero
           eq_refl eq_refl ltac:(lia)).
  vm_compute. discriminate.
Defined.

(** ** Ranges of the decoded values *)

Lemma nibble_bounds (b : Z) :
  is_u8 b -> 0 <= lo_nibble b <= 15 /\ 0 <= hi_nibble b <= 15.
Proof.
  intros Hb. unfold is_u8 in Hb. unfold lo_nibble, hi_nibble.
  pose proof (Z.mod_pos_bound b 16 ltac:(lia)).
  assert (0 <= b / 16) by (apply Z.div_pos; lia).
  assert (b / 16 < 16) by (apply Z.div_lt_upper_bound; lia).
  lia.
Qed.

Lemma bcd_tenths_bounds (b0 b1 : Z) :
  is_u8 b0 -> is_u8 b1 -> 0 <= bcd_tenths b0 b1 <= 1665.
Proof.
  intros H0 H1. unfold bcd_tenths.
  pose proof (nibble_bounds b0 H0). pose proof (nibble_bounds b1 H1). lia.
Qed.

(** X4.  What an accepted payload can decode to: the checksum byte is at
    most 96, the sensor id is a byte, the humidity lies in 0..165 (the
    nibbles are not checked to be decimal digits), temperature, wind and rain
    are at most 1665 tenths in magnitude, the gust at most 4095 tenths, and
    the wind direction is one of the 16 multiples of 22.5. *)
Theorem decoded_ranges (msg : list Z) (pOut : WeatherData) :
  is_payload msg = true ->
  fst (fst (decodeBresser5In1Payload msg 26 pOut)) = DECODE_OK ->
  let out := snd (fst (decodeBresser5In1Payload msg 26 pOut)) in
  0 <= at_ msg 13 <= 96
  /\ 0 <= sensor_id out <= 255
  /\ 0 <= humidity out <= 165
  /\ (exists raw, - 1665 <= raw <= 1665 /\ temp_c out = Float32.tenths raw)
  /\ (exists raw, 0 <= raw <= 4095
                  /\ wind_gust_meter_sec out = Float32.tenths raw)
  /\ (exists raw, 0 <= raw <= 1665
                  /\ wind_avg_meter_sec out = Float32.tenths raw)
  /\ (exists raw, 0 <= raw <= 1665 /\ rain_mm out = Float32.tenths raw)
  /\ (exists d, 0 <= d <= 15
                /\ wind_direction_deg out = Float32.compass d).
Proof.
  intros Hp Hok. rewrite decode_status in Hok by exact Hp.
  destruct (parity_holds msg) eqn:Hpar; [| discriminate].
  destruct (checksum_holds msg) eqn:Hchk; [| discriminate].
  rewrite decode_parity_passed by assumption. rewrite Hchk. cbv zeta.
  cbn [fst snd field_map sensor_id humidity temp_c wind_gust_meter_sec
       wind_avg_meter_sec rain_mm wind_direction_deg].
  destruct (is_payload_spec msg Hp) as [_ Hb].
  unfold checksum_holds in Hchk. apply Z.eqb_eq in Hchk.
  pose proof (popcount_range_bounds msg 12 14) as Hpc.
  split; [rewrite <- Hchk; simpl in Hpc; lia |].
  split; [pose proof (Hb 14) as H14; unfold is_u8 in H14; lia |].
  split; [pose proof (nibble_bounds _ (Hb 22)); lia |].
  split.
  { pose proof (bcd_tenths_bounds _ _ (Hb 20) (Hb 21)).
    destruct (lo_nibble (at_ msg 25) =? 0); eexists; (split; [| reflexivity]);
      lia. }
  split.
  { eexists. split; [| reflexivity].
    rewrite <- gust_add_is_lor by apply Hb.
    rewrite land_15_lo_nibble, Z.shiftl_mul_pow2 by lia.
    pose proof (nibble_bounds _ (Hb 17)). pose proof (Hb 16) as H16.
    unfold is_u8 in H16. change (2 ^ 8) with 256. lia. }
  split.
  { eexists. split; [| reflexivity]. apply bcd_tenths_bounds; apply Hb. }
  split.
  { eexists. split; [| reflexivity]. apply bcd_tenths_bounds; apply Hb. }
  eexists. split; [| reflexivity]. apply nibble_bounds, Hb.
Qed.

(** Data bytes whose humidity nibbles are both 15 are accepted and decode to
    a humidity of 165. *)
Lemma decoded_ranges_witness :
  humidity
    (snd (fst (decodeBresser5In1Payload
                 (frame_of [0x13; 0x80; 0x14; 0xA0; 0x11; 0x10; 0x05; 0x01;
                            0xFF; 0x44; 0x05; 0x00]) 26 WeatherData_zero)))
  = 165
  /\ 0 <= humidity
            (snd (fst (decodeBresser5In1Payload
                         (frame_of [0x13; 0x80; 0x14; 0xA0; 0x11; 0x10; 0x05;
                                    0x01; 0xFF; 0x44; 0x05; 0x00]) 26
                         WeatherData_zero))) <= 165.
Proof.
  split; [vm_compute; reflexivity |].
  apply (decoded_ranges
           (frame_of [0x13; 0x80; 0x14; 0xA0; 0x11; 0x10; 0x05; 0x01; 0xFF;
                      0x44; 0x05; 0x00]) WeatherData_zero eq_refl).
  vm_compute. reflexivity.
Defined.


(** ** Reading a token back *)

Lemma group_digits (g f r N : Z) :
  0 < N -> 0 <= f < 100 -> 0 <= r < N ->
  (((g * 100 + f) * N + r) / N) mod 100 = f.
Proof.
  intros HN Hf Hr.
  replace (((g * 100 + f) * N + r) / N) with (g * 100 + f)
    by (apply Z.div_unique with (r := r); [left; lia | ring]).
  symmetry. apply Z.mod_unique with (q := g); [left; lia | ring].
Qed.

(** X5.  Whenever the normalized time lies in 2000..2099, the token's decimal
    digit groups are, from the top, the year within the century, the month
    (1..12), the day, the hour and the minute of that time; so the token
    determines the minute it stands for. *)
Theorem token_digit_groups (t : tm) (m : Z) :
  normalized (outputTime_of t m) = true ->
  100 <= tm_year (outputTime_of t m) <= 199 ->
  let o := outputTime_of t m in
  let k := assembleTargetTime t m in
  k / 100000000 = tm_year o - 100
  /\ (k / 1000000) mod 100 = tm_mon o + 1
  /\ (k / 10000) mod 100 = tm_mday o
  /\ (k / 100) mod 100 = tm_hour o
  /\ k mod 100 = tm_min o.
Proof.
  intros Hn Hy. cbv zeta.
  rewrite assembleTargetTime_digit_groups
    by (try assumption; change (2 ^ 31) with 2147483648; lia).
  apply normalized_spec in Hn.
  pose proof (days_in_month_bounds (tm_year (outputTime_of t m))
                (tm_mon (outputTime_of t m))).
  generalize dependent (outputTime_of t m). intros o Hy Hn Hd.
  unfold digit_groups.
  set (y := tm_year o - 100). set (mo := tm_mon o + 1).
  split; [| split; [| split; [| split]]].
  - symmetry.
    apply Z.div_unique
      with (r := mo * 1000000 + tm_mday o * 10000 + tm_hour o * 100 + tm_min o);
      [left; subst mo; lia | ring].
  - replace ((((y * 100 + mo) * 100 + tm_mday o) * 100 + tm_hour o) * 100
             + tm_min o)
      with ((y * 100 + mo) * 1000000
            + (tm_mday o * 10000 + tm_hour o * 100 + tm_min o)) by ring.
    apply group_digits; subst mo; lia.
  - replace ((((y * 100 + mo) * 100 + tm_mday o) * 100 + tm_hour o) * 100
             + tm_min o)
      with (((y * 100 + mo) * 100 + tm_mday o) * 10000
            + (tm_hour o * 100 + tm_min o)) by ring.
    apply group_digits; lia.
  - apply group_digits; lia.
  - symmetry.
    apply Z.mod_unique
      with (q := ((y * 100 + mo) * 100 + tm_mday o) * 100 + tm_hour o);
      [left; lia | ring].
Qed.

Lemma token_digit_groups_witness :
  assembleTargetTime (mk_tm 126 10 2 23 55 12) 10 mod 100 = 5
  /\ (assembleTargetTime (mk_tm 126 10 2 23 55 12) 10 / 10000) mod 100 = 3.
Proof.
  destruct (token_digit_groups (mk_tm 126 10 2 23 55 12) 10 eq_refl
              ltac:(vm_compute; split; discriminate))
    as (_ & _ & Hd & _ & Hm).
  split; [exact Hm | exact Hd].
Defined.

(** X6.  A year before 2000 makes [tm_year - 100] negative, and its
    conversion to [uint64_t] wraps: a valid time before the year 2000, with
    [tm_year] at least [INT_MIN + 100] so that the [int] subtraction stays
    in range, gets a token of at least [2^64 - 2^31 * 10^8], which is above
    the token of every valid time from 2000 on, however much later that
    is. *)
Theorem token_before_2000_wraps (t1 t2 : tm) :
  valid_tm t1 = true -> valid_tm t2 = true ->
  - 2 ^ 31 + 100 <= tm_year t1 < 100 -> 100 <= tm_year t2 ->
  assembleTargetTime t2 0 < assembleTargetTime t1 0
  /\ 2 ^ 64 - 2 ^ 31 * 100000000 <= assembleTargetTime t1 0.
Proof.
  intros H1 H2 Hy1 Hy2.
  apply valid_tm_spec in H1, H2. destruct H1 as [N1 Y1], H2 as [N2 Y2].
  rewrite !assembleTargetTime_zero by assumption.
  pose proof (normalized_zero_sec t1 N1) as Z1.
  pose proof (normalized_zero_sec t2 N2) as Z2.
  rewrite !outputTimeEncoded_of_value
    by (try assumption; unfold start_of_minute, mk_tm; cbn [tm_year]; lia).
  apply normalized_spec in N1, N2.
  pose proof (days_in_month_bounds (tm_year t1) (tm_mon t1)).
  pose proof (days_in_month_bounds (tm_year t2) (tm_mon t2)).
  unfold start_of_minute, digit_groups, mk_tm.
  cbn [tm_year tm_mon tm_mday tm_hour tm_min tm_sec].
  change (2 ^ 31) with 2147483648 in *. change (2 ^ 32) with 4294967296.
  change (2 ^ 64) with 18446744073709551616.
  destruct (Z.ltb_spec (tm_year t1) (Z.opp 2147483648 + 100));
    destruct (Z.ltb_spec (tm_year t2) (Z.opp 2147483648 + 100));
    destruct (Z.ltb_spec (tm_year t1) 100);
    destruct (Z.ltb_spec (tm_year t2) 100); lia.
Qed.

Lemma token_before_2000_wraps_witness :
  assembleTargetTime (mk_tm 199 11 31 23 59 0) 0
  < assembleTargetTime (mk_tm 70 0 1 0 0 0) 0.
Proof.
  apply (token_before_2000_wraps (mk_tm 70 0 1 0 0 0) (mk_tm 199 11 31 23 59 0)
           eq_refl eq_refl); unfold mk_tm; cbn [tm_year]; lia.
Defined.

(** ** The target of the sleeping state *)

(** X7.  The time the sleeping state aims at.  For every [mktime] that
    meets [normalizes_minutes] on it (as the library does when no
    daylight-saving change lies between the local time and the target and
    it can represent the target), the time [remaining_minutes] after a
    normalized local time [t] is a normalized calendar time with zero
    seconds whose minute is a multiple of the sampling interval, in a later
    minute than [t] and at most ten minutes ahead. *)
Theorem target_is_aligned (mktime : tm -> tm) (t : tm) :
  normalized t = true ->
  normalizes_minutes mktime (outputTime_before t (remaining_minutes t)) ->
  let o := outputTime_with mktime t (remaining_minutes t) in
  o = minutes_later (remaining_minutes t) (start_of_minute t)
  /\ normalized o = true
  /\ tm_sec o = 0
  /\ tm_min o mod sleepTimeMinutes = 0
  /\ minute_ltb t o = true
  /\ 1 <= remaining_minutes t <= sleepTimeMinutes.
Proof.
  intros Hn Hlib. cbv zeta.
  destruct (sleep_arithmetic t Hn) as (_ & _ & _ & Bm & _).
  assert (Hmin : 0 <= tm_min t <= 59)
    by (apply normalized_spec in Hn; lia).
  unfold sleepTimeMinutes in Bm.
  rewrite outputTime_with_later
    by (try assumption; change (2 ^ 31) with 2147483648; lia).
  destruct (minutes_later_spec (start_of_minute t) (remaining_minutes t)
              (normalized_zero_sec t Hn) ltac:(lia)) as (No & Lo & So & Mo).
  split; [reflexivity |]. split; [exact No |]. split; [exact So |].
  split; [| split; [exact Lo | exact Bm]].
  rewrite Mo. unfold start_of_minute, mk_tm. cbn [tm_min].
  unfold remaining_minutes, sleepTimeMinutes in *.
  Z.div_mod_to_equations. lia.
Qed.

Lemma target_is_aligned_witness :
  tm_min (outputTime_of (mk_tm 126 10 2 23 55 12)
                        (remaining_minutes (mk_tm 126 10 2 23 55 12)))
  mod sleepTimeMinutes = 0
  /\ outputTime_of (mk_tm 126 10 2 23 55 12)
                    (remaining_minutes (mk_tm 126 10 2 23 55 12))
     = mk_tm 126 10 3 0 0 0.
Proof.
  destruct (target_is_aligned Calendar.mktime (mk_tm 126 10 2 23 55 12)
              eq_refl ltac:(vm_compute; reflexivity))
    as (Ho & _ & _ & Hm & _).
  split; [exact Hm |]. refine (eq_trans Ho _). vm_compute. reflexivity.
Defined.

(** ** The sleep request *)

(** What a step from the sleeping state with a valid local time appends to
    the trace. *)
Lemma sleeping_step_trace (env : Env) (w : World) (t : tm) :
  samplingState w = SLEEP_UNTIL_TIME_SLOT ->
  local_time env (tick w) = (true, t) ->
  normalized t = true ->
  trace (snd (loop env w))
  = trace w
    ++ (if 30 <=? remaining_seconds t
        then [Serial (AwaitingCapture
                        (assembleTargetTime t (remaining_minutes t)));
              Serial (SleepingFor (remaining_seconds t));
              DisconnectWifi;
              Delay 1000;
              SleepEnableTimerWakeup (remaining_seconds t * 1000000);
              LightSleepStart]
        else []).
Proof.
  intros Hst Ht Hn.
  destruct (sleep_arithmetic t Hn) as (Em & Em32 & Es & Bm & Bs).
  cbv zeta in Em, Em32, Es.
  unfold_step. rewrite Hst. cbv beta iota. rewrite Ht. cbv beta iota.
  rewrite Em32, Es. simpl.
  destruct (Z.leb_spec 30 (remaining_seconds t)) as [Hge | Hlt]; simpl.
  - rewrite <- !app_assoc. simpl.
    replace (u64 (remaining_seconds t * 1000000))
      with (remaining_seconds t * 1000000)
      by (unfold u64; rewrite Z.mod_small; lia).
    reflexivity.
  - rewrite app_nil_r. reflexivity.
Qed.

(** X8.  Every timer wake-up armed by a step from the sleeping state (with a
    valid local time) is a whole number of seconds between 30 and 600, and
    that many seconds after the local time read in the step the wall clock
    is on a multiple of ten minutes; one second of [delay] precedes the
    sleep. *)
Theorem sleep_request_bounds (env : Env) (w : World) (t : tm) :
  samplingState w = SLEEP_UNTIL_TIME_SLOT ->
  local_time env (tick w) = (true, t) ->
  valid_tm t = true ->
  exists tr,
    trace (snd (loop env w)) = trace w ++ tr
    /\ forall us,
         In (SleepEnableTimerWakeup us) tr ->
         30 * 1000000 <= us <= 600 * 1000000
         /\ us mod 1000000 = 0
         /\ (tm_min t * 60 + tm_sec t + us / 1000000) mod 600 = 0
         /\ total_delay tr = 1000.
Proof.
  intros Hst Ht Hv. apply valid_tm_spec in Hv. destruct Hv as [Hn _].
  eexists. split; [apply (sleeping_step_trace env w t); assumption |].
  intros us Hin.
  destruct (sleep_arithmetic t Hn) as (_ & _ & _ & Bm & Bs).
  destruct (Z.leb_spec 30 (remaining_seconds t)) as [Hge | Hlt];
    [| destruct Hin].
  simpl in Hin.
  destruct Hin as [H | [H | [H | [H | [H | [H | []]]]]]]; try discriminate.
  injection H as <-.
  split; [lia |]. split; [apply Z.mod_mul; lia |].
  split; [| reflexivity].
  rewrite Z.div_mul by lia.
  unfold remaining_seconds, sleepTimeMinutes in *.
  apply normalized_spec in Hn.
  Z.div_mod_to_equations. lia.
Qed.

Lemma sleep_request_bounds_witness :
  exists tr,
    trace (snd (loop (constant_env true true (0, [])
                                   (true, mk_tm 126 10 2 14 3 20) 0)
                     (world_in SLEEP_UNTIL_TIME_SLOT 7 [])))
    = [] ++ tr
    /\ In (SleepEnableTimerWakeup 400000000) tr.
Proof.
  destruct (sleep_request_bounds
              (constant_env true true (0, []) (true, mk_tm 126 10 2 14 3 20) 0)
              (world_in SLEEP_UNTIL_TIME_SLOT 7 [])
              (mk_tm 126 10 2 14 3 20) eq_refl eq_refl eq_refl)
    as (tr & Htr & _).
  exists tr. split; [exact Htr |].
  simpl app in Htr. rewrite <- Htr. vm_compute. tauto.
Defined.

(** ** The AwaitingTimeSlot state *)

(** A time that is not in an earlier minute than [T] has a token at or above
    the token of [T]. *)
Lemma token_not_earlier (t T : tm) :
  valid_tm t = true -> valid_tm T = true ->
  century t = century T ->
  minute_ltb t T = false ->
  assembleTargetTime T 0 <= assembleTargetTime t 0.
Proof.
  intros Vt VT Hc Hnl.
  destruct (minute_ltb T t) eqn:Hlt.
  - apply Z.lt_le_incl. apply token_order_minutes; auto.
  - assert (A : ~ minute_ltb t T = true) by (rewrite Hnl; discriminate).
    assert (B : ~ minute_ltb T t = true) by (rewrite Hlt; discriminate).
    rewrite lex_ltb_minute in A, B.
    apply valid_tm_spec in Vt, VT. destruct Vt as [Nt _], VT as [NT _].
    rewrite !assembleTargetTime_zero by assumption.
    apply Z.eq_le_incl, outputTimeEncoded_of_minute.
    unfold start_of_minute, minute_key, mk_tm.
    cbn [tm_year tm_mon tm_mday tm_hour tm_min].
    assert (tm_year t = tm_year T) as -> by lia.
    assert (tm_mon t = tm_mon T) as -> by lia.
    assert (tm_mday t = tm_mday T) as -> by lia.
    assert (tm_hour t = tm_hour T) as -> by lia.
    assert (tm_min t = tm_min T) as -> by lia.
    reflexivity.
Qed.

(** X9.  A step from the time-slot wait, with the target being the token of
    a valid time [T] and a valid local time [t] of the same century: while
    [t] is in an earlier minute than [T] the state stays, the step prints
    both tokens and delays two seconds; from the minute of [T] on the next
    state is [CAPTURE_WEATHER_DATA].  Nothing else changes. *)
Theorem await_step (env : Env) (w : World) (t T : tm) :
  samplingState w = AWAIT_TIME_SLOT ->
  local_time env (tick w) = (true, t) ->
  valid_tm t = true -> valid_tm T = true -> century t = century T ->
  targetWakeTime w = assembleTargetTime T 0 ->
  let w' := snd (loop env w) in
  (minute_ltb t T = true ->
   samplingState w' = AWAIT_TIME_SLOT
   /\ trace w'
      = trace w ++ [Serial (AwaitingSlot (assembleTargetTime T 0)
                                         (assembleTargetTime t 0));
                    Delay 2000])
  /\ (minute_ltb t T = false ->
      samplingState w' = CAPTURE_WEATHER_DATA
      /\ trace w' = trace w ++ [Serial (Text "Reached time to capture data.")])
  /\ buffer w' = buffer w
  /\ targetWakeTime w' = targetWakeTime w
  /\ wifiReinitAttempts w' = wifiReinitAttempts w
  /\ lightSlept w' = lightSlept w.
Proof.
  intros Hst Ht Hvt HvT Hc Htarget.
  unfold_step. rewrite Hst. cbv beta iota. rewrite Ht. cbv beta iota.
  cbn [targetWakeTime set_tick fst snd]. rewrite Htarget.
  destruct (minute_ltb t T) eqn:Hlt.
  - assert (assembleTargetTime t 0 < assembleTargetTime T 0)
      by (apply token_order_minutes; auto).
    destruct (Z.leb_spec (assembleTargetTime T 0) (assembleTargetTime t 0));
      [lia |].
    cbn. rewrite <- app_assoc. repeat split; try discriminate; try assumption.
  - assert (assembleTargetTime T 0 <= assembleTargetTime t 0)
      by (apply token_not_earlier; auto).
    destruct (Z.leb_spec (assembleTargetTime T 0) (assembleTargetTime t 0));
      [| lia].
    cbn. repeat split; try discriminate; try assumption.
Qed.

Lemma await_step_witness :
  samplingState
    (snd (loop (constant_env true true (0, []) (true, mk_tm 126 10 2 14 9 59) 0)
               (set_targetWakeTime 2611021410
                  (world_in AWAIT_TIME_SLOT 0 []))))
  = AWAIT_TIME_SLOT
  /\ samplingState
       (snd (loop (constant_env true true (0, [])
                                (true, mk_tm 126 10 2 14 10 0) 0)
                  (set_targetWakeTime 2611021410
                     (world_in AWAIT_TIME_SLOT 0 []))))
     = CAPTURE_WEATHER_DATA.
Proof.
  assert (Htarget : 2611021410 = assembleTargetTime (mk_tm 126 10 2 14 10 0) 0)
    by (vm_compute; reflexivity).
  split.
  - exact (proj1 (proj1 (await_step
             (constant_env true true (0, []) (true, mk_tm 126 10 2 14 9 59) 0)
             (set_targetWakeTime 2611021410 (world_in AWAIT_TIME_SLOT 0 []))
             (mk_tm 126 10 2 14 9 59) (mk_tm 126 10 2 14 10 0)
             eq_refl eq_refl eq_refl eq_refl eq_refl Htarget) eq_refl)).
  - exact (proj1 (proj1 (proj2 (await_step
             (constant_env true true (0, []) (true, mk_tm 126 10 2 14 10 0) 0)
             (set_targetWakeTime 2611021410 (world_in AWAIT_TIME_SLOT 0 []))
             (mk_tm 126 10 2 14 10 0) (mk_tm 126 10 2 14 10 0)
             eq_refl eq_refl eq_refl eq_refl eq_refl Htarget)) eq_refl)).
Defined.

(** ** Steps without a valid clock *)

Ltac world_simpl :=
  cbn [fst snd samplingState wifiReinitAttempts targetWakeTime lightSlept
       buffer trace tick set_samplingState set_wifiReinitAttempts
       set_targetWakeTime set_lightSlept set_buffer set_trace set_tick
       emit ret].

Lemma step_without_clock (env : Env) (w : World) :
  fst (local_time env (tick w)) = false ->
  samplingState w = SLEEP_UNTIL_TIME_SLOT
  \/ samplingState w = AWAIT_TIME_SLOT ->
  snd (loop env w) = set_tick (S (tick w)) w.
Proof.
  intros Hclk Hst. unfold_step.
  destruct Hst as [Hst | Hst]; rewrite Hst; cbv beta iota;
    destruct (local_time env (tick w)) as [valid t]; simpl in Hclk;
    subst valid; reflexivity.
Qed.

(** X10.  While [getLocalTime] reports no valid time, the sleeping state and
    the time-slot wait make no progress at all: after any number of steps
    the state, the target, the flags, the buffer and the trace are as they
    were; only the clock has been queried once per step. *)
Theorem no_clock_no_progress (env : Env) (n : nat) (w : World) :
  (forall k, fst (local_time env k) = false) ->
  samplingState w = SLEEP_UNTIL_TIME_SLOT
  \/ samplingState w = AWAIT_TIME_SLOT ->
  run env n w = set_tick (n + tick w) w.
Proof.
  intros Hclk. revert w. induction n as [| n IH]; intros w Hst.
  - destruct w. reflexivity.
  - simpl run. rewrite step_without_clock by auto.
    rewrite IH by exact Hst. unfold set_tick. world_simpl.
    rewrite Nat.add_succ_r. reflexivity.
Qed.

Lemma no_clock_no_progress_witness :
  run (constant_env true true (0, []) (false, mk_tm 70 0 1 0 0 0) 0) 5
      (world_in SLEEP_UNTIL_TIME_SLOT 0 two_entries)
  = set_tick 5 (world_in SLEEP_UNTIL_TIME_SLOT 0 two_entries).
Proof.
  apply (no_clock_no_progress
           (constant_env true true (0, []) (false, mk_tm 70 0 1 0 0 0) 0) 5
           (world_in SLEEP_UNTIL_TIME_SLOT 0 two_entries)).
  - intros k. reflexivity.
  - left. reflexivity.
Defined.

(** ** Reconnected after the sleep *)

(** The ten one-second waits only extend the trace. *)
Lemma time_sync_wait_run (n : nat) :
  forall w,
    exists tr,
      snd (time_sync_wait n w) = set_trace (trace w ++ tr) w
      /\ total_delay tr = 1000 * Z.of_nat n.
Proof.
  induction n as [| n IH]; intros w.
  - exists []. destruct w. unfold set_trace. world_simpl.
    rewrite app_nil_r. split; reflexivity.
  - simpl time_sync_wait. rewrite !bind_run.
    destruct (IH (snd (print "." (snd (delay 1000 w))))) as (tr & E & Hd).
    exists (Delay 1000 :: Serial (Text ".") :: tr).
    rewrite E. unfold print, delay, emit, set_trace. world_simpl.
    rewrite <- !app_assoc. split; [reflexivity |].
    cbn [total_delay]. rewrite Hd. lia.
Qed.

(** X11.  A step from the reconnecting state with WiFi connected leads to
    [CAPTURE_WEATHER_DATA]; if the device has just slept the step clears
    that flag and waits ten seconds for the clock to be set, otherwise it
    does not wait; the retry counter and the buffer are not touched. *)
Theorem reinit_step_connected (env : Env) (w : World) :
  samplingState w = REINIT_WIFI_CONNECTION ->
  wifi_up env (tick w) = true ->
  let w' := snd (loop env w) in
  samplingState w' = CAPTURE_WEATHER_DATA
  /\ lightSlept w' = false
  /\ wifiReinitAttempts w' = wifiReinitAttempts w
  /\ buffer w' = buffer w
  /\ exists tr,
       trace w' = trace w ++ tr
       /\ total_delay tr = (if lightSlept w then 10000 else 0).
Proof.
  intros Hst Hwifi. cbv zeta. unfold loop. rewrite bind_run.
  change (gets samplingState w) with (samplingState w, w). cbn [fst snd].
  rewrite Hst. unfold handleWifiConnection. rewrite bind_run.
  cbn [query fst snd]. rewrite Hwifi. rewrite !bind_run.
  cbn [modify gets fst snd lightSlept set_samplingState set_tick].
  destruct (lightSlept w) eqn:Hslept.
  - rewrite !bind_run.
    match goal with
    | |- context [time_sync_wait 10 ?W] =>
        destruct (time_sync_wait_run 10 W) as (tr & E & Hd)
    end.
    rewrite E. unfold print, emit, modify. world_simpl.
    repeat split.
    exists (Serial (Text "Connected to WiFi - OK - waiting a few seconds for time sync") :: tr).
    rewrite <- app_assoc. split; [reflexivity |].
    cbn [total_delay]. rewrite Hd. reflexivity.
  - unfold ret. world_simpl. repeat split; [exact Hslept |].
    exists []. rewrite app_nil_r. split; reflexivity.
Qed.

Lemma reinit_step_connected_witness :
  samplingState
    (snd (loop (constant_env true true (0, []) (true, mk_tm 126 10 2 14 3 20) 0)
               (set_lightSlept true (world_in REINIT_WIFI_CONNECTION 3 []))))
  = CAPTURE_WEATHER_DATA
  /\ lightSlept
       (snd (loop (constant_env true true (0, [])
                                (true, mk_tm 126 10 2 14 3 20) 0)
                  (set_lightSlept true (world_in REINIT_WIFI_CONNECTION 3 []))))
     = false.
Proof.
  destruct (reinit_step_connected
              (constant_env true true (0, []) (true, mk_tm 126 10 2 14 3 20) 0)
              (set_lightSlept true (world_in REINIT_WIFI_CONNECTION 3 []))
              eq_refl eq_refl) as (H1 & H2 & _).
  split; [exact H1 | exact H2].
Defined.

(** ** The transition graph *)

Lemma sending_ends_sleeping (env : Env) (w : World) :
  samplingState w = SEND_WEATHER_DATA ->
  samplingState (snd (loop env w)) = SLEEP_UNTIL_TIME_SLOT.
Proof.
  intros Hst. unfold loop. rewrite bind_run.
  change (gets samplingState w) with (samplingState w, w). cbn [fst snd].
  rewrite Hst. rewrite !bind_run. reflexivity.
Qed.

Lemma reinit_connected_state (env : Env) (w : World) :
  samplingState w = REINIT_WIFI_CONNECTION ->
  wifi_up env (tick w) = true ->
  samplingState (snd (loop env w)) = CAPTURE_WEATHER_DATA.
Proof.
  intros Hst Hwifi. unfold loop. rewrite bind_run.
  change (gets samplingState w) with (samplingState w, w). cbn [fst snd].
  rewrite Hst. unfold handleWifiConnection. rewrite bind_run.
  cbn [query fst snd]. rewrite Hwifi. rewrite !bind_run.
  cbn [modify gets fst snd lightSlept set_samplingState set_tick].
  destruct (lightSlept w).
  - rewrite !bind_run.
    match goal with
    | |- context [time_sync_wait 10 ?W] =>
        destruct (time_sync_wait_run 10 W) as (tr & E & _)
    end.
    rewrite E. reflexivity.
  - reflexivity.
Qed.

Lemma loop_successor (env : Env) (w : World) :
  In (samplingState (snd (loop env w))) (successors (samplingState w)).
Proof.
  destruct (samplingState w) eqn:Hst.
  - unfold_step. rewrite Hst. cbv beta iota.
    destruct (wifi_up env (tick w)); world_simpl; simpl; auto.
  - destruct (wifi_up env (tick w)) eqn:Hwifi.
    + rewrite reinit_connected_state by assumption. simpl. auto.
    + unfold_step. rewrite Hst. cbv beta iota. rewrite Hwifi.
      cbv beta iota. world_simpl.
      destruct (wifiReinitAttempts w <? 40); world_simpl.
      * rewrite Hst. simpl. auto.
      * destruct (24 * 60 * 60 * 21 <=? epoch_time env (S (tick w)));
          world_simpl; simpl; auto.
  - unfold_step. rewrite Hst. cbv beta iota.
    destruct (local_time env (tick w)) as [[|] t]; cbv beta iota; world_simpl.
    + match goal with |- context [if ?b then _ else _] => destruct b end;
        world_simpl; rewrite ?Hst; simpl; auto.
    + unfold ret. world_simpl. rewrite Hst. simpl. auto.
  - rewrite capturing_step by exact Hst.
    destruct (is_decoded _); simpl; auto.
  - rewrite sending_ends_sleeping by exact Hst. simpl. auto.
  - unfold_step. rewrite Hst. cbv beta iota.
    destruct (local_time env (tick w)) as [[|] t]; cbv beta iota; world_simpl.
    + match goal with |- context [if ?b then _ else _] => destruct b end;
        world_simpl; simpl; auto.
    + unfold ret. world_simpl. rewrite Hst. simpl. auto.
Qed.

(** X12.  Every step follows the transition graph of the [switch]: the
    initial connection can only stay or go to sleeping, reconnecting can
    stay or go to capturing, the time-slot wait or sleeping, the time-slot
    wait can only stay or go to capturing, capturing can only stay or go to
    sending, sending always goes to sleeping, and sleeping can stay or go to
    reconnecting or the time-slot wait.  In particular the initial state is
    never entered again once it has been left. *)
Theorem loop_follows_graph (env : Env) (w : World) :
  In (samplingState (snd (loop env w))) (successors (samplingState w))
  /\ (forall n,
        samplingState w <> INITIAL_WIFI_CONNECTION ->
        samplingState (run env n w) <> INITIAL_WIFI_CONNECTION).
Proof.
  split; [apply loop_successor |].
  intros n. revert w. induction n as [| n IH]; intros w Hne; [exact Hne |].
  simpl run. apply IH.
  pose proof (loop_successor env w) as Hs.
  destruct (samplingState w); simpl in Hs; try contradiction;
    intuition congruence.
Qed.

Lemma loop_follows_graph_witness :
  samplingState
    (run scripted_radio_env 6 (world_in CAPTURE_WEATHER_DATA 0 []))
  <> INITIAL_WIFI_CONNECTION.
Proof.
  apply (proj2 (loop_follows_graph scripted_radio_env
                  (world_in CAPTURE_WEATHER_DATA 0 [])) 6%nat).
  discriminate.
Defined.

(** ** What capture does to the buffer *)

Lemma uploads_map_Serial (lines : list SerialLine) :
  uploads (map Serial lines) = [].
Proof. induction lines as [| l lines IH]; [reflexivity | exact IH]. Qed.

(** The result of [capture], case by case on what the radio hands over:
    the returned flag, the entries appended, and the rows handed to the
    sheet (none). *)
Lemma capture_appends (env : Env) (w : World) :
  exists extra,
    buffer (snd (capture env w)) = buffer w ++ extra
    /\ List.length extra = (if fst (capture env w) then 1 else 0)%nat
    /\ uploads (trace (snd (capture env w))) = uploads (trace w).
Proof.
  unfold capture, radio_receive_27. rewrite bind_run. cbn [query fst snd].
  destruct (radio_receive env (tick w)) as [state recvData].
  destruct (state =? RADIOLIB_ERR_NONE).
  - destruct (at_ recvData 0 =? 212).
    + destruct (decodeBresser5In1Payload (tl recvData) (u8 (27 - 1))
                  WeatherData_zero) as [[status weatherData] lines].
      rewrite bind_run.
      destruct status.
      * unfold pressureSensorAvailable, readPressureSensorHpa, getLocalTime,
          appendWeatherDataEntry.
        rewrite !bind_run. cbn [query emit_all fst snd tick set_tick set_trace].
        destruct (pressure_available env (S (tick w)));
          rewrite ?bind_run; cbn [query ret fst snd];
          rewrite ?bind_run; cbn [query emit modify ret fst snd];
          unfold getLocalTime; cbn [query modify fst snd]; world_simpl;
          (eexists; split; [reflexivity |]; split; [reflexivity |]);
          rewrite !uploads_app, uploads_map_Serial; simpl;
          rewrite !app_nil_r; reflexivity.
      * exists []. cbn [emit_all ret fst snd]. world_simpl.
        rewrite app_nil_r, uploads_app, uploads_map_Serial, app_nil_r.
        repeat split.
      * exists []. cbn [emit_all ret fst snd]. world_simpl.
        rewrite app_nil_r, uploads_app, uploads_map_Serial, app_nil_r.
        repeat split.
    + exists []. cbn [ret fst snd]. world_simpl. rewrite app_nil_r.
      repeat split.
  - destruct (state =? RADIOLIB_ERR_RX_TIMEOUT).
    + exists []. cbn [ret fst snd]. world_simpl. rewrite app_nil_r.
      repeat split.
    + exists []. rewrite bind_run. cbn [ret emit fst snd]. world_simpl.
      rewrite app_nil_r, uploads_app. simpl. rewrite app_nil_r.
      repeat split.
Qed.

(** X13.  [capture] never removes or reorders buffered entries and hands
    nothing to the sheet: the buffer afterwards is the buffer before with
    exactly one entry appended when it returns true, and exactly the buffer
    before when it returns false; the state and the retry counter are not
    touched. *)
Theorem capture_only_appends (env : Env) (w : World) :
  (exists extra,
     buffer (snd (capture env w)) = buffer w ++ extra
     /\ List.length extra = (if fst (capture env w) then 1 else 0)%nat
     /\ uploads (trace (snd (capture env w))) = uploads (trace w))
  /\ samplingState (snd (capture env w)) = samplingState w
  /\ wifiReinitAttempts (snd (capture env w)) = wifiReinitAttempts w.
Proof.
  split; [apply capture_appends |].
  split; [apply capture_keeps_state | apply keeps_capture].
Qed.

(** X14.  When the radio delivers the sync byte 0xD4 followed by a payload
    that passes both checks, [capture] returns true, prints one weather
    report and appends one entry to the history buffer: the decoded field
    map, with the pressure read from the sensor if it reports available and
    zero otherwise, stamped by the buffer with the local time. *)
Theorem capture_stores_decoded (env : Env) (w : World) (payload : list Z) :
  radio_receive env (tick w) = (RADIOLIB_ERR_NONE, 0xD4 :: payload) ->
  is_payload payload = true ->
  parity_holds payload = true ->
  checksum_holds payload = true ->
  let avail := pressure_available env (S (tick w)) in
  let measured :=
    field_map payload
      (if avail then pressure_hpa env (S (S (tick w))) else Float32.zero) in
  fst (capture env w) = true
  /\ buffer (snd (capture env w))
     = buffer w
       ++ [{| weatherData := measured;
              captured_at :=
                snd (local_time env
                       (if avail then 4 + tick w else 3 + tick w)%nat) |}]
  /\ trace (snd (capture env w))
     = trace w ++ [Serial (WeatherReport measured)].
Proof.
  intros Hrx Hp Hpar Hchk. cbv zeta.
  unfold capture, radio_receive_27. rewrite bind_run. cbn [query fst snd].
  rewrite Hrx. change (RADIOLIB_ERR_NONE =? RADIOLIB_ERR_NONE) with true.
  cbv iota. change (at_ (212 :: payload) 0 =? 212) with true. cbv iota.
  cbn [tl]. change (u8 (27 - 1)) with 26.
  rewrite decode_parity_passed by assumption. rewrite Hchk.
  unfold pressureSensorAvailable, readPressureSensorHpa, getLocalTime,
    appendWeatherDataEntry.
  rewrite !bind_run. cbn [query emit_all fst snd tick set_tick set_trace map].
  destruct (pressure_available env (S (tick w)));
    rewrite ?bind_run; cbn [query ret fst snd];
    rewrite ?bind_run; cbn [query emit modify ret fst snd];
    unfold getLocalTime; cbn [query modify fst snd]; world_simpl;
    rewrite app_nil_r; repeat split.
Qed.

Lemma capture_stores_decoded_witness :
  fst (capture scripted_radio_env
               (set_tick 3 (world_in CAPTURE_WEATHER_DATA 0 [])))
  = true.
Proof.
  apply (capture_stores_decoded scripted_radio_env
           (set_tick 3 (world_in CAPTURE_WEATHER_DATA 0 []))
           example_frame eq_refl eq_refl eq_refl eq_refl).
Defined.

(** ** No entry is lost *)

Lemma accepted_rows_app (a b : list (WeatherDataEntry * bool)) :
  accepted_rows (a ++ b) = accepted_rows a ++ accepted_rows b.
Proof. unfold accepted_rows. rewrite filter_app, map_app. reflexivity. Qed.

Lemma quiet_modify (f : World -> World) :
  (forall w, buffer (f w) = buffer w) ->
  (forall w, trace (f w) = trace w) ->
  quiet (modify f).
Proof.
  intros Hb Ht w. unfold modify. cbn [snd]. rewrite Hb, Ht.
  split; reflexivity.
Qed.

(** Like [quiet_step], also through the setters of the globals and the
    pattern-matching lets of [loop]. *)
Ltac quiet_loop_step :=
  repeat first
    [ solve [auto with quiet]
    | apply quiet_bind; [| intros ?]
    | apply quiet_emit; reflexivity
    | apply quiet_modify; intros ?; reflexivity
    | match goal with
      | |- quiet (if ?b then _ else _) => destruct b
      | |- quiet (match ?n with O => _ | S _ => _ end) => destruct n
      | |- quiet (let '(_, _) := ?p in _) => destruct p
      end ].

Lemma quiet_time_sync_wait (n : nat) : quiet (time_sync_wait n).
Proof. induction n as [| n IH]; simpl; quiet_loop_step. Qed.

Lemma quiet_ledger {A} (c : M A) (w : World) :
  quiet c -> ledger (snd (c w)) = ledger w.
Proof.
  intros Hc. destruct (Hc w) as [Hb Hu]. unfold ledger. rewrite Hb, Hu.
  reflexivity.
Qed.

Lemma drains_ledger {A} (bound : nat) (c : M A) (w : World) :
  drains bound c -> ledger (snd (c w)) = ledger w.
Proof.
  intros Hc. destruct (Hc w) as (k & ups & Hb & Hu & _ & Ha & _).
  unfold ledger. rewrite Hb, Hu, accepted_rows_app, Ha, <- app_assoc.
  rewrite firstn_skipn. reflexivity.
Qed.

(** One step leaves the ledger as it is or appends to it. *)
Lemma loop_ledger (env : Env) (w : World) :
  exists extra, ledger (snd (loop env w)) = ledger w ++ extra.
Proof.
  pose proof (quiet_time_sync_wait 10) as Hsync.
  unfold loop. rewrite bind_run.
  change (gets samplingState w) with (samplingState w, w). cbn [fst snd].
  destruct (samplingState w).
  - exists []. rewrite app_nil_r. apply quiet_ledger.
    unfold handleWifiConnection. quiet_loop_step.
  - exists []. rewrite app_nil_r. apply quiet_ledger.
    unfold handleWifiConnection, getTime. quiet_loop_step.
  - exists []. rewrite app_nil_r. apply quiet_ledger.
    unfold getLocalTime. quiet_loop_step.
  - rewrite bind_run.
    destruct (capture_appends env w) as (extra & Hb & _ & Hu).
    exists extra.
    rewrite (quiet_ledger _ (snd (capture env w)))
      by (destruct (fst (capture env w)); quiet_loop_step).
    unfold ledger. rewrite Hb, Hu, app_assoc. reflexivity.
  - exists []. rewrite app_nil_r. apply (drains_ledger 20).
    apply drains_after_quiet; [quiet_step | intros _].
    apply drains_then_quiet; [apply drains_send | intros _].
    quiet_step.
  - exists []. rewrite app_nil_r. apply quiet_ledger.
    unfold getLocalTime, disconnectWifi. quiet_loop_step.
Qed.

(** X15.  Nothing is lost or reordered: after any number of steps the
    ledger (the entries the sheet has accepted, in order, followed by the
    entries still buffered) is the ledger before, with the newly captured
    entries at its end.  So an entry leaves the buffer only by being
    accepted by the sheet. *)
Theorem ledger_only_grows (env : Env) (n : nat) (w : World) :
  (exists extra, ledger (run env n w) = ledger w ++ extra)
  /\ (forall e, In e (buffer w) ->
        In e (accepted_rows (uploads (trace (run env n w))))
        \/ In e (buffer (run env n w))).
Proof.
  assert (H : exists extra, ledger (run env n w) = ledger w ++ extra).
  { revert w. induction n as [| n IH]; intros w.
    - exists []. rewrite app_nil_r. reflexivity.
    - simpl run. destruct (loop_ledger env w) as (e1 & H1).
      destruct (IH (snd (loop env w))) as (e2 & H2).
      exists (e1 ++ e2). rewrite H2, H1, app_assoc. reflexivity. }
  split; [exact H |].
  intros e Hin. destruct H as (extra & H).
  apply in_app_or. fold (ledger (run env n w)). rewrite H.
  apply in_or_app. left. unfold ledger. apply in_or_app. right. exact Hin.
Qed.

Lemma ledger_only_grows_witness :
  exists extra,
    ledger (run (constant_env true true (0, []) (true, mk_tm 126 10 2 14 3 20) 0)
                3 (world_in SEND_WEATHER_DATA 0 two_entries))
    = ledger (world_in SEND_WEATHER_DATA 0 two_entries) ++ extra.
Proof.
  exact (proj1 (ledger_only_grows
                  (constant_env true true (0, [])
                                (true, mk_tm 126 10 2 14 3 20) 0)
                  3 (world_in SEND_WEATHER_DATA 0 two_entries))).
Defined.

(** ** Sending without WiFi *)

Lemma advance_nothing (w : World) : advance [] 0 w = w.
Proof. destruct w. unfold advance, set_trace, set_tick. world_simpl.
  rewrite app_nil_r. reflexivity. Qed.

Lemma advance_advance (tr1 tr2 : list Event) (k1 k2 : nat) (w : World) :
  advance tr2 k2 (advance tr1 k1 w) = advance (tr1 ++ tr2) (k1 + k2) w.
Proof.
  unfold advance, set_trace, set_tick. world_simpl.
  rewrite app_assoc, (Nat.add_comm k1 k2), Nat.add_assoc. reflexivity.
Qed.

Lemma emit_advance (e : Event) (w : World) :
  snd (emit e w) = advance [e] 0 w.
Proof. destruct w. reflexivity. Qed.

Lemma query_advance {A} (oracle : nat -> A) (w : World) :
  snd (query oracle w) = advance [] 1 w.
Proof.
  destruct w. unfold query, advance, set_trace, set_tick. world_simpl.
  rewrite app_nil_r. reflexivity.
Qed.

Lemma wifi_wait_inner_down (env : Env) (n : nat) :
  (forall k, wifi_up env k = false) ->
  forall w,
    snd (wifi_wait_inner env n w)
    = advance (List.concat (repeat [Delay 250; Serial (Text ".")] n)) n w.
Proof.
  intros Hdown. induction n as [| n IH]; intros w.
  - simpl. symmetry. apply advance_nothing.
  - simpl wifi_wait_inner. unfold handleWifiConnection.
    rewrite bind_run. cbn [query fst]. rewrite Hdown.
    rewrite !bind_run, IH. unfold print, delay.
    rewrite !emit_advance, query_advance, !advance_advance.
    reflexivity.
Qed.

#[local] Arguments wifi_wait_inner : simpl never.

Lemma wifi_wait_outer_down (env : Env) (n : nat) :
  (forall k, wifi_up env k = false) ->
  forall w,
    snd (wifi_wait_outer env n w)
    = advance
        (List.concat
           (repeat
              (Serial (Text "WiFi connection pending - wait...")
               :: List.concat (repeat [Delay 250; Serial (Text ".")] 20)
               ++ [Serial (Text "")])
              n))
        (21 * n) w.
Proof.
  intros Hdown. induction n as [| n IH]; intros w.
  - simpl. symmetry. apply advance_nothing.
  - simpl wifi_wait_outer. unfold handleWifiConnection.
    rewrite bind_run. cbn [query fst]. rewrite Hdown.
    rewrite !bind_run, IH, wifi_wait_inner_down by exact Hdown.
    unfold print. rewrite !emit_advance, query_advance, !advance_advance.
    f_equal; try lia.
    all: cbn [repeat List.concat]; rewrite <- ?app_assoc; reflexivity.
Qed.

(** X16.  If WiFi stays down, [send] gives up after exactly 127 connection
    polls and 30.1 seconds of waiting: it returns false, hands no row to
    the sheet and leaves the buffer as it was. *)
Theorem send_offline_gives_up (env : Env) (w : World) :
  (forall k, wifi_up env k = false) ->
  fst (send env w) = false
  /\ snd (send env w) = advance send_offline_trace 127 w
  /\ total_delay send_offline_trace = 30100
  /\ buffer (snd (send env w)) = buffer w
  /\ uploads (trace (snd (send env w))) = uploads (trace w).
Proof.
  intros Hdown.
  assert (E : send env w = (false, advance send_offline_trace 127 w)).
  { unfold send. rewrite !bind_run. unfold handleWifiConnection.
    cbn [query fst]. rewrite Hdown. cbn [negb].
    rewrite bind_run. cbn [ret fst snd]. f_equal.
    rewrite wifi_wait_outer_down by exact Hdown.
    unfold print, delay.
    rewrite !emit_advance, query_advance, !advance_advance.
    reflexivity. }
  rewrite E. cbn [fst snd].
  repeat split.
  unfold advance. world_simpl. rewrite uploads_app.
  change (uploads send_offline_trace) with (@nil (WeatherDataEntry * bool)).
  apply app_nil_r.
Qed.

Lemma send_offline_gives_up_witness :
  fst (send (constant_env false true (0, []) (true, mk_tm 126 10 2 14 3 20) 0)
            (world_in SEND_WEATHER_DATA 0 two_entries))
  = false.
Proof.
  apply (send_offline_gives_up
           (constant_env false true (0, []) (true, mk_tm 126 10 2 14 3 20) 0)
           (world_in SEND_WEATHER_DATA 0 two_entries)).
  intros k. reflexivity.
Defined.

(** ** What [send] returns *)

Lemma reports_after_quiet {A} (c : M A) (k : A -> M bool) :
  quiet c -> (forall a, reports (k a)) -> reports (bind c k).
Proof.
  intros Hc Hk w. rewrite bind_run.
  destruct (Hc w) as [_ Hu].
  destruct (Hk (fst (c w)) (snd (c w))) as (ups & H1 & H2).
  exists ups. rewrite <- Hu. split; assumption.
Qed.

Lemma reports_nothing (c : M bool) :
  quiet c -> (forall w, fst (c w) = false) -> reports c.
Proof.
  intros Hc Hf w. destruct (Hc w) as [_ Hu].
  exists []. rewrite app_nil_r. split; [exact Hu | apply Hf].
Qed.

Lemma upload_loop_result (env : Env) (n : nat) :
  forall sent w,
    exists ups,
      uploads (trace (snd (upload_loop env n sent w)))
      = uploads (trace w) ++ ups
      /\ fst (upload_loop env n sent w) = (sent || existsb snd ups)%bool.
Proof.
  induction n as [| n IH]; intros sent w.
  - exists []. simpl. rewrite app_nil_r, orb_false_r. split; reflexivity.
  - simpl upload_loop. rewrite bind_run.
    unfold getTotalWeatherDataEntries, gets. cbn [fst snd].
    destruct (buffer w) as [| e rest] eqn:Ebuf.
    + exists []. simpl. rewrite app_nil_r, orb_false_r. split; reflexivity.
    + change (0 <? Z.of_nat (List.length (e :: rest))) with true. cbv iota.
      destruct (emitBufferedDataEntry_run env w e rest Ebuf) as (Hs & _ & Ht1).
      cbv zeta in Hs, Ht1.
      rewrite !bind_run.
      set (w1 := snd (emitBufferedDataEntry env w)) in *.
      set (w2 := snd (delay 250 w1)).
      assert (Ht2 : uploads (trace w2)
                    = uploads (trace w)
                      ++ [(e, sheet_accepts env (tick w))]).
      { unfold w2, delay, emit. cbn [snd trace set_trace].
        rewrite uploads_app, Ht1, uploads_app. simpl.
        rewrite app_nil_r. reflexivity. }
      destruct (IH (sent || fst (emitBufferedDataEntry env w))%bool w2)
        as (ups & Hu & Hf).
      exists ((e, sheet_accepts env (tick w)) :: ups).
      rewrite Hu, Ht2, <- app_assoc, Hf, Hs. split; [reflexivity |].
      cbn [existsb snd]. rewrite orb_assoc. reflexivity.
Qed.

Lemma reports_send (env : Env) : reports (send env).
Proof.
  unfold send.
  pose proof (quiet_wifi_wait_outer env 6).
  pose proof (quiet_token_wait env 60).
  unfold handleWifiConnection, isGoogleAccessTokenInit,
    checkGoogleAccessTokenReady, setupGoogleAccessTokenAcquire.
  repeat (apply reports_after_quiet; [solve [quiet_step] | intros ?]).
  match goal with |- reports (if ?b then _ else _) => destruct b end.
  - apply reports_nothing; [quiet_step | intros w; reflexivity].
  - repeat (apply reports_after_quiet; [solve [quiet_step] | intros ?]).
    match goal with |- reports (if ?b then _ else _) => destruct b end.
    + unfold getTotalWeatherDataEntries.
      repeat (apply reports_after_quiet; [solve [quiet_step] | intros ?]).
      intros w. destruct (upload_loop_result env 20 false w) as (ups & Hu & Hf).
      exists ups. split; [exact Hu | exact Hf].
    + apply reports_nothing; [quiet_step | intros w; reflexivity].
Qed.

(** X17.  [send] returns true exactly when the sheet accepted at least one
    of the rows handed over in this call; failing to connect, a token that
    is not ready, an empty buffer and a sheet that refuses every row all
    give false. *)
Theorem send_returns_whether_uploaded (env : Env) (w : World) :
  exists ups,
    uploads (trace (snd (send env w))) = uploads (trace w) ++ ups
    /\ (fst (send env w) = true <-> accepted_rows ups <> []).
Proof.
  destruct (reports_send env w) as (ups & Hu & Hf).
  exists ups. split; [exact Hu |]. rewrite Hf. clear.
  unfold accepted_rows.
  induction ups as [| [e ok] ups IH]; simpl.
  - split; [discriminate | intros H; contradiction].
  - destruct ok; simpl.
    + split; [discriminate | reflexivity].
    + exact IH.
Qed.

(** ** Catching up *)

Lemma uploads_oldest_after_quiet {A B} (c : M A) (k : A -> M B) :
  quiet c -> (forall a, uploads_oldest (k a)) -> uploads_oldest (bind c k).
Proof.
  intros Hc Hk w. rewrite bind_run. destruct (Hc w) as [Hb Hu].
  destruct (Hk (fst (c w)) (snd (c w))) as [H1 H2].
  rewrite <- Hb, <- Hu. split; assumption.
Qed.

Lemma uploads_oldest_after_known {A B} (c : M A) (k : A -> M B) (a : A) :
  quiet c -> (forall w, fst (c w) = a) -> uploads_oldest (k a) ->
  uploads_oldest (bind c k).
Proof.
  intros Hc Ha Hk w. rewrite bind_run, Ha. destruct (Hc w) as [Hb Hu].
  destruct (Hk (snd (c w))) as [H1 H2].
  rewrite <- Hb, <- Hu. split; assumption.
Qed.

Lemma upload_loop_accepting (env : Env) (n : nat) :
  (forall k, sheet_accepts env k = true) ->
  forall sent w,
    buffer (snd (upload_loop env n sent w)) = skipn n (buffer w)
    /\ uploads (trace (snd (upload_loop env n sent w)))
       = uploads (trace w) ++ map (fun e => (e, true)) (firstn n (buffer w)).
Proof.
  intros Hacc. induction n as [| n IH]; intros sent w.
  - simpl. rewrite app_nil_r. split; reflexivity.
  - simpl upload_loop. rewrite bind_run.
    unfold getTotalWeatherDataEntries, gets. cbn [fst snd].
    destruct (buffer w) as [| e rest] eqn:Ebuf.
    + simpl. rewrite app_nil_r, Ebuf. split; reflexivity.
    + change (0 <? Z.of_nat (List.length (e :: rest))) with true. cbv iota.
      destruct (emitBufferedDataEntry_run env w e rest Ebuf) as (_ & Hb1 & Ht1).
      cbv zeta in Hb1, Ht1. rewrite Hacc in Hb1, Ht1.
      rewrite !bind_run.
      set (w1 := snd (emitBufferedDataEntry env w)) in *.
      set (w2 := snd (delay 250 w1)).
      destruct (IH (sent || fst (emitBufferedDataEntry env w))%bool w2)
        as [Hb Hu].
      assert (Hb2 : buffer w2 = rest) by (rewrite <- Hb1; reflexivity).
      assert (Ht2 : uploads (trace w2) = uploads (trace w) ++ [(e, true)]).
      { unfold w2, delay, emit. cbn [snd trace set_trace].
        rewrite uploads_app, Ht1, uploads_app. simpl.
        rewrite app_nil_r. reflexivity. }
      rewrite Hb, Hu, Hb2, Ht2, <- app_assoc. split; reflexivity.
Qed.

(** X18.  With WiFi up, the token ready and a sheet that accepts every row,
    one call of [send] uploads the 20 oldest buffered entries, oldest first,
    and removes exactly those: a longer backlog shrinks by 20 per cycle and
    a shorter one is emptied. *)
Theorem send_catches_up (env : Env) (w : World) :
  (forall k, wifi_up env k = true) ->
  (forall k, token_ready env k = true) ->
  (forall k, sheet_accepts env k = true) ->
  buffer (snd (send env w)) = skipn 20 (buffer w)
  /\ uploads (trace (snd (send env w)))
     = uploads (trace w) ++ map (fun e => (e, true)) (firstn 20 (buffer w)).
Proof.
  intros Hwifi Hready Hacc. revert w.
  change (uploads_oldest (send env)). unfold send.
  pose proof (quiet_wifi_wait_outer env 6).
  pose proof (quiet_token_wait env 60).
  unfold isGoogleAccessTokenInit, setupGoogleAccessTokenAcquire.
  do 3 (apply uploads_oldest_after_quiet; [solve [quiet_step] | intros ?]).
  apply (uploads_oldest_after_known _ _ true);
    [unfold handleWifiConnection; quiet_step
    | intros w; apply Hwifi |].
  cbn [negb].
  do 6 (apply uploads_oldest_after_quiet; [solve [quiet_step] | intros ?]).
  apply (uploads_oldest_after_known _ _ true);
    [unfold checkGoogleAccessTokenReady; quiet_step
    | intros w; apply Hready |].
  unfold getTotalWeatherDataEntries.
  do 3 (apply uploads_oldest_after_quiet; [solve [quiet_step] | intros ?]).
  intros w. apply upload_loop_accepting, Hacc.
Qed.

Lemma send_catches_up_witness :
  buffer (snd (send (constant_env true true (0, [])
                                  (true, mk_tm 126 10 2 14 3 20) 0)
                    (world_in SEND_WEATHER_DATA 0 two_entries)))
  = [].
Proof.
  apply (send_catches_up
           (constant_env true true (0, []) (true, mk_tm 126 10 2 14 3 20) 0)
           (world_in SEND_WEATHER_DATA 0 two_entries));
    intros k; reflexivity.
Defined.

(** ** Waiting for the token *)

Lemma total_delay_app (a b : list Event) :
  total_delay (a ++ b) = total_delay a + total_delay b.
Proof.
  induction a as [| e a IH]; [reflexivity |].
  destruct e; simpl; rewrite IH; lia.
Qed.

Lemma token_wait_never_ready (env : Env) (n : nat) :
  (forall k, token_ready env k = false) ->
  forall w,
    snd (token_wait env n w)
    = advance (List.concat (repeat [Delay 500; Serial (Text ".")] n)) (S n) w.
Proof.
  intros Hno. induction n as [| n IH]; intros w.
  - simpl token_wait. unfold checkGoogleAccessTokenReady.
    rewrite bind_run. cbn [query fst]. rewrite Hno.
    cbn [ret snd]. apply query_advance.
  - simpl token_wait. unfold checkGoogleAccessTokenReady.
    rewrite bind_run. cbn [query fst]. rewrite Hno.
    rewrite !bind_run, IH. unfold print, delay.
    rewrite !emit_advance, query_advance, !advance_advance.
    f_equal; try lia.
Qed.

Lemma tick_advance (tr : list Event) (k : nat) (w : World) :
  tick (advance tr k w) = (k + tick w)%nat.
Proof. reflexivity. Qed.

Lemma wifi_wait_outer_up (env : Env) (n : nat) (w : World) :
  (forall k, wifi_up env k = true) ->
  snd (wifi_wait_outer env (S n) w) = advance [] 1 w.
Proof.
  intros Hup. simpl wifi_wait_outer. unfold handleWifiConnection.
  rewrite bind_run. cbn [query fst]. rewrite Hup. cbn [ret snd].
  apply query_advance.
Qed.

(** X19.  Connected, but with a token that never becomes ready, [send]
    polls the token 62 times, half a second apart for 30 seconds, then gives
    up: it returns false, hands no row to the sheet and leaves the buffer as
    it was; the token is requested (for 630 seconds) only if it had not
    been initialised. *)
Theorem send_token_timeout (env : Env) (w : World) :
  (forall k, wifi_up env k = true) ->
  (forall k, token_ready env k = false) ->
  let init := token_init env (S (S (tick w))) in
  fst (send env w) = false
  /\ snd (send env w) = advance (send_token_timeout_trace init) 65 w
  /\ total_delay (send_token_timeout_trace init)
     = 30300 + (if init then 0 else 100)
  /\ buffer (snd (send env w)) = buffer w
  /\ uploads (trace (snd (send env w))) = uploads (trace w).
Proof.
  intros Hup Hno. cbv zeta.
  assert (E : send env w
              = (false,
                 advance (send_token_timeout_trace
                            (token_init env (S (S (tick w))))) 65 w)).
  { unfold send. rewrite !bind_run. unfold handleWifiConnection.
    cbn [query fst]. rewrite Hup. cbn [negb].
    rewrite !bind_run. unfold checkGoogleAccessTokenReady.
    cbn [query fst]. rewrite Hno.
    rewrite !bind_run. unfold ret at 1. f_equal.
    rewrite token_wait_never_ready by exact Hno.
    rewrite wifi_wait_outer_up by exact Hup.
    unfold isGoogleAccessTokenInit, setupGoogleAccessTokenAcquire,
      print, delay.
    rewrite ?emit_advance, ?query_advance, ?advance_advance.
    cbn [query fst]. rewrite tick_advance. cbn [Nat.add].
    destruct (token_init env (S (S (tick w)))); cbn [negb].
    - unfold ret. cbn [snd]. rewrite ?advance_advance. reflexivity.
    - rewrite !bind_run, ?emit_advance, ?advance_advance. reflexivity. }
  rewrite E. cbn [fst snd].
  split; [reflexivity |]. split; [reflexivity |].
  split; [destruct (token_init env (S (S (tick w)))); reflexivity |].
  split; [reflexivity |].
  unfold advance. world_simpl. rewrite uploads_app.
  destruct (token_init env (S (S (tick w)))); apply app_nil_r.
Qed.

Lemma send_token_timeout_witness :
  fst (send {| wifi_up := fun _ => true;
               token_init := fun _ => false;
               token_ready := fun _ => false;
               sheet_accepts := fun _ => true;
               radio_receive := fun _ => (0, []);
               local_time := fun _ => (true, mk_tm 126 10 2 14 3 20);
               epoch_time := fun _ => 0;
               pressure_available := fun _ => false;
               pressure_hpa := fun _ => Float32.zero |}
            (world_in SEND_WEATHER_DATA 0 two_entries))
  = false.
Proof.
  apply (send_token_timeout
           {| wifi_up := fun _ => true;
              token_init := fun _ => false;
              token_ready := fun _ => false;
              sheet_accepts := fun _ => true;
              radio_receive := fun _ => (0, []);
              local_time := fun _ => (true, mk_tm 126 10 2 14 3 20);
              epoch_time := fun _ => 0;
              pressure_available := fun _ => false;
              pressure_hpa := fun _ => Float32.zero |}
           (world_in SEND_WEATHER_DATA 0 two_entries));
    intros k; reflexivity.
Defined.

(** ** One buffered entry *)

(** X20.  [emitBufferedDataEntry] on an empty buffer returns false without
    calling the sheet; otherwise it hands the oldest entry to the sheet
    (one call), returns the sheet's answer and removes that entry exactly
    when the sheet accepted it, leaving the newer entries in place. *)
Theorem emitBufferedDataEntry_cases (env : Env) (w : World) :
  (buffer w = [] -> emitBufferedDataEntry env w = (false, w))
  /\ (forall e rest,
        buffer w = e :: rest ->
        fst (emitBufferedDataEntry env w) = sheet_accepts env (tick w)
        /\ buffer (snd (emitBufferedDataEntry env w))
           = (if sheet_accepts env (tick w) then rest else e :: rest)
        /\ trace (snd (emitBufferedDataEntry env w))
           = trace w ++ [AppendRow e (sheet_accepts env (tick w))]
        /\ tick (snd (emitBufferedDataEntry env w)) = S (tick w)).
Proof.
  split.
  - intros Hempty. unfold emitBufferedDataEntry, peekNextWeatherDataEntry, gets.
    rewrite bind_run. cbn [fst snd]. rewrite Hempty. reflexivity.
  - intros e rest Ebuf.
    destruct (emitBufferedDataEntry_run env w e rest Ebuf) as (H1 & H2 & H3).
    cbv zeta in H1, H2, H3. repeat split; try assumption.
    unfold emitBufferedDataEntry, peekNextWeatherDataEntry, gets.
    rewrite bind_run. cbn [fst snd]. rewrite Ebuf. cbn [hd_error].
    unfold appendRowToSheet, confirmPeekWeatherDataEntry, modify, emit, query,
      ret, bind.
    cbn [fst snd tick set_tick set_trace trace].
    destruct (sheet_accepts env (tick w)); reflexivity.
Qed.

Lemma emitBufferedDataEntry_cases_witness :
  emitBufferedDataEntry
    (constant_env true true (0, []) (true, mk_tm 126 10 2 14 3 20) 0)
    (world_in SEND_WEATHER_DATA 0 [])
  = (false, world_in SEND_WEATHER_DATA 0 []).
Proof.
  apply (proj1 (emitBufferedDataEntry_cases
                  (constant_env true true (0, [])
                                (true, mk_tm 126 10 2 14 3 20) 0)
                  (world_in SEND_WEATHER_DATA 0 []))).
  reflexivity.
Defined.

(** ** Reachable states *)

(** X21.  In every state the sketch can reach from its initialisers, with
    any collaborators and any buffer contents, the WiFi retry counter lies
    between 0 and 40: it is never negative and never passes its cap. *)
Theorem reachable_attempts_bounded (env : Env) (n : nat)
    (buf : list WeatherDataEntry) :
  0 <= wifiReinitAttempts (run env n (initial_world buf)) <= 40.
Proof.
  apply run_attempts_bounded. simpl. lia.
Qed.

(** ** Waiting for the first connection *)

Lemma initial_step (env : Env) (w : World) :
  samplingState w = INITIAL_WIFI_CONNECTION ->
  snd (loop env w)
  = if wifi_up env (tick w)
    then set_trace (trace w ++ [Serial (Text "Connected to WiFi - OK")])
           (set_samplingState SLEEP_UNTIL_TIME_SLOT (set_tick (S (tick w)) w))
    else set_tick (S (tick w)) w.
Proof.
  intros Hst. unfold_step. rewrite Hst. cbv beta iota.
  destruct (wifi_up env (tick w)); reflexivity.
Qed.

(** X22.  From the initial state the sketch does nothing but poll the WiFi
    connection, once per step: while the polls fail the state, the buffer
    and the trace stay as they are, and the step whose poll succeeds leads
    to [SLEEP_UNTIL_TIME_SLOT]. *)
Theorem initial_waits_for_wifi (env : Env) (n : nat) (w : World) :
  samplingState w = INITIAL_WIFI_CONNECTION ->
  (forall j, (j < n)%nat -> wifi_up env (j + tick w) = false) ->
  run env n w = set_tick (n + tick w) w
  /\ (wifi_up env (n + tick w) = true ->
      samplingState (run env (S n) w) = SLEEP_UNTIL_TIME_SLOT
      /\ buffer (run env (S n) w) = buffer w).
Proof.
  intros Hst Hdown.
  assert (E : run env n w = set_tick (n + tick w) w).
  { revert w Hst Hdown. induction n as [| n IH]; intros w Hst Hdown.
    - destruct w. reflexivity.
    - simpl run. rewrite initial_step by exact Hst.
      pose proof (Hdown 0%nat ltac:(lia)) as H0. cbn [Nat.add] in H0.
      rewrite H0. rewrite IH.
      + unfold set_tick. world_simpl. rewrite Nat.add_succ_r. reflexivity.
      + exact Hst.
      + intros j Hj. cbn [tick set_tick].
        rewrite <- Nat.add_succ_comm. apply Hdown. lia. }
  split; [exact E |].
  intros Hup. rewrite run_succ, E, initial_step by exact Hst.
  cbn [tick set_tick]. rewrite Hup. split; reflexivity.
Qed.

Lemma initial_waits_for_wifi_witness :
  run (constant_env false true (0, []) (true, mk_tm 126 10 2 14 3 20) 0) 7
      (initial_world two_entries)
  = set_tick 7 (initial_world two_entries).
Proof.
  apply (initial_waits_for_wifi
           (constant_env false true (0, []) (true, mk_tm 126 10 2 14 3 20) 0)
           7 (initial_world two_entries) eq_refl).
  intros j Hj. reflexivity.
Defined.

(** ** Start-up *)

Lemma initCC1101_returns (b : Boot.BootEnv) :
  snd (Boot.initCC1101 b) = Boot.radio_ok b.
Proof.
  unfold Boot.initCC1101, Boot.radio_ok.
  destruct (Boot.begin_status b =? RADIOLIB_ERR_NONE);
    destruct (Boot.crc_status b =? RADIOLIB_ERR_NONE);
    destruct (Boot.length_status b =? RADIOLIB_ERR_NONE);
    destruct (Boot.sync_status b =? RADIOLIB_ERR_NONE); reflexivity.
Qed.

(** X23.  Start-up returns exactly when all four radio calls answered
    without error.  Otherwise it halts at the first failing call: no later
    radio call is made, the last thing it does is print that call's error
    code, and neither the pressure sensor, the hostname, the history buffer
    nor the WiFi details are set up.  When it returns, the history buffer
    and the WiFi details are set up, and the pressure sensor is initialised
    exactly when it reported itself not available. *)
Theorem setup_halts_on_radio_failure (b : Boot.BootEnv) :
  snd (Boot.setup b) = Boot.radio_ok b
  /\ (Boot.radio_ok b = false ->
      List.length (filter Boot.is_radio_call (fst (Boot.setup b)))
      = Boot.calls_until_failure b
      /\ filter Boot.is_after_radio (fst (Boot.setup b)) = []
      /\ exists s code, last (fst (Boot.setup b)) (Boot.Wait 0)
                        = Boot.ErrorCode s code
                        /\ code <> RADIOLIB_ERR_NONE)
  /\ (Boot.radio_ok b = true ->
      List.length (filter Boot.is_radio_call (fst (Boot.setup b))) = 4%nat
      /\ In Boot.InitWeatherDataBuffer (fst (Boot.setup b))
      /\ In Boot.SetWifiConnectionDetails (fst (Boot.setup b))
      /\ (In Boot.InitPressureSensor (fst (Boot.setup b))
          <-> Boot.bmp_available b = false)).
Proof.
  unfold Boot.setup, Boot.initCC1101, Boot.radio_ok, Boot.calls_until_failure,
    Boot.beginPressureSensor.
  destruct (Z.eqb_spec (Boot.begin_status b) RADIOLIB_ERR_NONE);
    destruct (Z.eqb_spec (Boot.crc_status b) RADIOLIB_ERR_NONE);
    destruct (Z.eqb_spec (Boot.length_status b) RADIOLIB_ERR_NONE);
    destruct (Z.eqb_spec (Boot.sync_status b) RADIOLIB_ERR_NONE);
    cbn [negb andb fst snd];
    (split; [reflexivity |]);
    (split; intros H; try discriminate H).
  2-16: (split; [reflexivity |]; split; [reflexivity |];
         do 2 eexists; split; [reflexivity | assumption]).
  destruct (Boot.bmp_available b), (Boot.bmp_init_ok b); simpl;
    (split; [reflexivity |]); (split; [tauto |]); (split; [tauto |]);
    (split; intros H'; try reflexivity; try discriminate H';
     try tauto;
     repeat (destruct H' as [H' | H']; try discriminate H');
     contradiction).
Qed.

Lemma setup_halts_on_radio_failure_witness :
  filter Boot.is_after_radio
    (fst (Boot.setup {| Boot.begin_status := 0; Boot.crc_status := 0;
                        Boot.length_status := -2; Boot.sync_status := 0;
                        Boot.bmp_available := false;
                        Boot.bmp_init_ok := true |}))
  = [].
Proof.
  apply (proj1 (proj2 (setup_halts_on_radio_failure
                         {| Boot.begin_status := 0; Boot.crc_status := 0;
                            Boot.length_status := -2; Boot.sync_status := 0;
                            Boot.bmp_available := false;
                            Boot.bmp_init_ok := true |}))).
  reflexivity.
Defined.
